(** * ShinAI security monitoring: a shallow embedding of the event pipeline

    The development follows the JavaScript sources of
    [security/monitoring/src]: the orchestrator ([app.js]), the threat
    detector and the compliance checker ([detectors/threatDetector.js]),
    the audit logger ([loggers/auditLogger.js]), the alert manager and the
    metrics update of the security monitor.

    Conventions.
    - A JavaScript value that the pipeline receives, stores or serialises is
      a [value]; an absent property is [None] of a lookup ([undefined]).
    - Numbers that the pipeline computes (confidence, score) are IEEE
      binary64 floats, as in JavaScript; numbers inside payloads are
      integral.
    - Strings are sequences of 8-bit characters: the embedding covers
      payloads written in ASCII.
    - [async] functions are run to completion one after the other; a
      rejected promise is a thrown exception.  State mutated before a
      [throw] stays mutated. *)

From Stdlib Require Import ZArith String Ascii List Bool Lia DecimalString.
From Stdlib Require Import Floats.PrimFloat Floats.FloatOps Floats.SpecFloat Uint63.
From Stdlib Require Import Floats.FloatAxioms Sorting.Sorted.
From stdpp Require Import base option list gmap strings relations.
Import ListNotations.

Set Warnings "-inexact-float,-register-all".

Open Scope string_scope.
Open Scope Z_scope.

(* ===================================================================== *)
(** * Part I: definitions                                                 *)
(* ===================================================================== *)

(** ** Exceptions and the state monad *)

(** What a [throw] carries: the message of the [Error]. *)
Inductive Res (A : Type) : Type :=
| Ok (a : A)
| Throw (msg : string).
Arguments Ok {A} a.
Arguments Throw {A} msg.

(** A computation over a mutable state [S]: it returns or throws, and
    leaves a state behind either way. *)
Definition M (S A : Type) : Type := S -> Res A * S.

Definition ret {S A} (a : A) : M S A := fun s => (Ok a, s).
Definition throw {S A} (msg : string) : M S A := fun s => (Throw msg, s).
Definition bind {S A B} (m : M S A) (k : A -> M S B) : M S B :=
  fun s => match m s with
           | (Ok a, s') => k a s'
           | (Throw e, s') => (Throw e, s')
           end.
Definition get {S} : M S S := fun s => (Ok s, s).
Definition gets {S A} (f : S -> A) : M S A := fun s => (Ok (f s), s).
Definition modify {S} (f : S -> S) : M S unit := fun s => (Ok tt, f s).

(** [try { m } catch (error) { h error }] *)
Definition try_catch {S A} (m : M S A) (h : string -> M S A) : M S A :=
  fun s => match m s with
           | (Ok a, s') => (Ok a, s')
           | (Throw e, s') => h e s'
           end.

(** Run a computation of a component inside a larger state. *)
Definition zoom {W S A} (proj : W -> S) (inj : S -> W -> W) (m : M S A) : M W A :=
  fun w => let (r, s') := m (proj w) in (r, inj s' w).

Declare Scope monad_scope.
Delimit Scope monad_scope with monad.
Notation "'let*' x ':=' m 'in' k" := (bind m (fun x => k))
  (at level 10, x pattern, m at level 100, k at level 200) : monad_scope.
Notation "m ';;' k" := (bind m (fun _ => k))
  (at level 100, k at level 200, right associativity) : monad_scope.
Open Scope monad_scope.

Definition when {S} (b : bool) (m : M S unit) : M S unit :=
  if b then m else ret tt.

(** [for (const x of xs) { body x }] *)
Fixpoint for_each {S A} (xs : list A) (body : A -> M S unit) : M S unit :=
  match xs with
  | [] => ret tt
  | x :: rest => body x ;; for_each rest body
  end.

(** ** JavaScript values *)

Inductive value : Type :=
| VNull
| VBool (b : bool)
| VInt (n : Z)
| VFloat (x : float)
| VStr (s : string)
| VDate (ms : Z)
| VArr (items : list value)
| VObj (fields : list (string * value)).

(** [!!v] *)
Definition truthy (v : value) : bool :=
  match v with
  | VNull => false
  | VBool b => b
  | VInt n => negb (n =? 0)
  | VFloat x => negb (PrimFloat.eqb x 0%float || is_nan x)
  | VStr s => negb (String.eqb s "")
  | VDate _ | VArr _ | VObj _ => true
  end.

Definition truthy_opt (o : option value) : bool :=
  match o with Some v => truthy v | None => false end.

Fixpoint assoc {A} (k : string) (l : list (string * A)) : option A :=
  match l with
  | [] => None
  | (k', v) :: rest => if String.eqb k k' then Some v else assoc k rest
  end.

(** [obj[k] = v]: an existing key keeps its place, a new one goes last. *)
Fixpoint assoc_set {A} (k : string) (v : A) (l : list (string * A)) : list (string * A) :=
  match l with
  | [] => [(k, v)]
  | (k', v') :: rest =>
      if String.eqb k k' then (k, v) :: rest else (k', v') :: assoc_set k v rest
  end.

(** [v.k] for a [v] that is not [null] or [undefined]: the own property of
    an object, [undefined] on anything else ([null.k] throws and is
    written out where it can happen). *)
Definition prop (v : value) (k : string) : option value :=
  match v with
  | VObj fields => assoc k fields
  | _ => None
  end.

(** [v?.k] *)
Definition opt_prop (o : option value) (k : string) : option value :=
  match o with Some v => prop v k | None => None end.

(** [typeof v === 'object'] ([null], dates, arrays and objects). *)
Definition typeof_object (v : value) : bool :=
  match v with
  | VNull | VDate _ | VArr _ | VObj _ => true
  | _ => false
  end.

Definition str_of (o : option value) : option string :=
  match o with Some (VStr s) => Some s | _ => None end.

(** Fields of an object literal: a field whose value is [undefined] is
    left out, as [JSON.stringify] leaves it out. *)
Definition fields (l : list (string * option value)) : list (string * value) :=
  omap (fun kv => match snd kv with Some v => Some (fst kv, v) | None => None end) l.

(** ** The host: what Node.js and the npm packages provide

    The functions of the runtime and of third-party packages that the
    sources call are parameters of the development.  [None] stands for a
    thrown exception where the host function can throw. *)
Class Host : Type := {
  (** [Number.prototype.toString] on a non-integral number *)
  Number_toString : float -> string;
  (** [Date.prototype.toISOString], from milliseconds since the epoch *)
  toISOString : Z -> string;
  (** [new Date(ms).getHours()] *)
  getHours : Z -> Z;
  (** [JSON.parse] *)
  JSON_parse : string -> option value;
  (** [crypto.createHash('sha256').update(s).digest('hex')] *)
  sha256_hex : string -> string;
  (** [crypto.createCipher('aes-256-cbc', key)], [update(s, 'utf8', 'hex')]
      and [final('hex')] *)
  cipher_hex : string -> string -> option string;
  (** [crypto.createDecipher('aes-256-cbc', key)], [update(c, 'hex', 'utf8')]
      and [final('utf8')] *)
  decipher_utf8 : string -> string -> option string;
  (** [crypto.randomUUID()], from the state of the generator *)
  randomUUID : nat -> string;
  (** [validator.isIP] and [validator.isISO8601] on a string *)
  validator_isIP : string -> bool;
  validator_isISO8601 : string -> bool;
  (** [geoip.lookup(ip)]: [null] or an object with [country], [org], ... *)
  geoip_lookup : string -> option value;
  (** [new UAParser(ua).getResult()] *)
  uaParser_getResult : string -> value;
  (** [moment(ms).format('YYYY-MM-DD')] *)
  format_date : Z -> string;
  (** [new Date(s).getTime()]; [None] is an invalid date *)
  Date_parse : string -> option Z;
  (** [parseInt(s)] and [parseFloat(s)]; [None] is [NaN] *)
  parseInt : string -> option Z;
  parseFloat : string -> option float;
}.

(** ** JSON.stringify *)

Definition string_of_Z (n : Z) : string :=
  NilZero.string_of_int (Z.to_int n).

Definition hex_digit (n : N) : ascii :=
  match n with
  | 0%N => "0" | 1%N => "1" | 2%N => "2" | 3%N => "3" | 4%N => "4"
  | 5%N => "5" | 6%N => "6" | 7%N => "7" | 8%N => "8" | 9%N => "9"
  | 10%N => "a" | 11%N => "b" | 12%N => "c" | 13%N => "d" | 14%N => "e"
  | _ => "f"
  end%char.

Definition dquote : ascii := ascii_of_N 34.
Definition backslash : ascii := ascii_of_N 92.
Definition str1 (c : ascii) : string := String c EmptyString.

(** One character inside a JSON string literal. *)
Definition json_escape_char (c : ascii) : string :=
  let n := N_of_ascii c in
  if (n =? 34)%N then String backslash (str1 dquote)
  else if (n =? 92)%N then String backslash (str1 backslash)
  else if (n =? 8)%N then String backslash "b"
  else if (n =? 12)%N then String backslash "f"
  else if (n =? 10)%N then String backslash "n"
  else if (n =? 13)%N then String backslash "r"
  else if (n =? 9)%N then String backslash "t"
  else if (n <? 32)%N then
    String backslash ("u00" ++ String (hex_digit (n / 16)) (str1 (hex_digit (n mod 16))))
  else str1 c.

Fixpoint json_escape (s : string) : string :=
  match s with
  | EmptyString => EmptyString
  | String c rest => json_escape_char c ++ json_escape rest
  end.

Definition json_quote (s : string) : string :=
  String dquote (json_escape s ++ str1 dquote).

Fixpoint join (sep : string) (l : list string) : string :=
  match l with
  | [] => ""
  | [x] => x
  | x :: rest => x ++ sep ++ join sep rest
  end.

Section Stringify.
Context `{Host}.

(** [JSON.stringify(v)] with no indentation.  A date serialises through
    [toJSON], that is [toISOString]. *)
Fixpoint JSON_stringify (v : value) : string :=
  match v with
  | VNull => "null"
  | VBool true => "true"
  | VBool false => "false"
  | VInt n => string_of_Z n
  | VFloat x => Number_toString x
  | VStr s => json_quote s
  | VDate ms => json_quote (toISOString ms)
  | VArr items => "[" ++ join "," (map JSON_stringify items) ++ "]"
  | VObj fields =>
      "{" ++ join ","
               (map (fun kv => json_quote (fst kv) ++ ":" ++ JSON_stringify (snd kv)) fields)
          ++ "}"
  end.

End Stringify.

(** ** Regular expressions

    The patterns of the sources are written as syntax trees next to their
    source text; [rx] is the backtracking matcher of ECMAScript restricted
    to the constructs the patterns use (greedy stars, ordered alternatives,
    word boundaries, one negative lookahead). *)

Inductive cclass : Type :=
| CAny                      (* .   *)
| CDigit                    (* \d  *)
| CSpace                    (* \s  *)
| CWord                     (* \w  *)
| COneOf (cs : string)      (* [cs]  *)
| CNoneOf (cs : string).    (* [^cs] *)

Inductive regex : Type :=
| RChr (c : ascii)
| RCls (k : cclass)
| RBound                    (* \b *)
| REmpty
| RSeq (r1 r2 : regex)
| RAlt (r1 r2 : regex)
| RStar (r : regex)
| RNotAhead (r : regex).    (* (?!r) *)

Definition code_in (lo hi : N) (c : ascii) : bool :=
  let n := N_of_ascii c in ((lo <=? n) && (n <=? hi))%N.

Definition is_digit (c : ascii) : bool := code_in 48 57 c.
Definition is_upper (c : ascii) : bool := code_in 65 90 c.
Definition is_lower (c : ascii) : bool := code_in 97 122 c.
Definition is_word (c : ascii) : bool :=
  is_digit c || is_upper c || is_lower c || (N_of_ascii c =? 95)%N.
Definition is_space (c : ascii) : bool :=
  code_in 9 13 c || (N_of_ascii c =? 32)%N || (N_of_ascii c =? 160)%N.
Definition is_line_terminator (c : ascii) : bool :=
  (N_of_ascii c =? 10)%N || (N_of_ascii c =? 13)%N.

Definition to_lower (c : ascii) : ascii :=
  if is_upper c then ascii_of_N (N_of_ascii c + 32) else c.

(** Equality of characters, after canonicalisation under the [i] flag. *)
Definition chr_eq (ci : bool) (c d : ascii) : bool :=
  if ci then Ascii.eqb (to_lower c) (to_lower d) else Ascii.eqb c d.

Fixpoint chr_in (ci : bool) (d : ascii) (cs : string) : bool :=
  match cs with
  | EmptyString => false
  | String c rest => chr_eq ci c d || chr_in ci d rest
  end.

Definition cls_mem (ci : bool) (k : cclass) (d : ascii) : bool :=
  match k with
  | CAny => negb (is_line_terminator d)
  | CDigit => is_digit d
  | CSpace => is_space d
  | CWord => is_word d
  | COneOf cs => chr_in ci d cs
  | CNoneOf cs => negb (chr_in ci d cs)
  end.

Definition is_word_opt (o : option ascii) : bool :=
  match o with Some c => is_word c | None => false end.

Definition first_char (s : string) : option ascii :=
  match s with String c _ => Some c | EmptyString => None end.

(** [rx ci r prev s k]: match [r] at the head of [s], where [prev] is the
    character before it, then continue with [k] on what is left; the first
    success in backtracking order wins.  The result is the text after the
    whole match. *)
Fixpoint rx (ci : bool) (r : regex) (prev : option ascii) (s : string)
    (k : option ascii -> string -> option string) {struct r} : option string :=
  match r with
  | RChr c =>
      match s with
      | String d s' => if chr_eq ci c d then k (Some d) s' else None
      | EmptyString => None
      end
  | RCls cl =>
      match s with
      | String d s' => if cls_mem ci cl d then k (Some d) s' else None
      | EmptyString => None
      end
  | RBound =>
      if xorb (is_word_opt prev) (is_word_opt (first_char s)) then k prev s else None
  | REmpty => k prev s
  | RSeq a b => rx ci a prev s (fun p s' => rx ci b p s' k)
  | RAlt a b =>
      match rx ci a prev s k with
      | Some t => Some t
      | None => rx ci b prev s k
      end
  | RStar a =>
      (fix loop (n : nat) (p : option ascii) (t : string) {struct n} : option string :=
         match n with
         | O => k p t
         | S n' =>
             match rx ci a p t
                     (fun p' t' =>
                        if Nat.ltb (String.length t') (String.length t)
                        then loop n' p' t' else None) with
             | Some u => Some u
             | None => k p t
             end
         end) (S (String.length s)) prev s
  | RNotAhead a =>
      match rx ci a prev s (fun _ t => Some t) with
      | Some _ => None
      | None => k prev s
      end
  end.

(** The leftmost match: its index and its text. *)
Fixpoint rx_search (ci : bool) (r : regex) (prev : option ascii) (s : string)
    (pos : nat) {struct s} : option (nat * string) :=
  match rx ci r prev s (fun _ t => Some t) with
  | Some rest => Some (pos, substring 0 (String.length s - String.length rest) s)
  | None =>
      match s with
      | EmptyString => None
      | String c s' => rx_search ci r (Some c) s' (S pos)
      end
  end.

(** A [RegExp] object: the text between the slashes, the flags, and the
    tree of the text. *)
Record RegExp : Type := mkRegExp {
  source : string;
  ignoreCase : bool;
  global : bool;
  tree : regex
}.

Definition RegExp_exec (re : RegExp) (s : string) : option (nat * string) :=
  rx_search (ignoreCase re) (tree re) None s 0.

(** [re.test(s)] with [lastIndex] at 0.  The sources leave [lastIndex] of a
    [g] pattern at 0 after every use: a failed [test] resets it, and a
    successful one is followed by [s.match(re)], which resets it too. *)
Definition RegExp_test (re : RegExp) (s : string) : bool :=
  match RegExp_exec re s with Some _ => true | None => false end.

(** [s.match(re)?.[0]]: the text of the first match (capture groups are
    not kept: the sources read element 0 only). *)
Definition String_match (s : string) (re : RegExp) : option string :=
  match RegExp_exec re s with Some (_, m) => Some m | None => None end.

Definition RegExp_flags (re : RegExp) : string :=
  (if global re then "g" else "") ++ (if ignoreCase re then "i" else "").

Definition RegExp_toString (re : RegExp) : string :=
  "/" ++ source re ++ "/" ++ RegExp_flags re.

(** [s.includes(t)] and [s.indexOf(t)] *)
Fixpoint String_indexOf_from (t s : string) (pos : nat) {struct s} : option nat :=
  if String.prefix t s then Some pos
  else match s with
       | EmptyString => None
       | String _ s' => String_indexOf_from t s' (S pos)
       end.
Definition String_indexOf (s t : string) : option nat := String_indexOf_from t s 0.
Definition String_includes (s t : string) : bool :=
  match String_indexOf s t with Some _ => true | None => false end.

(** Builders for the trees. *)
Fixpoint lit (s : string) : regex :=
  match s with
  | EmptyString => REmpty
  | String c EmptyString => RChr c
  | String c rest => RSeq (RChr c) (lit rest)
  end.
Fixpoint seqs (rs : list regex) : regex :=
  match rs with
  | [] => REmpty
  | [r] => r
  | r :: rest => RSeq r (seqs rest)
  end.
Fixpoint alts (rs : list regex) : regex :=
  match rs with
  | [] => RNotAhead REmpty
  | [r] => r
  | r :: rest => RAlt r (alts rest)
  end.
Definition words (ws : list string) : regex := alts (map lit ws).
Definition plus (r : regex) : regex := RSeq r (RStar r).
Definition opt (r : regex) : regex := RAlt r REmpty.
Definition wb : regex := RBound.
Definition any_star : regex := RStar (RCls CAny).
(** [\b(w1|w2|...)] and [\b(w1|w2|...)\b] under the [i] flag *)
Definition re_i (src : string) (t : regex) : RegExp := mkRegExp src true false t.
Definition re_g (src : string) (t : regex) : RegExp := mkRegExp src false true t.
Definition re_gi (src : string) (t : regex) : RegExp := mkRegExp src true true t.

(** ** Shared services: clock, logger, Redis *)

(** winston levels used by the sources *)
Inductive LogLevel : Type := Lerror | Lwarn | Linfo | Ldebug.

(** A log line: its level and its message (the structured payload that
    follows the message is not kept). *)
Definition LogLine : Type := (LogLevel * string)%type.

(** The state a component works on: the wall clock (milliseconds since the
    epoch), the state of the UUID generator, the lines logged so far (most
    recent last), the store it was given at construction, and the fields of
    the component itself. *)
Record Ctx (Store Self : Type) : Type := mkCtx {
  clock : Z;
  entropy : nat;
  logger : list LogLine;
  store : Store;
  self : Self
}.
Arguments mkCtx {Store Self}.
Arguments clock {Store Self}.
Arguments entropy {Store Self}.
Arguments logger {Store Self}.
Arguments store {Store Self}.
Arguments self {Store Self}.

Section CtxOps.
Context {Store Self : Type}.
#[local] Abbreviation C := (Ctx Store Self).

Definition set_logger (l : list LogLine) (c : C) : C :=
  mkCtx (clock c) (entropy c) l (store c) (self c).
Definition set_store (st : Store) (c : C) : C :=
  mkCtx (clock c) (entropy c) (logger c) st (self c).
Definition set_self (x : Self) (c : C) : C :=
  mkCtx (clock c) (entropy c) (logger c) (store c) x.
Definition set_entropy (n : nat) (c : C) : C :=
  mkCtx (clock c) n (logger c) (store c) (self c).

(** [this.logger.<level>(msg, ...)] *)
Definition log (lv : LogLevel) (msg : string) : M C unit :=
  modify (fun c => set_logger (logger c ++ [(lv, msg)]) c).

(** [new Date()] and [Date.now()] *)
Definition Date_now : M C Z := gets clock.

Definition modify_self (f : Self -> Self) : M C unit :=
  modify (fun c => set_self (f (self c)) c).

(** [crypto.randomUUID()] *)
Definition fresh_uuid `{Host} : M C string :=
  fun c => (Ok (randomUUID (entropy c)), set_entropy (S (entropy c)) c).

End CtxOps.

(** The Redis server as the sources use it: string keys with an optional
    time of expiry, and lists.  [r_up = false] is a server that cannot be
    reached: every command rejects. *)
Record Redis : Type := mkRedis {
  r_up : bool;
  r_str : gmap string (string * option Z);
  r_list : gmap string (list string)
}.

Definition live (now : Z) (e : string * option Z) : bool :=
  match snd e with
  | Some t => now <? t
  | None => true
  end.

Definition redis_lookup (now : Z) (k : string) (r : Redis) : option string :=
  match r_str r !! k with
  | Some e => if live now e then Some (fst e) else None
  | None => None
  end.

Definition redis_has (now : Z) (k : string) (r : Redis) : bool :=
  match redis_lookup now k r with
  | Some _ => true
  | None => match r_list r !! k with Some _ => true | None => false end
  end.

Section RedisOps.
Context {Self : Type}.
#[local] Abbreviation C := (Ctx Redis Self).

Definition redis_cmd {A} (f : Z -> Redis -> A * Redis) : M C A :=
  fun c =>
    if r_up (store c)
    then let (a, r') := f (clock c) (store c) in (Ok a, set_store r' c)
    else (Throw "redis: connection is closed", c).

(** [redis.get(key)]: [null] is [None] *)
Definition redis_get (k : string) : M C (option string) :=
  redis_cmd (fun now r => (redis_lookup now k r, r)).

(** [redis.setEx(key, seconds, value)] *)
Definition redis_setEx (k : string) (seconds : Z) (v : string) : M C unit :=
  redis_cmd (fun now r =>
    (tt, mkRedis (r_up r) (<[k := (v, Some (now + seconds * 1000))]> (r_str r))
                 (delete k (r_list r)))).

(** [redis.exists(key)]: the number of keys that exist *)
Definition redis_exists (k : string) : M C Z :=
  redis_cmd (fun now r => (if redis_has now k r then 1 else 0, r)).

(** [redis.incr(key)] on a key that holds an integer or does not exist *)
Definition redis_incr `{Host} (k : string) : M C Z :=
  fun c =>
    if r_up (store c) then
      let r := store c in
      let cur := match r_str r !! k with
                 | Some e => if live (clock c) e then Some e else None
                 | None => None
                 end in
      match cur with
      | None =>
          (Ok 1, set_store (mkRedis (r_up r) (<[k := ("1", None)]> (r_str r)) (r_list r)) c)
      | Some (s, ttl) =>
          match parseInt s with
          | Some n =>
              (Ok (n + 1),
               set_store (mkRedis (r_up r) (<[k := (string_of_Z (n + 1), ttl)]> (r_str r))
                                  (r_list r)) c)
          | None => (Throw "ERR value is not an integer or out of range", c)
          end
      end
    else (Throw "redis: connection is closed", c).

(** [redis.expire(key, seconds)] *)
Definition redis_expire (k : string) (seconds : Z) : M C unit :=
  redis_cmd (fun now r =>
    (tt, match redis_lookup now k r with
         | Some v => mkRedis (r_up r) (<[k := (v, Some (now + seconds * 1000))]> (r_str r))
                             (r_list r)
         | None => r
         end)).

(** [redis.lRange(key, 0, -1)] *)
Definition redis_lRange_all (k : string) : M C (list string) :=
  redis_cmd (fun _ r => (default [] (r_list r !! k), r)).

End RedisOps.

(** ** Severity and numbers *)

Inductive Severity : Type := low | medium | high | critical.

Definition severity_name (s : Severity) : string :=
  match s with
  | low => "low" | medium => "medium" | high => "high" | critical => "critical"
  end.

Definition Severity_eqb (a b : Severity) : bool :=
  match a, b with
  | low, low | medium, medium | high, high | critical, critical => true
  | _, _ => false
  end.

(** [Math.min(a, b)] and [Math.max(a, b)] on numbers *)
Definition Math_min (a b : float) : float :=
  if is_nan a then a else if is_nan b then b
  else if PrimFloat.ltb b a then b else a.
Definition Math_max (a b : float) : float :=
  if is_nan a then a else if is_nan b then b
  else if PrimFloat.ltb a b then b else a.

(** [String(v)] where the sources join or concatenate values *)
Section ToString.
Context `{Host}.

Fixpoint js_toString (v : value) : string :=
  match v with
  | VNull => "null"
  | VBool true => "true"
  | VBool false => "false"
  | VInt n => string_of_Z n
  | VFloat x => Number_toString x
  | VStr s => s
  | VDate ms => toISOString ms
  | VArr items =>
      join "," (map (fun x => match x with VNull => "" | _ => js_toString x end) items)
  | VObj _ => "[object Object]"
  end.

End ToString.

(** ** The compliance checker ([class ComplianceChecker]) *)

Module ComplianceChecker.

Record Principle : Type := mkPrinciple {
  weight : float;
  patterns : list RegExp;
  description : string
}.

(** [a.*b.*c] *)
Fixpoint gap (parts : list string) : regex :=
  match parts with
  | [] => REmpty
  | [p] => lit p
  | p :: rest => RSeq (lit p) (RSeq any_star (gap rest))
  end.

(** [/\b(a1|a2|...)/i] *)
Definition bw (src : string) (alternatives : list regex) : RegExp :=
  re_i src (RSeq wb (alts alternatives)).

(** [this.constitutionalPrinciples] as the constructor writes it, in the
    order of its keys *)
Definition defaultPrinciples : list (string * Principle) :=
  [ ("human_dignity", mkPrinciple 1.0
      [ bw "\b(dehumaniz|degrading|humiliat|objectif)"
           [lit "dehumaniz"; lit "degrading"; lit "humiliat"; lit "objectif"];
        bw "\b(treat.*like.*object|reduce.*to.*tool)"
           [gap ["treat"; "like"; "object"]; gap ["reduce"; "to"; "tool"]];
        bw "\b(disposable|worthless|subhuman)"
           [lit "disposable"; lit "worthless"; lit "subhuman"] ]
      "人間の尊厳の保護");
    ("individual_freedom", mkPrinciple 0.9
      [ bw "\b(coerce|force|manipulat|deceive)"
           [lit "coerce"; lit "force"; lit "manipulat"; lit "deceive"];
        bw "\b(restrict.*freedom|control.*thought)"
           [gap ["restrict"; "freedom"]; gap ["control"; "thought"]];
        bw "\b(brainwash|indoctrinat)"
           [lit "brainwash"; lit "indoctrinat"] ]
      "個人の自由の尊重");
    ("equality_fairness", mkPrinciple 0.95
      [ bw "\b(discriminat|bias|prejudice|unfair)"
           [lit "discriminat"; lit "bias"; lit "prejudice"; lit "unfair"];
        bw "\b(racist|sexist|ageist|homophobic)"
           [lit "racist"; lit "sexist"; lit "ageist"; lit "homophobic"];
        bw "\b(superior.*inferior|better.*worse.*race)"
           [gap ["superior"; "inferior"]; gap ["better"; "worse"; "race"]] ]
      "平等性と公平性");
    ("justice_rule_of_law", mkPrinciple 0.9
      [ bw "\b(illegal|unlawful|criminal|illicit)"
           [lit "illegal"; lit "unlawful"; lit "criminal"; lit "illicit"];
        bw "\b(violate.*law|break.*regulation)"
           [gap ["violate"; "law"]; gap ["break"; "regulation"]];
        bw "\b(corruption|bribery|fraud)"
           [lit "corruption"; lit "bribery"; lit "fraud"] ]
      "正義と法の支配");
    ("democratic_participation", mkPrinciple 0.8
      [ bw "\b(suppress.*vote|election.*fraud)"
           [gap ["suppress"; "vote"]; gap ["election"; "fraud"]];
        bw "\b(authoritari|totalitari|dictator)"
           [lit "authoritari"; lit "totalitari"; lit "dictator"];
        bw "\b(silence.*opposition|censor.*dissent)"
           [gap ["silence"; "opposition"]; gap ["censor"; "dissent"]] ]
      "民主的参加");
    ("accountability_transparency", mkPrinciple 0.95
      [ bw "\b(hide.*truth|conceal.*fact|cover.*up)"
           [gap ["hide"; "truth"]; gap ["conceal"; "fact"]; gap ["cover"; "up"]];
        bw "\b(deception|mislead|false.*information)"
           [lit "deception"; lit "mislead"; gap ["false"; "information"]];
        bw "\b(secret.*agenda|hidden.*motive)"
           [gap ["secret"; "agenda"]; gap ["hidden"; "motive"]] ]
      "説明責任と透明性");
    ("beneficence_non_maleficence", mkPrinciple 1.0
      [ bw "\b(harm|hurt|damage|destroy|kill)"
           [lit "harm"; lit "hurt"; lit "damage"; lit "destroy"; lit "kill"];
        bw "\b(violence|attack|assault|abuse)"
           [lit "violence"; lit "attack"; lit "assault"; lit "abuse"];
        bw "\b(poison|weapon|explosive|dangerous)"
           [lit "poison"; lit "weapon"; lit "explosive"; lit "dangerous"] ]
      "善行と無害性");
    ("privacy_protection", mkPrinciple 0.95
      [ bw "\b(steal.*data|breach.*privacy|expose.*personal)"
           [gap ["steal"; "data"]; gap ["breach"; "privacy"]; gap ["expose"; "personal"]];
        bw "\b(surveillance|spy|monitor.*private)"
           [lit "surveillance"; lit "spy"; gap ["monitor"; "private"]];
        bw "\b(identity.*theft|personal.*information.*leak)"
           [gap ["identity"; "theft"]; gap ["personal"; "information"; "leak"]] ]
      "プライバシー保護");
    ("truthfulness_honesty", mkPrinciple 0.9
      [ bw "\b(lie|false|fake|misinformation)"
           [lit "lie"; lit "false"; lit "fake"; lit "misinformation"];
        bw "\b(propaganda|manipulation|deception)"
           [lit "propaganda"; lit "manipulation"; lit "deception"];
        bw "\b(conspiracy.*theory|alternative.*fact)"
           [gap ["conspiracy"; "theory"]; gap ["alternative"; "fact"]] ]
      "真実性と誠実性");
    ("sustainability", mkPrinciple 0.8
      [ bw "\b(environmental.*destruction|pollution)"
           [gap ["environmental"; "destruction"]; lit "pollution"];
        bw "\b(waste.*resource|unsustainable)"
           [gap ["waste"; "resource"]; lit "unsustainable"];
        bw "\b(climate.*denial|ecological.*damage)"
           [gap ["climate"; "denial"]; gap ["ecological"; "damage"]] ]
      "持続可能性") ].

Record Stats : Type := mkStats {
  checks_performed : Z;
  violations_detected : Z;
  compliance_score : float;
  last_updated : Z
}.

(** The fields of a checker *)
Record Checker : Type := mkChecker {
  constitutionalPrinciples : list (string * Principle);
  stats : Stats
}.

Definition set_stats (st : Stats) (k : Checker) : Checker :=
  mkChecker (constitutionalPrinciples k) st.

(** A checker as the constructor leaves it *)
Definition initial (now : Z) : Checker :=
  mkChecker defaultPrinciples (mkStats 0 0 0.0 now).

(** What [checkPrincipleViolation] returns. *)
Record PrincipleCheck : Type := mkCheck {
  violated : bool;
  pc_severity : Severity;
  pc_confidence : float;
  pc_matched_patterns : list (string * string);
  pc_context : list string
}.

(** An element of [result.violations]. *)
Record Violation : Type := mkViolation {
  principle : string;
  v_description : string;
  severity : Severity;
  confidence : float;
  matched_patterns : list (string * string);
  context : list string
}.

Record ComplianceResult : Type := mkResult {
  compliant : bool;
  violations : list Violation;
  score : float;
  principles_checked : list string;
  timestamp : Z;
  metadata : list (string * value)
}.

(** One turn of the loop over [config.patterns]. *)
Definition check_pattern (content : string) (v : PrincipleCheck) (pattern : RegExp)
    : PrincipleCheck :=
  match String_match content pattern with
  | None => v
  | Some m0 =>
      let idx := default 0%nat (String_indexOf content m0) in
      let contextStart := (idx - 50)%nat in
      let contextEnd := Nat.min (String.length content) (idx + String.length m0 + 50) in
      let c1 := (pc_confidence v + 0.3)%float in
      let c2 := if String_includes (source pattern) (String backslash "b")
                then (c1 + 0.2)%float else c1 in
      let c3 := if Nat.ltb 10 (String.length m0) then (c2 + 0.1)%float else c2 in
      mkCheck true (pc_severity v) c3
        (pc_matched_patterns v ++ [(RegExp_toString pattern, m0)])
        (pc_context v ++ [substring contextStart (contextEnd - contextStart) content])
  end.

(** [checkPrincipleViolation(principle, config, content)].  Nothing in its
    body throws here, so its [catch] clause (which logs a warning and
    returns a check that is not violated) is never entered. *)
Definition checkPrincipleViolation (principle : string) (config : Principle)
    (content : string) : PrincipleCheck :=
  let v0 := mkCheck false low 0.0 [] [] in
  let v1 := fold_left (check_pattern content) (patterns config) v0 in
  let conf := Math_min 1.0 (pc_confidence v1) in
  let sev :=
    if PrimFloat.ltb 0.8 conf then critical
    else if PrimFloat.ltb 0.6 conf then high
    else if PrimFloat.ltb 0.4 conf then medium
    else pc_severity v1 in
  let v2 := mkCheck (violated v1) sev conf (pc_matched_patterns v1) (pc_context v1) in
  if (String.eqb principle "human_dignity"
      || String.eqb principle "beneficence_non_maleficence") && violated v2
  then mkCheck (violated v2) critical (Math_max 0.8 (pc_confidence v2))
               (pc_matched_patterns v2) (pc_context v2)
  else v2.

(** One turn of the loop of [checkCompliance] over the principles. *)
Definition check_principle (content : string) (result : ComplianceResult)
    (entry : string * Principle) : ComplianceResult :=
  let (name, config) := entry in
  let violationCheck := checkPrincipleViolation name config content in
  if violated violationCheck then
    mkResult false
      (violations result ++
         [mkViolation name (description config) (pc_severity violationCheck)
            (pc_confidence violationCheck) (pc_matched_patterns violationCheck)
            (pc_context violationCheck)])
      (score result - weight config * pc_confidence violationCheck)%float
      (principles_checked result) (timestamp result) (metadata result)
  else result.


Definition violation_value (v : Violation) : value :=
  VObj [ ("principle", VStr (principle v));
         ("description", VStr (v_description v));
         ("severity", VStr (severity_name (severity v)));
         ("confidence", VFloat (confidence v));
         ("matched_patterns",
          VArr (map (fun pm => VObj [("pattern", VStr (fst pm));
                                     ("matches", VArr [VStr (snd pm)])])
                    (matched_patterns v)));
         ("context", VArr (map VStr (context v))) ].

Definition result_value (r : ComplianceResult) : value :=
  VObj [ ("compliant", VBool (compliant r));
         ("violations", VArr (map violation_value (violations r)));
         ("score", VFloat (score r));
         ("principles_checked", VArr (map VStr (principles_checked r)));
         ("timestamp", VDate (timestamp r));
         ("metadata", VObj (metadata r)) ].

(** [x++] and [(x || 0) + 1] on a counter of a parsed document: exact on
    the integers this class writes, [NaN] on anything else. *)
Definition incr_counter (x : option value) : value :=
  match x with
  | Some (VInt n) => VInt (n + 1)
  | _ => VFloat PrimFloat.nan
  end.
Definition incr_or_one (x : option value) : value :=
  match x with
  | Some (VInt n) => if n =? 0 then VInt 1 else VInt (n + 1)
  | None | Some VNull | Some (VBool false) => VInt 1
  | _ => VFloat PrimFloat.nan
  end.

Section Run.
Context `{Host}.
#[local] Abbreviation C := (Ctx Redis Checker).

(** The body of [violations.forEach] in [recordViolation]. *)
Definition count_principle (stats : list (string * value)) (v : Violation)
    : option (list (string * value)) :=
  match assoc "principle_violations" stats with
  | Some (VObj pv) =>
      Some (assoc_set "principle_violations"
              (VObj (assoc_set (principle v) (incr_or_one (assoc (principle v) pv)) pv))
              stats)
  | _ => None
  end.

Fixpoint count_principles (stats : list (string * value)) (vs : list Violation)
    : option (list (string * value)) :=
  match vs with
  | [] => Some stats
  | v :: rest =>
      match count_principle stats v with
      | Some stats' => count_principles stats' rest
      | None => None
      end
  end.

(** [recordViolation(result)].  The daily document is an object whenever
    this function wrote it; the model throws the [TypeError] of a property
    write on [null] for any other shape. *)
Definition recordViolation (result : ComplianceResult) : M C unit :=
  try_catch
    (let* now := Date_now in
     let key := "compliance:violation:" ++ string_of_Z now in
     let violationData :=
       match result_value result with
       | VObj fs => VObj (fs ++ [("recorded_at", VStr (toISOString now))])%list
       | v => v
       end in
     redis_setEx key 86400 (JSON_stringify violationData) ;;
     let statsKey := "compliance:stats:daily" in
     let* currentStats := redis_get statsKey in
     let* stats :=
       match currentStats with
       | Some s =>
           if String.eqb s "" then
             ret (VObj [("date", VStr (format_date now)); ("total_violations", VInt 0);
                        ("principle_violations", VObj [])])
           else match JSON_parse s with
                | Some v => ret v
                | None => throw "SyntaxError: JSON.parse"
                end
       | None =>
           ret (VObj [("date", VStr (format_date now)); ("total_violations", VInt 0);
                      ("principle_violations", VObj [])])
       end in
     match stats with
     | VObj fs =>
         let fs1 := assoc_set "total_violations" (incr_counter (assoc "total_violations" fs)) fs in
         match count_principles fs1 (violations result) with
         | Some fs2 => redis_setEx statsKey 86400 (JSON_stringify (VObj fs2))
         | None => throw "TypeError: cannot set properties of undefined"
         end
     | _ => throw "TypeError: cannot create property on a value that is not an object"
     end)
    (fun _ => log Lwarn "Violation recording error:").

(** [updateComplianceScore(newScore)] *)
Definition updateComplianceScore (newScore : float) : M C unit :=
  let* now := Date_now in
  modify_self (fun k =>
    set_stats (mkStats (checks_performed (stats k)) (violations_detected (stats k))
                       (0.1 * newScore + (1 - 0.1) * compliance_score (stats k))%float now)
              k).

(** [checkCompliance(data)] *)
Definition checkCompliance (data : value) : M C ComplianceResult :=
  try_catch
    (modify_self (fun k =>
       set_stats (mkStats (checks_performed (stats k) + 1) (violations_detected (stats k))
                          (compliance_score (stats k)) (last_updated (stats k))) k) ;;
     let* now := Date_now in
     let* principles := gets (fun c => constitutionalPrinciples (self c)) in
     let result0 := mkResult true [] 1.0 (map fst principles) now [] in
     let content := match data with VStr s => s | _ => JSON_stringify data end in
     let result1 := fold_left (check_principle content) principles result0 in
     let result :=
       mkResult (compliant result1) (violations result1)
                (Math_max 0 (Math_min 1 (score result1)))
                (principles_checked result1) (timestamp result1) (metadata result1) in
     when (negb (compliant result))
       (modify_self (fun k =>
          set_stats (mkStats (checks_performed (stats k)) (violations_detected (stats k) + 1)
                             (compliance_score (stats k)) (last_updated (stats k))) k) ;;
        recordViolation result) ;;
     updateComplianceScore (score result) ;;
     log Linfo "Compliance check completed:" ;;
     ret result)
    (fun e => log Lerror "Compliance check failed:" ;; throw e).

(** An element of [contents] in [checkEventCompliance], after the filter
    [content.length > 0]. *)
Definition kept_content (v : option value) : list string :=
  match v with
  | Some (VStr s) => if String.eqb s "" then [] else [s]
  | Some (VArr (x :: l)) => [js_toString (VArr (x :: l))]
  | Some (VObj fs) =>
      match assoc "length" fs with
      | Some (VInt n) => if 0 <? n then ["[object Object]"] else []
      | _ => []
      end
  | _ => []
  end.

Definition stringified_if_truthy (v : option value) : list string :=
  match v with
  | Some x => if truthy x then [JSON_stringify x] else []
  | None => []
  end.

Definition or_empty (v : option value) : option value :=
  if truthy_opt v then v else Some (VStr "").

(** [combinedContent] in [checkEventCompliance]: the contents kept by the
    filter, joined. *)
Definition combinedContent (eventData : value) : string :=
  let source := prop eventData "source" in
  let contents : list string :=
    (stringified_if_truthy (prop eventData "data")
     ++ kept_content (or_empty (opt_prop source "userAgent"))
     ++ kept_content (or_empty (opt_prop source "referer"))
     ++ stringified_if_truthy (prop eventData "metadata"))%list in
  join " " contents.

(** [checkEventCompliance(eventData)] *)
Definition checkEventCompliance (eventData : value) : M C ComplianceResult :=
  try_catch
    (let source := prop eventData "source" in
     let* result := checkCompliance (VStr (combinedContent eventData)) in
     ret (mkResult (compliant result) (violations result) (score result)
            (principles_checked result) (timestamp result)
            (fold_left (fun m kv => assoc_set (fst kv) (snd kv) m)
               (fields [ ("event_type", prop eventData "type");
                         ("source_ip", opt_prop source "ip");
                         ("timestamp", prop eventData "timestamp");
                         ("event_id", prop eventData "id") ])
               (metadata result))))
    (fun e => log Lerror "Event compliance check failed:" ;; throw e).

End Run.

End ComplianceChecker.

(** ** Objects under construction

    A function that fills in an object it was handed ([result] in the
    analysers) runs over the state of its component paired with that
    object: what it wrote before a [throw] is still there in the [catch]. *)
Section LocalObject.
Context {S O : Type}.

Definition up {A} (m : M S A) : M (S * O) A :=
  zoom fst (fun s p => (s, snd p)) m.
Definition mutate (f : O -> O) : M (S * O) unit :=
  modify (fun p => (fst p, f (snd p))).
Definition current : M (S * O) O := gets snd.
(** Run [m] on a fresh object and hand the object back. *)
Definition with_object {A} (init : O) (m : M (S * O) A) : M S (A * O) :=
  fun s => match m (s, init) with
           | (Ok a, (s', o)) => (Ok (a, o), s')
           | (Throw e, (s', _)) => (Throw e, s')
           end.

End LocalObject.

(** ** The threat detector ([class ThreatDetector]) *)

Module ThreatDetector.

Record Stats : Type := mkStats {
  threats_analyzed : Z;
  threats_detected : Z;
  false_positives : Z;
  patterns_updated : Z
}.

Record Detector : Type := mkDetector {
  threatPatterns : list (string * list RegExp);
  ipBlacklist : gset string;
  stats : Stats
}.

(** [analysisResult] *)
Record ThreatResult : Type := mkResult {
  isThreat : bool;
  threatTypes : list string;
  severity : Severity;
  confidence : float;
  metadata : list (string * value);
  timestamp : Z;
  constitutional_compliant : bool
}.

Definition set_isThreat (b : bool) (r : ThreatResult) : ThreatResult :=
  mkResult b (threatTypes r) (severity r) (confidence r) (metadata r) (timestamp r)
           (constitutional_compliant r).
Definition push_threatType (t : string) (r : ThreatResult) : ThreatResult :=
  mkResult (isThreat r) (threatTypes r ++ [t]) (severity r) (confidence r) (metadata r)
           (timestamp r) (constitutional_compliant r).
Definition set_severity (s : Severity) (r : ThreatResult) : ThreatResult :=
  mkResult (isThreat r) (threatTypes r) s (confidence r) (metadata r) (timestamp r)
           (constitutional_compliant r).
Definition add_confidence (x : float) (r : ThreatResult) : ThreatResult :=
  mkResult (isThreat r) (threatTypes r) (severity r) (confidence r + x)%float (metadata r)
           (timestamp r) (constitutional_compliant r).
Definition set_confidence (x : float) (r : ThreatResult) : ThreatResult :=
  mkResult (isThreat r) (threatTypes r) (severity r) x (metadata r)
           (timestamp r) (constitutional_compliant r).
Definition set_metadata (k : string) (v : value) (r : ThreatResult) : ThreatResult :=
  mkResult (isThreat r) (threatTypes r) (severity r) (confidence r)
           (assoc_set k v (metadata r)) (timestamp r) (constitutional_compliant r).
Definition set_compliant (b : bool) (r : ThreatResult) : ThreatResult :=
  mkResult (isThreat r) (threatTypes r) (severity r) (confidence r) (metadata r)
           (timestamp r) b.

Definition result_value (r : ThreatResult) : value :=
  VObj [ ("isThreat", VBool (isThreat r));
         ("threatTypes", VArr (map VStr (threatTypes r)));
         ("severity", VStr (severity_name (severity r)));
         ("confidence", VFloat (confidence r));
         ("metadata", VObj (metadata r));
         ("timestamp", VDate (timestamp r));
         ("constitutional_compliant", VBool (constitutional_compliant r)) ].

(** [this.threatPatterns] as the constructor writes it, in the order of its
    keys *)
Definition defaultPatterns : list (string * list RegExp) :=
  [ ("sql_injection",
     [ re_i "(\bunion\b|\bselect\b|\binsert\b|\bdelete\b|\bdrop\b|\bcreate\b|\balter\b|\bexec\b)"
         (alts (map (fun w => seqs [wb; lit w; wb])
                  ["union"; "select"; "insert"; "delete"; "drop"; "create"; "alter"; "exec"]));
       re_i "(\bor\b|\band\b)\s*\d+\s*=\s*\d+"
         (seqs [ alts [seqs [wb; lit "or"; wb]; seqs [wb; lit "and"; wb]];
                 RStar (RCls CSpace); plus (RCls CDigit); RStar (RCls CSpace);
                 RChr "="; RStar (RCls CSpace); plus (RCls CDigit) ]);
       re_i ("[\'\" ++ str1 dquote ++ "];?\s*(union|select|insert|delete)")
         (seqs [ RCls (COneOf (String "'" (str1 dquote))); opt (RChr ";");
                 RStar (RCls CSpace); words ["union"; "select"; "insert"; "delete"] ]) ]);
    ("xss_attack",
     [ re_gi "<script\b[^<]*(?:(?!<\/script>)<[^<]*)*<\/script>"
         (seqs [ lit "<script"; wb; RStar (RCls (CNoneOf "<"));
                 RStar (seqs [ RNotAhead (lit "</script>"); RChr "<";
                               RStar (RCls (CNoneOf "<")) ]);
                 lit "</script>" ]);
       re_i "javascript:" (lit "javascript:");
       re_i "vbscript:" (lit "vbscript:");
       re_gi "on\w+\s*=" (seqs [lit "on"; plus (RCls CWord); RStar (RCls CSpace); RChr "="]);
       re_i "<iframe|<object|<embed" (words ["<iframe"; "<object"; "<embed"]) ]);
    ("csrf_attempt",
     [ re_i "\b(csrf|xsrf)\b.*token"
         (seqs [wb; words ["csrf"; "xsrf"]; wb; any_star; lit "token"]);
       re_i "authenticity_token" (lit "authenticity_token") ]);
    ("directory_traversal",
     [ re_g "\.\.[\/\\]" (seqs [lit ".."; RCls (COneOf (String "/" (str1 backslash)))]);
       re_g "\.\.[\/\\][\/\\]"
         (seqs [ lit ".."; RCls (COneOf (String "/" (str1 backslash)));
                 RCls (COneOf (String "/" (str1 backslash))) ]);
       re_i "\/etc\/passwd" (lit "/etc/passwd");
       re_i "\/windows\/system32" (lit "/windows/system32") ]);
    ("command_injection",
     [ re_g "[;&|`$(){}[\]]" (RCls (COneOf ";&|`$(){}[]"));
       re_i "\b(cat|ls|dir|type|del|rm|mv|cp)\b"
         (seqs [wb; words ["cat"; "ls"; "dir"; "type"; "del"; "rm"; "mv"; "cp"]; wb]);
       re_i "\b(wget|curl|nc|netcat)\b"
         (seqs [wb; words ["wget"; "curl"; "nc"; "netcat"]; wb]) ]);
    ("constitutional_violation",
     [ re_i "\b(illegal|harmful|dangerous|unethical|discriminatory)\b"
         (seqs [wb; words ["illegal"; "harmful"; "dangerous"; "unethical"; "discriminatory"]; wb]);
       re_i "\b(violent|threat|harm|kill|destroy)\b"
         (seqs [wb; words ["violent"; "threat"; "harm"; "kill"; "destroy"]; wb]);
       re_i "\b(fraud|scam|phishing|malware)\b"
         (seqs [wb; words ["fraud"; "scam"; "phishing"; "malware"]; wb]);
       re_i "\b(privacy.*violation|data.*breach)\b"
         (seqs [ wb; alts [ ComplianceChecker.gap ["privacy"; "violation"];
                            ComplianceChecker.gap ["data"; "breach"] ]; wb ]) ]) ].

(** [severityMap[threatType] || 'medium'] in [analyzePatternThreat] *)
Definition severityMap (threatType : string) : Severity :=
  if String.eqb threatType "sql_injection" then critical
  else if String.eqb threatType "xss_attack" then high
  else if String.eqb threatType "command_injection" then critical
  else if String.eqb threatType "constitutional_violation" then high
  else if String.eqb threatType "directory_traversal" then high
  else if String.eqb threatType "csrf_attempt" then medium
  else medium.

(** [getSeverityLevel(severity)] *)
Definition getSeverityLevel (s : Severity) : Z :=
  match s with low => 1 | medium => 2 | high => 3 | critical => 4 end.

Definition adminEndpointPattern : RegExp :=
  re_i "\/(admin|config|debug|internal)"
       (RSeq (RChr "/") (words ["admin"; "config"; "debug"; "internal"])).
Definition vpnPattern : RegExp :=
  re_i "vpn|proxy|hosting" (words ["vpn"; "proxy"; "hosting"]).
Definition botPatterns : list RegExp :=
  [ re_i "bot|crawler|spider|scraper" (words ["bot"; "crawler"; "spider"; "scraper"]);
    re_i "curl|wget|python|java|php" (words ["curl"; "wget"; "python"; "java"; "php"]);
    re_i "automated|script|tool" (words ["automated"; "script"; "tool"]) ].

(** The four tests of [analyzeConstitutionalCompliance], each with the tag
    it pushes. *)
Definition constitutionalChecks : list (RegExp * string) :=
  [ (re_i "\b(dehumaniz|degrading|humiliat)"
       (RSeq wb (words ["dehumaniz"; "degrading"; "humiliat"])),
     "human_dignity_threat");
    (re_i "\b(discriminat|racist|sexist|homophobic)\b"
       (seqs [wb; words ["discriminat"; "racist"; "sexist"; "homophobic"]; wb]),
     "discriminatory_content");
    (re_i "\b(personal.*data|private.*info|breach.*privacy)\b"
       (seqs [ wb; alts [ ComplianceChecker.gap ["personal"; "data"];
                          ComplianceChecker.gap ["private"; "info"];
                          ComplianceChecker.gap ["breach"; "privacy"] ]; wb ]),
     "privacy_violation");
    (re_i "\b(hack|exploit|illegal.*activity|malicious)\b"
       (seqs [ wb; alts [ lit "hack"; lit "exploit";
                          ComplianceChecker.gap ["illegal"; "activity"];
                          lit "malicious" ]; wb ]),
     "harmful_activity_promotion") ].

Definition highRiskCountries : list string := ["CN"; "RU"; "KP"; "IR"].

(** [outdatedVersions[name]] in [isOutdatedBrowser] *)
Definition outdatedVersions (name : string) : option Z :=
  if String.eqb name "Chrome" then Some 90
  else if String.eqb name "Firefox" then Some 80
  else if String.eqb name "Safari" then Some 13
  else if String.eqb name "Edge" then Some 90
  else None.

(** [calculateThreatScore(result)] *)
Definition calculateThreatScore (r0 : ThreatResult) : ThreatResult :=
  let r := set_confidence (Math_min (confidence r0) 1.0) r0 in
  let c := confidence r in
  let r1 :=
    if Severity_eqb (severity r) critical && PrimFloat.leb 0.9 c then set_isThreat true r
    else if Severity_eqb (severity r) high && PrimFloat.leb 0.7 c then set_isThreat true r
    else if Severity_eqb (severity r) medium && PrimFloat.leb 0.5 c then set_isThreat true r
    else if PrimFloat.leb 0.3 c && Nat.ltb 2 (List.length (threatTypes r))
         then set_isThreat true r
    else r in
  if negb (constitutional_compliant r1) then set_isThreat true r1 else r1.

Section Run.
Context `{Host}.
#[local] Abbreviation C := (Ctx Redis Detector).
(** the detector and the [result] being filled in *)
#[local] Abbreviation A := (C * ThreatResult)%type.

(** [v.k] where [v] may be [undefined]: a [TypeError] when it is. *)
Definition member {S} (v : option value) (k : string) : M S (option value) :=
  match v with
  | None | Some VNull => throw "TypeError: cannot read properties of undefined"
  | Some x => ret (prop x k)
  end.

(** [getIPRequestCount(ip)]; [None] is [NaN] *)
Definition getIPRequestCount (ip : value) : M C (option Z) :=
  try_catch
    (let key := "threat:ip_requests:" ++ js_toString ip in
     let* got := redis_get key in
     let count :=
       match got with
       | Some s => if String.eqb s "" then Some 0 else parseInt s
       | None => Some 0
       end in
     redis_setEx key 60
       (match count with Some n => string_of_Z (n + 1) | None => "NaN" end) ;;
     ret count)
    (fun _ => log Lwarn "IP request count error:" ;; ret (Some 0)).

(** [getSuspiciousActivityScore(ip)]; [None] is [NaN] *)
Definition getSuspiciousActivityScore (ip : value) : M C (option float) :=
  try_catch
    (let key := "threat:suspicious_score:" ++ js_toString ip in
     let* got := redis_get key in
     let score :=
       match got with
       | Some s => if String.eqb s "" then "0" else s
       | None => "0"
       end in
     ret (parseFloat score))
    (fun _ => ret (Some 0%float)).

(** [getRecentRequestsByIP(ip, seconds)] *)
Definition getRecentRequestsByIP (ip : value) (seconds : Z) : M C (list string) :=
  try_catch
    (let key := "threat:recent_requests:" ++ js_toString ip in
     let* requests := redis_lRange_all key in
     let* now := Date_now in
     let cutoff := now - seconds * 1000 in
     ret (List.filter (fun ts => match parseInt ts with
                                 | Some n => cutoff <? n
                                 | None => false
                                 end) requests))
    (fun _ => log Lwarn "Recent requests retrieval error:" ;; ret []).

(** [cacheThreatData(eventData, result)] *)
Definition cacheThreatData (eventData : value) (result : ThreatResult) : M C unit :=
  try_catch
    (let* now := Date_now in
     let key := "threat:detected:" ++ string_of_Z now in
     let data := VObj [ ("event", eventData); ("result", result_value result);
                        ("timestamp", VStr (toISOString now)) ] in
     redis_setEx key 86400 (JSON_stringify data))
    (fun _ => log Lwarn "Threat data caching error:").

Definition isAdminEndpoint (endpoint : value) : bool :=
  RegExp_test adminEndpointPattern (js_toString endpoint).

(** [isPotentialVPN(ip, geo)], as a condition *)
Definition isPotentialVPN (geo : value) : bool :=
  match prop geo "org" with
  | Some org => truthy org && RegExp_test vpnPattern (js_toString org)
  | None => false
  end.

Definition isSuspiciousBot (userAgent : value) : bool :=
  existsb (fun pattern => RegExp_test pattern (js_toString userAgent)) botPatterns.

(** The text before the first dot: [s.split('.')[0]] *)
Fixpoint before_dot (s : string) : string :=
  match s with
  | EmptyString => EmptyString
  | String c rest => if Ascii.eqb c "." then EmptyString else String c (before_dot rest)
  end.

(** [isOutdatedBrowser(parsed)], as a condition *)
Definition isOutdatedBrowser (parsed : value) : M A bool :=
  let browser := prop parsed "browser" in
  let* version := member browser "version" in
  if negb (truthy_opt version) then ret false
  else match version with
       | Some (VStr v) =>
           let version := parseInt (before_dot v) in
           match str_of (opt_prop browser "name") with
           | Some name =>
               match outdatedVersions name, version with
               | Some limit, Some n => ret (n <? limit)
               | _, _ => ret false
               end
           | None => ret false
           end
       | _ => throw "TypeError: browser.version.split is not a function"
       end.

(** [isUserAgentSpoofed(userAgent, parsed)] *)
Definition isUserAgentSpoofed (parsed : value) : M A bool :=
  let* os_name := member (prop parsed "os") "name" in
  match os_name with
  | Some (VStr "Windows") =>
      let* browser_name := member (prop parsed "browser") "name" in
      ret (match browser_name with Some (VStr "Safari") => true | _ => false end)
  | _ => ret false
  end.

(** [analyzeIPThreat(eventData, result)] *)
Definition analyzeIPThreat (eventData : value) : M A unit :=
  try_catch
    (match opt_prop (prop eventData "source") "ip" with
     | None => ret tt
     | Some ip =>
         if negb (truthy ip) then ret tt
         else
           let* blacklist := up (gets (fun c => ipBlacklist (self c))) in
           when (match ip with
                 | VStr s => bool_decide (s ∈ blacklist)
                 | _ => false
                 end)
             (mutate (fun r => add_confidence 0.9
                        (set_severity high
                           (push_threatType "blacklisted_ip" (set_isThreat true r))))) ;;
           let* requestCount := up (getIPRequestCount ip) in
           match requestCount with
           | Some n =>
               when (100 <? n)
                 (mutate (fun r => set_metadata "request_count" (VInt n)
                            (add_confidence 0.7
                               (set_severity medium
                                  (push_threatType "rate_limit_exceeded"
                                     (set_isThreat true r))))))
           | None => ret tt
           end ;;
           let* now := up Date_now in
           let hour := getHours now in
           when ((2 <=? hour) && (hour <=? 5))
             (let* suspiciousActivityScore := up (getSuspiciousActivityScore ip) in
              when (match suspiciousActivityScore with
                    | Some x => PrimFloat.ltb 0.5 x
                    | None => false
                    end)
                (mutate (fun r => add_confidence 0.3
                           (push_threatType "suspicious_timing" r))))
     end)
    (fun _ => up (log Lwarn "IP threat analysis error:")).

(** [JSON.stringify(eventData.data)], as the text the patterns are tested
    on (an absent [data] is tested as the text [undefined]). *)
Definition requestString_of (eventData : value) : string :=
  match prop eventData "data" with
  | Some d => JSON_stringify d
  | None => "undefined"
  end.

(** The body of the inner loop of [analyzePatternThreat]. *)
Definition test_pattern (requestString threatType : string) (pattern : RegExp)
    : M A unit :=
  when (RegExp_test pattern requestString)
    (mutate (fun r => push_threatType threatType (set_isThreat true r)) ;;
     let currentSeverity := severityMap threatType in
     mutate (fun r =>
       if getSeverityLevel (severity r) <? getSeverityLevel currentSeverity
       then set_severity currentSeverity r else r) ;;
     mutate (fun r =>
       set_metadata threatType
         (VObj (fields [ ("pattern_matched", Some (VStr (RegExp_toString pattern)));
                         ("matched_content",
                          option_map VStr (String_match requestString pattern)) ]))
         (add_confidence 0.8 r)) ;;
     when (String.eqb threatType "constitutional_violation")
       (mutate (set_compliant false) ;;
        up (log Lerror "Constitutional AI violation detected:"))).

(** [analyzePatternThreat(eventData, result)] *)
Definition analyzePatternThreat (eventData : value) : M A unit :=
  try_catch
    (let requestString := requestString_of eventData in
     let* threatPatterns := up (gets (fun c => threatPatterns (self c))) in
     for_each threatPatterns (fun entry =>
       for_each (snd entry) (test_pattern requestString (fst entry))))
    (fun _ => up (log Lwarn "Pattern threat analysis error:")).

(** [analyzeAnomalousActivity(eventData, result)] *)
Definition analyzeAnomalousActivity (eventData : value) : M A unit :=
  try_catch
    (match opt_prop (prop eventData "source") "ip" with
     | None => ret tt
     | Some ip =>
         if negb (truthy ip) then ret tt
         else
           let* recentRequests := up (getRecentRequestsByIP ip 300) in
           let n := Z.of_nat (List.length recentRequests) in
           when (50 <? n)
             (mutate (fun r => set_metadata "recent_requests" (VInt n)
                        (add_confidence 0.8
                           (set_severity high
                              (push_threatType "ddos_attempt" (set_isThreat true r)))))) ;;
           let endpoint := opt_prop (prop eventData "data") "endpoint" in
           when (match endpoint with
                 | Some e => truthy e && isAdminEndpoint e
                 | None => false
                 end)
             (mutate (fun r => add_confidence 0.5
                        (push_threatType "admin_access_attempt" r))) ;;
           match prop eventData "data" with
           | None => throw "TypeError: cannot read properties of undefined (reading 'length')"
           | Some d =>
               let payloadSize := Z.of_nat (String.length (JSON_stringify d)) in
               when (100000 <? payloadSize)
                 (mutate (fun r => set_metadata "payload_size" (VInt payloadSize)
                            (add_confidence 0.4
                               (push_threatType "oversized_payload" r))))
           end
     end)
    (fun _ => up (log Lwarn "Anomalous activity analysis error:")).

(** [analyzeGeolocation(eventData, result)] *)
Definition analyzeGeolocation (eventData : value) : M A unit :=
  try_catch
    (match opt_prop (prop eventData "source") "ip" with
     | None => ret tt
     | Some ip =>
         if negb (truthy ip) then ret tt
         else
           match geoip_lookup (js_toString ip) with
           | None => ret tt
           | Some geo =>
               mutate (set_metadata "geolocation" geo) ;;
               when (match prop geo "country" with
                     | Some (VStr c) => existsb (String.eqb c) highRiskCountries
                     | _ => false
                     end)
                 (mutate (fun r => add_confidence 0.3
                            (push_threatType "high_risk_country" r))) ;;
               when (isPotentialVPN geo)
                 (mutate (fun r => add_confidence 0.2
                            (push_threatType "vpn_tor_usage" r)))
           end
     end)
    (fun _ => up (log Lwarn "Geolocation analysis error:")).

(** [analyzeUserAgent(eventData, result)] *)
Definition analyzeUserAgent (eventData : value) : M A unit :=
  try_catch
    (match opt_prop (prop eventData "source") "userAgent" with
     | None => ret tt
     | Some userAgent =>
         if negb (truthy userAgent) then ret tt
         else
           let parsed := uaParser_getResult (js_toString userAgent) in
           mutate (set_metadata "user_agent" parsed) ;;
           let* outdated := isOutdatedBrowser parsed in
           when outdated
             (mutate (fun r => add_confidence 0.2
                        (push_threatType "outdated_browser" r))) ;;
           when (isSuspiciousBot userAgent)
             (mutate (fun r => add_confidence 0.6
                        (push_threatType "suspicious_bot" r))) ;;
           let* spoofed := isUserAgentSpoofed parsed in
           when spoofed
             (mutate (fun r => add_confidence 0.5
                        (push_threatType "user_agent_spoofing" r)))
     end)
    (fun _ => up (log Lwarn "User Agent analysis error:")).

(** [analyzeConstitutionalCompliance(eventData, result)] *)
Definition analyzeConstitutionalCompliance (eventData : value) : M A unit :=
  try_catch
    (let content := requestString_of eventData in
     let violations :=
       omap (fun check => if RegExp_test (fst check) content
                          then Some (snd check) else None)
            constitutionalChecks in
     when (Nat.ltb 0 (List.length violations))
       (mutate (fun r =>
          set_metadata "constitutional_violations" (VArr (map VStr violations))
            (add_confidence 0.9
               (set_severity high
                  (push_threatType "constitutional_violation"
                     (set_isThreat true (set_compliant false r)))))) ;;
        up (log Lerror "Constitutional AI violations detected:")))
    (fun _ => up (log Lwarn "Constitutional compliance analysis error:")).

Definition bump_analyzed (d : Detector) : Detector :=
  mkDetector (threatPatterns d) (ipBlacklist d)
    (mkStats (threats_analyzed (stats d) + 1) (threats_detected (stats d))
             (false_positives (stats d)) (patterns_updated (stats d))).
Definition bump_detected (d : Detector) : Detector :=
  mkDetector (threatPatterns d) (ipBlacklist d)
    (mkStats (threats_analyzed (stats d)) (threats_detected (stats d) + 1)
             (false_positives (stats d)) (patterns_updated (stats d))).

(** The seven steps of [analyzeThreat] on [analysisResult]. *)
Definition analysis (eventData : value) : M A unit :=
  analyzeIPThreat eventData ;;
  analyzePatternThreat eventData ;;
  analyzeAnomalousActivity eventData ;;
  analyzeGeolocation eventData ;;
  analyzeUserAgent eventData ;;
  analyzeConstitutionalCompliance eventData ;;
  mutate calculateThreatScore.

(** [analyzeThreat(eventData)] *)
Definition analyzeThreat (eventData : value) : M C ThreatResult :=
  try_catch
    (modify_self bump_analyzed ;;
     let* now := Date_now in
     let* done := with_object (mkResult false [] low 0.0 [] now true) (analysis eventData) in
     let analysisResult := snd done in
     when (isThreat analysisResult)
       (modify_self bump_detected ;;
        cacheThreatData eventData analysisResult ;;
        log Lwarn "Threat detected:") ;;
     ret analysisResult)
    (fun e => log Lerror "Threat analysis failed:" ;; throw e).

(** [loadIPBlacklist()], as [init] runs it on a fresh detector *)
Definition knownBadIPs : list string := ["192.168.1.100"; "10.0.0.1"].
Definition initial : Detector :=
  mkDetector defaultPatterns (list_to_set knownBadIPs) (mkStats 0 0 0 1).

End Run.

End ThreatDetector.

(** ** The alert manager ([class AlertManager]) *)

Module AlertManager.

Inductive AlertType : Type := threat | compliance | system.

Definition type_name (t : AlertType) : string :=
  match t with threat => "threat" | compliance => "compliance" | system => "system" end.

Inductive Channel : Type := email | webhook | log_channel | audit.

Definition channel_name (ch : Channel) : string :=
  match ch with
  | email => "email" | webhook => "webhook" | log_channel => "log" | audit => "audit"
  end.

Record Config : Type := mkConfig {
  enabled : bool;
  cooldown : Z;
  escalation_levels : list Severity;
  channels : list Channel
}.

(** [this.alertConfig] *)
Definition alertConfig (t : AlertType) : Config :=
  match t with
  | threat => mkConfig true 300 [low; medium; high; critical] [email; webhook; log_channel]
  | compliance =>
      mkConfig true 600 [medium; high; critical] [email; webhook; log_channel; audit]
  | system => mkConfig true 900 [low; medium; high] [email; log_channel]
  end.

Record Stats : Type := mkStats {
  alerts_sent : Z;
  emails_sent : Z;
  webhooks_sent : Z;
  failed_deliveries : Z;
  last_alert : option Z
}.

(** The fields of the manager, and the two transports it talks to: whether
    a send succeeds now, and what was delivered so far. *)
Record Manager : Type := mkManager {
  webhookUrl : option string;
  emailAddress : option string;
  mailTransporter : bool;
  stats : Stats;
  mail_up : bool;
  webhook_up : bool;
  mail_delivered : list value;
  webhook_delivered : list value
}.

Definition set_stats (st : Stats) (m : Manager) : Manager :=
  mkManager (webhookUrl m) (emailAddress m) (mailTransporter m) st (mail_up m)
            (webhook_up m) (mail_delivered m) (webhook_delivered m).

(** [mapSeverityToLevel(severity)] *)
Definition mapSeverityToLevel (s : Severity) : Severity := s.

(** [mapComplianceToLevel(complianceResult)] *)
Definition mapComplianceToLevel (r : ComplianceChecker.ComplianceResult) : Severity :=
  let s := ComplianceChecker.score r in
  if PrimFloat.ltb s 0.5 then critical
  else if PrimFloat.ltb s 0.7 then high
  else if PrimFloat.ltb s 0.9 then medium
  else low.

(** [getRecommendedActions('threat', threatResult)] *)
Definition threatActions (r : ThreatDetector.ThreatResult) : list string :=
  ["IPアドレスのブロックを検討"]
  ++ (if existsb (String.eqb "sql_injection") (ThreatDetector.threatTypes r)
      then ["データベースアクセス権限の確認"] else [])
  ++ (if existsb (String.eqb "constitutional_violation") (ThreatDetector.threatTypes r)
      then ["Constitutional AI準拠の即座確認"] else []).

(** [getRecommendedActions('compliance', complianceResult)] *)
Definition complianceActions (r : ComplianceChecker.ComplianceResult) : list string :=
  ["Constitutional AI準拠状態の確認"; "違反内容の詳細分析"]
  ++ (if PrimFloat.ltb (ComplianceChecker.score r) 0.5
      then ["システム停止の検討"] else []).

(** [getRecommendedActions('system', { status })] *)
Definition systemActions (status : string) : list string :=
  ["システム状態の確認"]
  ++ (if String.eqb status "error" then ["ログの詳細確認"] else []).

Section Run.
Context `{Host}.
#[local] Abbreviation C := (Ctx Redis Manager).

(** The key of a cooldown marker.  [identifier] is the second argument of
    [isInCooldown] and [setCooldown]: when it is [undefined] the default
    ['general'] is used. *)
Definition cooldown_key (alertType : AlertType) (identifier : option value) : string :=
  "alert:cooldown:" ++ type_name alertType ++ ":"
  ++ match identifier with Some v => js_toString v | None => "general" end.

(** [isInCooldown(alertType, identifier = 'general')] *)
Definition isInCooldown (alertType : AlertType) (identifier : option value) : M C bool :=
  try_catch
    (let* n := redis_exists (cooldown_key alertType identifier) in
     ret (n =? 1))
    (fun _ => ret false).

(** [setCooldown(alertType, identifier = 'general')] *)
Definition setCooldown (alertType : AlertType) (identifier : option value) : M C unit :=
  try_catch
    (let ttl := if cooldown (alertConfig alertType) =? 0 then 300
                else cooldown (alertConfig alertType) in
     redis_setEx (cooldown_key alertType identifier) ttl "1")
    (fun _ => log Lwarn "Cooldown setting failed:").

Definition level_of (alertData : value) : string :=
  match prop alertData "level" with Some (VStr s) => s | _ => "" end.

(** [sendEmailAlert(alertData)].  The subject and the HTML body rendered
    from [alertData] are not kept: the delivery is recorded by its
    [alertData]. *)
Definition sendEmailAlert (alertData : value) : M C unit :=
  let* m := gets self in
  if negb (mailTransporter m) || negb (match emailAddress m with
                                       | Some a => negb (String.eqb a "")
                                       | None => false
                                       end)
  then throw "Email configuration not available"
  else if negb (mail_up m) then throw "sendMail: connection refused"
  else
    modify_self (fun m =>
      set_stats (mkStats (alerts_sent (stats m)) (emails_sent (stats m) + 1)
                         (webhooks_sent (stats m)) (failed_deliveries (stats m))
                         (last_alert (stats m)))
        (mkManager (webhookUrl m) (emailAddress m) (mailTransporter m) (stats m)
                   (mail_up m) (webhook_up m) (mail_delivered m ++ [alertData])
                   (webhook_delivered m))) ;;
    log Ldebug "Email alert sent successfully".

(** [sendWebhookAlert(alertData)] *)
Definition sendWebhookAlert (alertData : value) : M C unit :=
  let* m := gets self in
  match webhookUrl m with
  | None => throw "Webhook URL not configured"
  | Some url =>
      if String.eqb url "" then throw "Webhook URL not configured"
      else if negb (webhook_up m) then throw "axios: request failed"
      else
        let payload :=
          match alertData with
          | VObj fs =>
              VObj (assoc_set "environment" (VStr "production")
                      (assoc_set "service" (VStr "ShinAI Security Monitoring") fs))
          | v => v
          end in
        modify_self (fun m =>
          set_stats (mkStats (alerts_sent (stats m)) (emails_sent (stats m))
                             (webhooks_sent (stats m) + 1) (failed_deliveries (stats m))
                             (last_alert (stats m)))
            (mkManager (webhookUrl m) (emailAddress m) (mailTransporter m) (stats m)
                       (mail_up m) (webhook_up m) (mail_delivered m)
                       (webhook_delivered m ++ [payload]))) ;;
        log Ldebug "Webhook alert sent successfully"
  end.

(** [sendLogAlert(alertData)] *)
Definition sendLogAlert (alertData : value) : M C unit :=
  log (if String.eqb (level_of alertData) "critical" then Lerror else Lwarn)
      "SECURITY ALERT:".

(** [sendAuditAlert(alertData)] *)
Definition sendAuditAlert (alertData : value) : M C unit :=
  let* now := Date_now in
  let auditKey :=
    "audit:alert:" ++ match prop alertData "id" with
                      | Some v => js_toString v
                      | None => "undefined"
                      end in
  let auditData :=
    match alertData with
    | VObj fs =>
        VObj (assoc_set "source_system" (VStr "shinai-security-monitoring")
                (assoc_set "audit_timestamp" (VStr (toISOString now)) fs))
    | v => v
    end in
  redis_setEx auditKey 2592000 (JSON_stringify auditData) ;;
  log Linfo "Audit alert recorded".

Definition send_on (ch : Channel) (alertData : value) : M C unit :=
  match ch with
  | email => sendEmailAlert alertData
  | webhook => sendWebhookAlert alertData
  | log_channel => sendLogAlert alertData
  | audit => sendAuditAlert alertData
  end.

(** One promise of [executeAlert], settled: [true] when it was rejected. *)
Definition settle (ch : Channel) (alertData : value) : M C bool :=
  try_catch (send_on ch alertData ;; ret false) (fun _ => ret true).

Fixpoint settle_all (chs : list Channel) (alertData : value) : M C (list (Channel * bool)) :=
  match chs with
  | [] => ret []
  | ch :: rest =>
      let* rejected := settle ch alertData in
      let* others := settle_all rest alertData in
      ret ((ch, rejected) :: others)
  end.

(** [executeAlert(alertType, alertData)]: the sends of the channels, one
    after the other in the order of the configuration, then one warning for
    each send that was rejected. *)
Definition executeAlert (alertType : AlertType) (alertData : value) : M C unit :=
  let config := alertConfig alertType in
  let* results := settle_all (channels config) alertData in
  for_each results (fun result =>
    when (snd result) (log Lwarn "Alert delivery failed for channel")).

Definition bump_sent (now : option Z) (m : Manager) : Manager :=
  set_stats (mkStats (alerts_sent (stats m) + 1) (emails_sent (stats m))
                     (webhooks_sent (stats m)) (failed_deliveries (stats m))
                     (match now with Some t => Some t | None => last_alert (stats m) end)) m.
Definition bump_failed (m : Manager) : Manager :=
  set_stats (mkStats (alerts_sent (stats m)) (emails_sent (stats m))
                     (webhooks_sent (stats m)) (failed_deliveries (stats m) + 1)
                     (last_alert (stats m))) m.

(** [sendThreatAlert(threatResult)] *)
Definition sendThreatAlert (threatResult : ThreatDetector.ThreatResult) : M C unit :=
  try_catch
    (let alertType := threat in
     let alertLevel := mapSeverityToLevel (ThreatDetector.severity threatResult) in
     let source_ip := assoc "source_ip" (ThreatDetector.metadata threatResult) in
     let* cooling := isInCooldown alertType source_ip in
     if cooling then log Ldebug "Threat alert in cooldown period, skipping"
     else
       let* id := fresh_uuid in
       let* now := Date_now in
       let alertData :=
         VObj (fields
           [ ("id", Some (VStr id));
             ("type", Some (VStr (type_name alertType)));
             ("level", Some (VStr (severity_name alertLevel)));
             ("severity", Some (VStr (severity_name (ThreatDetector.severity threatResult))));
             ("timestamp", Some (VStr (toISOString now)));
             ("threat_types", Some (VArr (map VStr (ThreatDetector.threatTypes threatResult))));
             ("confidence", Some (VFloat (ThreatDetector.confidence threatResult)));
             ("source", Some (VObj (fields
                [ ("ip", source_ip);
                  ("geolocation", assoc "geolocation" (ThreatDetector.metadata threatResult));
                  ("user_agent", assoc "user_agent" (ThreatDetector.metadata threatResult)) ])));
             ("constitutional_compliant",
              Some (VBool (ThreatDetector.constitutional_compliant threatResult)));
             ("metadata", Some (VObj (ThreatDetector.metadata threatResult)));
             ("recommended_actions", Some (VArr (map VStr (threatActions threatResult)))) ]) in
       executeAlert alertType alertData ;;
       setCooldown alertType source_ip ;;
       let* now' := Date_now in
       modify_self (bump_sent (Some now')) ;;
       log Linfo "Threat alert sent successfully:")
    (fun e =>
       modify_self bump_failed ;;
       log Lerror "Threat alert sending failed:" ;;
       throw e).

(** [v.context?.slice(0, 200)] on the array of contexts *)
Definition violation_summary (v : ComplianceChecker.Violation) : value :=
  VObj [ ("principle", VStr (ComplianceChecker.principle v));
         ("description", VStr (ComplianceChecker.v_description v));
         ("severity", VStr (severity_name (ComplianceChecker.severity v)));
         ("confidence", VFloat (ComplianceChecker.confidence v));
         ("context", VArr (map VStr (firstn 200 (ComplianceChecker.context v)))) ].

(** [sendComplianceAlert(complianceResult)] *)
Definition sendComplianceAlert (complianceResult : ComplianceChecker.ComplianceResult)
    : M C unit :=
  try_catch
    (let alertType := compliance in
     let alertLevel := mapComplianceToLevel complianceResult in
     let isCriticalViolation :=
       existsb (fun v => Severity_eqb (ComplianceChecker.severity v) critical)
               (ComplianceChecker.violations complianceResult) in
     let* cooling :=
       if isCriticalViolation then ret false else isInCooldown alertType None in
     if cooling then log Ldebug "Compliance alert in cooldown period, skipping"
     else
       let* id := fresh_uuid in
       let* now := Date_now in
       let alertData :=
         VObj ([ ("id", VStr id);
                 ("type", VStr (type_name alertType));
                 ("level", VStr (severity_name alertLevel));
                 ("timestamp", VStr (toISOString now));
                 ("compliance_score", VFloat (ComplianceChecker.score complianceResult));
                 ("violations",
                  VArr (map violation_summary
                          (ComplianceChecker.violations complianceResult)));
                 ("principles_checked",
                  VArr (map VStr (ComplianceChecker.principles_checked complianceResult)));
                 ("metadata", VObj (ComplianceChecker.metadata complianceResult));
                 ("recommended_actions",
                  VArr (map VStr (complianceActions complianceResult))) ]
               ++ (if negb (ComplianceChecker.compliant complianceResult)
                   then [ ("priority", VStr "high");
                          ("requires_immediate_attention", VBool true) ]
                   else [])) in
       executeAlert alertType alertData ;;
       when (negb isCriticalViolation) (setCooldown alertType None) ;;
       let* now' := Date_now in
       modify_self (bump_sent (Some now')) ;;
       log Lerror "Constitutional AI compliance violation alert sent:")
    (fun e =>
       modify_self bump_failed ;;
       log Lerror "Compliance alert sending failed:" ;;
       throw e).

(** [sendSystemAlert(systemStatus, message)].  The [system_info] read from
    [process] is not kept. *)
Definition sendSystemAlert (systemStatus message : string) : M C unit :=
  try_catch
    (let alertType := system in
     let alertLevel := if String.eqb systemStatus "error" then high else medium in
     let* cooling := isInCooldown alertType None in
     if cooling then ret tt
     else
       let* id := fresh_uuid in
       let* now := Date_now in
       let alertData :=
         VObj [ ("id", VStr id);
                ("type", VStr (type_name alertType));
                ("level", VStr (severity_name alertLevel));
                ("timestamp", VStr (toISOString now));
                ("status", VStr systemStatus);
                ("message", VStr message);
                ("recommended_actions", VArr (map VStr (systemActions systemStatus))) ] in
       executeAlert alertType alertData ;;
       setCooldown alertType None ;;
       modify_self (bump_sent None) ;;
       log Linfo "System alert sent:")
    (fun _ =>
       modify_self bump_failed ;;
       log Lerror "System alert sending failed:").

End Run.

End AlertManager.

(** ** The audit logger ([class AuditLogger]) *)

Module AuditLogger.

(** What [checkConstitutionalCompliance] returns. *)
Record Compliance : Type := mkCompliance {
  compliant : bool;
  violations : list (string * option string);
  score : float;
  checked_at : option Z;
  error : option string
}.

(** [auditEntry] *)
Record AuditEntry : Type := mkEntry {
  id : string;
  timestamp : Z;
  event_type : string;
  event_data : value;
  metadata : list (string * value);
  constitutional_compliance : Compliance;
  severity : Severity;
  hash : option string;
  encrypted : bool
}.

(** A document of [constitutional_violations]. *)
Record ViolationEntry : Type := mkViolationEntry {
  audit_log_id : string;
  ve_timestamp : Z;
  ve_event_type : string;
  ve_violations : list (string * option string);
  compliance_score : float;
  ve_severity : Severity;
  ve_metadata : list (string * value);
  requires_immediate_attention : bool;
  investigation_status : string;
  created_at : Z
}.

(** A document of [audit_integrity]: the fields of the daily report and the
    fields of the running checksum, each present or not. *)
Record IntegrityDoc : Type := mkIntegrityDoc {
  total_logs : option Z;
  valid_logs : option Z;
  invalid_logs : option Z;
  integrity_score : option float;
  report_checked_at : option Z;
  daily_checksum : option string;
  last_updated : option Z;
  log_count : option Z
}.

(** The MongoDB connection given to the logger: [readyState], whether a
    command sent to the server succeeds now, and the three collections
    ([audit_integrity] by its [date]). *)
Record Mongo : Type := mkMongo {
  readyState : Z;
  reachable : bool;
  security_audit_logs : list AuditEntry;
  constitutional_violations : list ViolationEntry;
  audit_integrity : gmap string IntegrityDoc
}.

Record Config : Type := mkConfig {
  log_retention_days : Z;
  encryption_enabled : bool;
  integrity_checks : bool;
  batch_size : Z;
  flush_interval : Z
}.

(** [this.auditConfig] *)
Definition auditConfig : Config := mkConfig 90 true true 100 5000.

(** [this.stats].  The constructor does not create
    [constitutional_violations]: it is [undefined], and [NaN] once
    incremented; [None] stands for both. *)
Record Stats : Type := mkStats {
  logs_written : Z;
  logs_encrypted : Z;
  integrity_violations : Z;
  last_flush : option Z;
  total_size_bytes : Z;
  stat_constitutional_violations : option Z
}.

Record Logger : Type := mkLogger {
  config : Config;
  logBuffer : list AuditEntry;
  encryptionKey : string;
  env_NODE_ID : option string;
  stats : Stats
}.

Definition set_buffer (b : list AuditEntry) (l : Logger) : Logger :=
  mkLogger (config l) b (encryptionKey l) (env_NODE_ID l) (stats l).
Definition set_stats (st : Stats) (l : Logger) : Logger :=
  mkLogger (config l) (logBuffer l) (encryptionKey l) (env_NODE_ID l) st.

Definition set_hash (h : option string) (e : AuditEntry) : AuditEntry :=
  mkEntry (id e) (timestamp e) (event_type e) (event_data e) (metadata e)
          (constitutional_compliance e) (severity e) h (encrypted e).
Definition set_event_data (d : value) (enc : bool) (e : AuditEntry) : AuditEntry :=
  mkEntry (id e) (timestamp e) (event_type e) d (metadata e)
          (constitutional_compliance e) (severity e) (hash e) enc.

(** [harmfulPatterns] of [checkConstitutionalCompliance]: the four patterns
    of the detector's [constitutional_violation] entry. *)
Definition harmfulPatterns : list RegExp :=
  default [] (assoc "constitutional_violation" ThreatDetector.defaultPatterns).

(** [severityMap[eventType] || 'medium'] in [determineSeverity] *)
Definition severityMap (eventType : string) : Severity :=
  if String.eqb eventType "threat_detected" then high
  else if String.eqb eventType "constitutional_violation" then critical
  else if String.eqb eventType "authentication_failure" then medium
  else if String.eqb eventType "system_error" then medium
  else if String.eqb eventType "security_scan" then low
  else if String.eqb eventType "login_success" then low
  else if String.eqb eventType "data_access" then medium
  else if String.eqb eventType "admin_action" then high
  else if String.eqb eventType "daily_report" then low
  else medium.

(** [v > 0] on a number or a boolean (a value of another type, which
    JavaScript would convert first, compares as [false] here). *)
Definition positive (v : option value) : bool :=
  match v with
  | Some (VInt n) => 0 <? n
  | Some (VFloat x) => PrimFloat.ltb 0 x
  | Some (VBool b) => b
  | _ => false
  end.

Definition is_str (s : string) (v : option value) : bool :=
  match v with Some (VStr t) => String.eqb s t | _ => false end.

(** [determineSeverity(eventType, eventData)] *)
Definition determineSeverity (eventType : string) (eventData : value) : Severity :=
  let baseSeverity := severityMap eventType in
  if truthy eventData && typeof_object eventData then
    let s1 :=
      if positive (prop eventData "constitutional_violations")
         || match prop eventData "constitutional_compliant" with
            | Some (VBool false) => true
            | _ => false
            end
      then critical else baseSeverity in
    if is_str "critical" (prop eventData "severity")
       || is_str "critical" (prop eventData "threat_level")
    then critical else s1
  else baseSeverity.

Definition compliance_value (c : Compliance) : value :=
  VObj (fields
    [ ("compliant", Some (VBool (compliant c)));
      ("violations",
       Some (VArr (map (fun v => VObj (fields [ ("pattern", Some (VStr (fst v)));
                                                ("matched", option_map VStr (snd v)) ]))
                       (violations c))));
      ("score", Some (VFloat (score c)));
      ("checked_at", option_map VDate (checked_at c));
      ("error", option_map VStr (error c)) ]).

Definition entry_value (e : AuditEntry) : value :=
  VObj [ ("id", VStr (id e));
         ("timestamp", VDate (timestamp e));
         ("event_type", VStr (event_type e));
         ("event_data", event_data e);
         ("metadata", VObj (metadata e));
         ("constitutional_compliance", compliance_value (constitutional_compliance e));
         ("severity", VStr (severity_name (severity e)));
         ("hash", match hash e with Some h => VStr h | None => VNull end);
         ("encrypted", VBool (encrypted e)) ].

(** [Number(n)] of a count *)
Definition float_of_Z (n : Z) : float := PrimFloat.of_uint63 (Uint63.of_Z n).

Section Run.
Context `{Host}.
#[local] Abbreviation C := (Ctx Mongo Logger).

(** A command on a collection: [this.mongodb.db.collection(name)] is there
    only on an open connection, and the server must answer. *)
Definition mongo_cmd {A} (f : Mongo -> A * Mongo) : M C A :=
  fun c =>
    if negb (readyState (store c) =? 1)
    then (Throw "TypeError: cannot read properties of undefined (reading 'collection')", c)
    else if negb (reachable (store c))
    then (Throw "MongoNetworkError: connection closed", c)
    else let (a, m') := f (store c) in (Ok a, set_store m' c).

(** One turn of the loop of [checkConstitutionalCompliance]. *)
Definition check_harmful (dataString : string) (c : Compliance) (pattern : RegExp)
    : Compliance :=
  if RegExp_test pattern dataString then
    mkCompliance false
      (violations c ++ [(RegExp_toString pattern, String_match dataString pattern)])
      (score c - 0.2)%float (checked_at c) (error c)
  else c.

(** [checkConstitutionalCompliance(eventData)].  Nothing in its body
    throws here, so its [catch] clause is never entered. *)
Definition checkConstitutionalCompliance (eventData : value) : M C Compliance :=
  let* now := Date_now in
  let compliance := mkCompliance true [] 1.0 (Some now) None in
  let dataString := JSON_stringify eventData in
  let c1 := fold_left (check_harmful dataString) harmfulPatterns compliance in
  ret (mkCompliance (compliant c1) (violations c1) (Math_max 0 (score c1))
                    (checked_at c1) (error c1)).

(** [encryptData(data)] *)
Definition encryptData (data : value) : M C value :=
  try_catch
    (let dataString := JSON_stringify data in
     let* key := gets (fun c => encryptionKey (self c)) in
     match cipher_hex key dataString with
     | Some encrypted =>
         ret (VObj [ ("encrypted", VBool true); ("data", VStr encrypted);
                     ("algorithm", VStr "aes-256-cbc") ])
     | None => throw "crypto: cipher failed"
     end)
    (fun _ => log Lwarn "Data encryption error:" ;; ret data).

(** [decryptData(encryptedData)] *)
Definition decryptData (encryptedData : value) : M C value :=
  try_catch
    (let* is_encrypted := ThreatDetector.member (Some encryptedData) "encrypted" in
     if negb (truthy_opt is_encrypted) || negb (truthy_opt (prop encryptedData "data"))
     then ret encryptedData
     else
       let* key := gets (fun c => encryptionKey (self c)) in
       match prop encryptedData "data" with
       | Some (VStr hex) =>
           match decipher_utf8 key hex with
           | Some decrypted =>
               match JSON_parse decrypted with
               | Some v => ret v
               | None => throw "SyntaxError: JSON.parse"
               end
           | None => throw "crypto: decipher failed"
           end
       | _ => throw "TypeError: the data argument must be a string"
       end)
    (fun _ => log Lwarn "Data decryption error:" ;; ret encryptedData).

(** The canonical fields: [hashData] of [calculateEntryHash]. *)
Definition hashData (entry : AuditEntry) : value :=
  VObj [ ("id", VStr (id entry));
         ("timestamp", VStr (toISOString (timestamp entry)));
         ("event_type", VStr (event_type entry));
         ("event_data", event_data entry);
         ("metadata", VObj (metadata entry)) ].

(** [calculateEntryHash(entry)].  The timestamp of an entry is a date here,
    so nothing throws and the [catch] clause (which returns [null]) is
    never entered. *)
Definition calculateEntryHash (entry : AuditEntry) : option string :=
  Some (sha256_hex (JSON_stringify (hashData entry))).

(** [handleConstitutionalViolation(auditEntry)] *)
Definition handleConstitutionalViolation (auditEntry : AuditEntry) : M C unit :=
  try_catch
    (let* now := Date_now in
     let violationEntry :=
       mkViolationEntry (id auditEntry) (timestamp auditEntry) (event_type auditEntry)
         (violations (constitutional_compliance auditEntry))
         (score (constitutional_compliance auditEntry))
         (severity auditEntry) (metadata auditEntry) true "pending" now in
     mongo_cmd (fun m =>
       (tt, mkMongo (readyState m) (reachable m) (security_audit_logs m)
                    (constitutional_violations m ++ [violationEntry])
                    (audit_integrity m))) ;;
     log Lerror "CONSTITUTIONAL AI VIOLATION DETECTED:" ;;
     modify_self (fun l =>
       set_stats (mkStats (logs_written (stats l)) (logs_encrypted (stats l))
                          (integrity_violations (stats l)) (last_flush (stats l))
                          (total_size_bytes (stats l))
                          (option_map (Z.add 1) (stat_constitutional_violations (stats l))))
                 l))
    (fun _ => log Lerror "Constitutional violation handling failed:").

Definition empty_doc : IntegrityDoc :=
  mkIntegrityDoc None None None None None None None None.

(** [updateIntegrityChecksum(logs)] *)
Definition updateIntegrityChecksum (logs : list AuditEntry) : M C unit :=
  try_catch
    (let* now := Date_now in
     let today := format_date now in
     let totalHashes :=
       omap (fun e => match hash e with
                      | Some h => if String.eqb h "" then None else Some h
                      | None => None
                      end) logs in
     if Nat.eqb (List.length totalHashes) 0 then ret tt
     else
       let dailyChecksum := sha256_hex (join "" totalHashes) in
       mongo_cmd (fun m =>
         let old := default empty_doc (audit_integrity m !! today) in
         let doc :=
           mkIntegrityDoc (total_logs old) (valid_logs old) (invalid_logs old)
             (integrity_score old) (report_checked_at old)
             (Some dailyChecksum) (Some now)
             (Some (default 0 (log_count old) + Z.of_nat (List.length totalHashes))) in
         (tt, mkMongo (readyState m) (reachable m) (security_audit_logs m)
                      (constitutional_violations m)
                      (<[today := doc]> (audit_integrity m)))))
    (fun _ => log Lwarn "Integrity checksum update error:").

(** [flushLogBuffer()], where [arrived] are the entries that other calls of
    [logSecurityEvent] push onto [this.logBuffer] while [insertMany] is
    awaited ([flushLogBuffer] itself is the case of none). *)
Definition flushLogBuffer_during (arrived : list AuditEntry) : M C unit :=
  let* buffer := gets (fun c => logBuffer (self c)) in
  if Nat.eqb (List.length buffer) 0 then ret tt
  else
    try_catch
      (let logsToFlush := buffer in
       modify_self (set_buffer []) ;;
       let* ready := gets (fun c => readyState (store c) =? 1) in
       modify_self (fun l => set_buffer (logBuffer l ++ arrived) l) ;;
       when ready
         (mongo_cmd (fun m =>
            (tt, mkMongo (readyState m) (reachable m)
                         (security_audit_logs m ++ logsToFlush)
                         (constitutional_violations m) (audit_integrity m)))) ;;
       updateIntegrityChecksum logsToFlush ;;
       let* now := Date_now in
       modify_self (fun l =>
         set_stats (mkStats (logs_written (stats l)) (logs_encrypted (stats l))
                            (integrity_violations (stats l)) (Some now)
                            (total_size_bytes (stats l))
                            (stat_constitutional_violations (stats l))) l) ;;
       log Ldebug "Flushed audit logs to database")
      (fun e =>
         log Lerror "Log buffer flush failed:" ;;
         modify_self (fun l => set_buffer (logBuffer l ++ logBuffer l) l) ;;
         throw e).

Definition flushLogBuffer : M C unit := flushLogBuffer_during [].

Definition or_null (v : option value) : value :=
  match v with
  | Some x => if truthy x then x else VNull
  | None => VNull
  end.

(** [logSecurityEvent(eventType, eventData, metadata = {})] *)
Definition logSecurityEvent (eventType : string) (eventData : value)
    (metadata : list (string * value)) : M C unit :=
  try_catch
    (let* id := fresh_uuid in
     let* now := Date_now in
     let* logger := gets self in
     let* compliance := checkConstitutionalCompliance eventData in
     let auditEntry :=
       mkEntry id now eventType eventData
         (fold_left (fun m kv => assoc_set (fst kv) (snd kv) m)
            [ ("source_system", VStr "shinai-security-monitoring");
              ("node_id", match env_NODE_ID logger with
                          | Some n => if String.eqb n "" then VStr "primary" else VStr n
                          | None => VStr "primary"
                          end);
              ("session_id", or_null (assoc "session_id" metadata));
              ("user_id", or_null (assoc "user_id" metadata));
              ("source_ip", or_null (assoc "source_ip" metadata));
              ("user_agent", or_null (assoc "user_agent" metadata)) ]
            metadata)
         compliance (determineSeverity eventType eventData) None
         (encryption_enabled (config logger)) in
     let* auditEntry :=
       if encryption_enabled (config logger) then
         let* encrypted := encryptData eventData in
         modify_self (fun l =>
           set_stats (mkStats (logs_written (stats l)) (logs_encrypted (stats l) + 1)
                              (integrity_violations (stats l)) (last_flush (stats l))
                              (total_size_bytes (stats l))
                              (stat_constitutional_violations (stats l))) l) ;;
         ret (set_event_data encrypted true auditEntry)
       else ret auditEntry in
     let auditEntry := set_hash (calculateEntryHash auditEntry) auditEntry in
     modify_self (fun l => set_buffer (logBuffer l ++ [auditEntry]) l) ;;
     modify_self (fun l =>
       set_stats (mkStats (logs_written (stats l) + 1) (logs_encrypted (stats l))
                          (integrity_violations (stats l)) (last_flush (stats l))
                          (total_size_bytes (stats l)
                           + Z.of_nat (String.length (JSON_stringify (entry_value auditEntry))))
                          (stat_constitutional_violations (stats l))) l) ;;
     let* buffer := gets (fun c => logBuffer (self c)) in
     when (batch_size (config logger) <=? Z.of_nat (List.length buffer)) flushLogBuffer ;;
     when (negb (compliant (constitutional_compliance auditEntry)))
       (handleConstitutionalViolation auditEntry) ;;
     log Ldebug "Security event logged:")
    (fun e => log Lerror "Security event logging failed:" ;; throw e).

(** The loop of [performDailyIntegrityCheck] over the logs of the day:
    the counts [(validLogs, invalidLogs)]. *)
Fixpoint verify_logs (logs : list AuditEntry) (counts : Z * Z) : M C (Z * Z) :=
  match logs with
  | [] => ret counts
  | entry :: rest =>
      let expectedHash := calculateEntryHash entry in
      if bool_decide (expectedHash = hash entry)
      then verify_logs rest (fst counts + 1, snd counts)
      else
        log Lerror "Integrity violation detected:" ;;
        verify_logs rest (fst counts, snd counts + 1)
  end.

(** The filter of the query of [performDailyIntegrityCheck]; a bound that
    is not a date matches nothing. *)
Definition in_day (lo hi : option Z) (entry : AuditEntry) : bool :=
  match lo, hi with
  | Some a, Some b => (a <=? timestamp entry) && (timestamp entry <? b)
  | _, _ => false
  end.

(** [performDailyIntegrityCheck()]; the day before is taken as 24 hours
    before now. *)
Definition performDailyIntegrityCheck : M C unit :=
  try_catch
    (let* now := Date_now in
     let yesterday := format_date (now - 86400000) in
     let* logs :=
       mongo_cmd (fun m =>
         (List.filter (in_day (Date_parse (yesterday ++ "T00:00:00.000Z"))
                              (Date_parse (yesterday ++ "T23:59:59.999Z")))
                      (security_audit_logs m), m)) in
     let* counts := verify_logs logs (0, 0) in
     let validLogs := fst counts in
     let invalidLogs := snd counts in
     let total := Z.of_nat (List.length logs) in
     let* checked := Date_now in
     let integrityReport :=
       mkIntegrityDoc (Some total) (Some validLogs) (Some invalidLogs)
         (Some (if 0 <? total
                then (float_of_Z validLogs / float_of_Z total * 100)%float
                else 100%float))
         (Some checked) None None None in
     mongo_cmd (fun m =>
       (tt, mkMongo (readyState m) (reachable m) (security_audit_logs m)
                    (constitutional_violations m)
                    (<[yesterday := integrityReport]> (audit_integrity m)))) ;;
     when (0 <? invalidLogs)
       (modify_self (fun l =>
          set_stats (mkStats (logs_written (stats l)) (logs_encrypted (stats l))
                             (integrity_violations (stats l) + invalidLogs)
                             (last_flush (stats l)) (total_size_bytes (stats l))
                             (stat_constitutional_violations (stats l))) l)) ;;
     log Linfo "Daily integrity check completed:")
    (fun _ => log Lerror "Daily integrity check failed:").

(** [criteria] of [searchLogs]; the two dates count when both are given. *)
Record Criteria : Type := mkCriteria {
  c_event_type : option string;
  c_start_date : option Z;
  c_end_date : option Z;
  c_source_ip : option string;
  c_user_id : option string;
  c_severity : option string
}.

Definition given (o : option string) : option string :=
  match o with
  | Some s => if String.eqb s "" then None else Some s
  | None => None
  end.

(** The query that [searchLogs] builds. *)
Definition matches (criteria : Criteria) (entry : AuditEntry) : bool :=
  match given (c_event_type criteria) with
  | Some t => String.eqb (event_type entry) t
  | None => true
  end
  && match c_start_date criteria, c_end_date criteria with
     | Some a, Some b => (a <=? timestamp entry) && (timestamp entry <=? b)
     | _, _ => true
     end
  && match given (c_source_ip criteria) with
     | Some ip => is_str ip (assoc "source_ip" (metadata entry))
     | None => true
     end
  && match given (c_user_id criteria) with
     | Some u => is_str u (assoc "user_id" (metadata entry))
     | None => true
     end
  && match given (c_severity criteria) with
     | Some s => String.eqb (severity_name (severity entry)) s
     | None => true
     end.

(** [sort({ timestamp: -1 })]: newest first, entries of one instant in the
    order of the collection. *)
Fixpoint insert_newest (e : AuditEntry) (l : list AuditEntry) : list AuditEntry :=
  match l with
  | [] => [e]
  | x :: rest =>
      if timestamp x <=? timestamp e then e :: x :: rest else x :: insert_newest e rest
  end.
Definition newest_first (l : list AuditEntry) : list AuditEntry :=
  fold_right insert_newest [] l.

(** The [map] at the end of [searchLogs]. *)
Fixpoint decrypt_all (results : list AuditEntry) : M C (list AuditEntry) :=
  match results with
  | [] => ret []
  | entry :: rest =>
      let* data :=
        if encrypted entry then decryptData (event_data entry)
        else ret (event_data entry) in
      let* others := decrypt_all rest in
      ret (set_event_data data (encrypted entry) entry :: others)
  end.

(** [searchLogs(criteria)] *)
Definition searchLogs (criteria : Criteria) : M C (list AuditEntry) :=
  try_catch
    (let* results :=
       mongo_cmd (fun m =>
         (firstn 1000 (newest_first (List.filter (matches criteria) (security_audit_logs m))),
          m)) in
     decrypt_all results)
    (fun e => log Lerror "Log search failed:" ;; throw e).

(** A logger as the constructor leaves it *)
Definition initial (key : string) (node_id : option string) : Logger :=
  mkLogger auditConfig [] key node_id (mkStats 0 0 0 None 0 None).

End Run.

End AuditLogger.

(** ** The security monitor: [updateSecurityMetrics] *)

Module SecurityMonitor.

Section Run.
Context `{Host}.
#[local] Abbreviation C := (Ctx Redis unit).

(** [updateSecurityMetrics(eventData)] *)
Definition updateSecurityMetrics (eventData : value) : M C unit :=
  try_catch
    (let eventType :=
       match prop eventData "type" with Some v => js_toString v | None => "undefined" end in
     let* now := Date_now in
     redis_incr "metrics:requests:total" ;;
     redis_incr ("metrics:events:" ++ eventType) ;;
     match opt_prop (prop eventData "source") "ip" with
     | Some ip =>
         if truthy ip then redis_incr ("metrics:ips:" ++ js_toString ip) ;; ret tt
         else ret tt
     | None => ret tt
     end ;;
     let hourKey := "metrics:hourly:" ++ string_of_Z (getHours now) in
     redis_incr hourKey ;;
     redis_expire hourKey 86400)
    (fun _ => log Lwarn "Security metrics update error:").

End Run.

End SecurityMonitor.

(** ** The orchestrator ([class ShinAISecurityMonitoringSystem]) *)

Module App.

(** [this.stats] *)
Record Stats : Type := mkStats {
  threats_detected : Z;
  alerts_sent : Z;
  uptime : Z;
  processed_events : Z;
  constitutional_violations : Z
}.

(** The two stores *)
Record Stores : Type := mkStores {
  redis : Redis;
  mongo : AuditLogger.Mongo
}.

(** The orchestrator's statistics and the objects it creates in
    [setupSecurityMonitoring] *)
Record Components : Type := mkComponents {
  stats : Stats;
  threatDetector : ThreatDetector.Detector;
  complianceChecker : ComplianceChecker.Checker;
  alertManager : AlertManager.Manager;
  auditLogger : AuditLogger.Logger
}.

(** The whole process: one clock, one logger, the stores, the components. *)
Definition World : Type := Ctx Stores Components.

Definition set_redis (r : Redis) (s : Stores) : Stores := mkStores r (mongo s).
Definition set_mongo (m : AuditLogger.Mongo) (s : Stores) : Stores := mkStores (redis s) m.
Definition set_stats (x : Stats) (c : Components) : Components :=
  mkComponents x (threatDetector c) (complianceChecker c) (alertManager c) (auditLogger c).
Definition set_threatDetector (x : ThreatDetector.Detector) (c : Components) : Components :=
  mkComponents (stats c) x (complianceChecker c) (alertManager c) (auditLogger c).
Definition set_complianceChecker (x : ComplianceChecker.Checker) (c : Components)
    : Components :=
  mkComponents (stats c) (threatDetector c) x (alertManager c) (auditLogger c).
Definition set_alertManager (x : AlertManager.Manager) (c : Components) : Components :=
  mkComponents (stats c) (threatDetector c) (complianceChecker c) x (auditLogger c).
Definition set_auditLogger (x : AuditLogger.Logger) (c : Components) : Components :=
  mkComponents (stats c) (threatDetector c) (complianceChecker c) (alertManager c) x.

(** A method of a component, run in the process: the component sees the
    clock, the logger, the store it was constructed with and its own
    fields. *)
Definition within {St Se A : Type}
    (get_store : Stores -> St) (put_store : St -> Stores -> Stores)
    (get_self : Components -> Se) (put_self : Se -> Components -> Components)
    (m : M (Ctx St Se) A) : M World A :=
  zoom (fun w => mkCtx (clock w) (entropy w) (logger w) (get_store (store w)) (get_self (self w)))
       (fun c w => mkCtx (clock c) (entropy c) (logger c) (put_store (store c) (store w))
                         (put_self (self c) (self w)))
       m.

Definition on_threatDetector {A} (m : M (Ctx Redis ThreatDetector.Detector) A) : M World A :=
  within redis set_redis threatDetector set_threatDetector m.
Definition on_complianceChecker {A} (m : M (Ctx Redis ComplianceChecker.Checker) A)
    : M World A :=
  within redis set_redis complianceChecker set_complianceChecker m.
Definition on_alertManager {A} (m : M (Ctx Redis AlertManager.Manager) A) : M World A :=
  within redis set_redis alertManager set_alertManager m.
Definition on_auditLogger {A} (m : M (Ctx AuditLogger.Mongo AuditLogger.Logger) A) : M World A :=
  within mongo set_mongo auditLogger set_auditLogger m.
Definition on_securityMonitor {A} (m : M (Ctx Redis unit) A) : M World A :=
  within redis set_redis (fun _ => tt) (fun _ c => c) m.

(** The methods of the collaborators that [processSecurityEvent] calls.
    The orchestrator holds its collaborators in fields and calls them by
    name: any object with these methods can stand there. *)
Record Collaborators : Type := mkCollaborators {
  analyzeThreat : value -> M World ThreatDetector.ThreatResult;
  sendThreatAlert : ThreatDetector.ThreatResult -> M World unit;
  checkEventCompliance : value -> M World ComplianceChecker.ComplianceResult;
  sendComplianceAlert : ComplianceChecker.ComplianceResult -> M World unit;
  logSecurityEvent : string -> value -> M World unit;
  updateSecurityMetrics : value -> M World unit
}.

(** An HTTP response: its status and its JSON body. *)
Record Response : Type := mkResponse {
  status : Z;
  body : value
}.

Section Run.
Context `{Host}.

(** The collaborators that [setupSecurityMonitoring] creates. *)
Definition production : Collaborators :=
  mkCollaborators
    (fun e => on_threatDetector (ThreatDetector.analyzeThreat e))
    (fun r => on_alertManager (AlertManager.sendThreatAlert r))
    (fun e => on_complianceChecker (ComplianceChecker.checkEventCompliance e))
    (fun r => on_alertManager (AlertManager.sendComplianceAlert r))
    (fun t d => on_auditLogger (AuditLogger.logSecurityEvent t d []))
    (fun e => on_securityMonitor (SecurityMonitor.updateSecurityMetrics e)).

(** [validator.isIP(v)] and [validator.isISO8601(v)]: a [TypeError] on an
    argument that is not a string. *)
Definition isIP (v : value) : M World bool :=
  match v with
  | VStr s => ret (validator_isIP s)
  | _ => throw "TypeError: Expected a string"
  end.
Definition isISO8601 (v : value) : M World bool :=
  match v with
  | VStr s => ret (validator_isISO8601 s)
  | _ => throw "TypeError: Expected a string"
  end.

Definition requiredFields : list string := ["timestamp"; "type"; "source"; "data"].

(** [validateSecurityEvent(eventData)] *)
Definition validateSecurityEvent (eventData : value) : M World bool :=
  if negb (truthy eventData) || negb (typeof_object eventData) then ret false
  else if negb (forallb (fun field => truthy_opt (prop eventData field)) requiredFields)
  then ret false
  else
    let ip := opt_prop (prop eventData "source") "ip" in
    let* bad_ip :=
      match ip with
      | Some v => if truthy v then let* ok := isIP v in ret (negb ok) else ret false
      | None => ret false
      end in
    if bad_ip then ret false
    else
      let* iso :=
        match prop eventData "timestamp" with
        | Some t => isISO8601 t
        | None => throw "TypeError: Expected a string"
        end in
      ret iso.

Definition bump (f : Stats -> Stats) : M World unit :=
  modify_self (fun c => set_stats (f (stats c)) c).

(** [processSecurityEvent(eventData)] *)
Definition processSecurityEvent (sys : Collaborators) (eventData : value) : M World unit :=
  try_catch
    (bump (fun s => mkStats (threats_detected s) (alerts_sent s) (uptime s)
                            (processed_events s + 1) (constitutional_violations s)) ;;
     let* valid := validateSecurityEvent eventData in
     if negb valid then log Lwarn "Invalid security event received:"
     else
       let* threatResult := analyzeThreat sys eventData in
       when (ThreatDetector.isThreat threatResult)
         (bump (fun s => mkStats (threats_detected s + 1) (alerts_sent s) (uptime s)
                                 (processed_events s) (constitutional_violations s)) ;;
          sendThreatAlert sys threatResult ;;
          bump (fun s => mkStats (threats_detected s) (alerts_sent s + 1) (uptime s)
                                 (processed_events s) (constitutional_violations s)) ;;
          let* now := Date_now in
          logSecurityEvent sys "threat_detected"
            (VObj [ ("event", eventData);
                    ("threat", ThreatDetector.result_value threatResult);
                    ("timestamp", VDate now) ])) ;;
       let* complianceResult := checkEventCompliance sys eventData in
       when (negb (ComplianceChecker.compliant complianceResult))
         (bump (fun s => mkStats (threats_detected s) (alerts_sent s) (uptime s)
                                 (processed_events s) (constitutional_violations s + 1)) ;;
          sendComplianceAlert sys complianceResult ;;
          let* now := Date_now in
          logSecurityEvent sys "constitutional_violation"
            (VObj [ ("event", eventData);
                    ("violation", ComplianceChecker.result_value complianceResult);
                    ("timestamp", VDate now) ])) ;;
       updateSecurityMetrics sys eventData)
    (fun e => log Lerror "Security event processing error:" ;; throw e).

(** The handler of [POST /security/event] on the parsed body. *)
Definition post_security_event (sys : Collaborators) (body : value) : M World Response :=
  try_catch
    (processSecurityEvent sys body ;;
     let* now := Date_now in
     ret (mkResponse 200 (VObj [ ("success", VBool true);
                                 ("timestamp", VStr (toISOString now)) ])))
    (fun _ =>
       log Lerror "Security event processing failed:" ;;
       let* now := Date_now in
       ret (mkResponse 500 (VObj [ ("error", VStr "Event processing failed");
                                   ("timestamp", VStr (toISOString now)) ]))).

End Run.

End App.

(** ** The other endpoints of the orchestrator *)

Module Endpoints.
Import App.

Section Run.
Context `{Host}.


End Run.

End Endpoints.

(** ** A host to run the model on

    [Demo.host] is a small stand-in for Node.js and the packages, used to
    run the definitions on concrete inputs: dates are computed in UTC, the
    JSON parser reads what [JSON_stringify] writes for values without
    fractional numbers, [validator.isIP] knows dotted IPv4 addresses, the
    GeoIP database is empty, and the digest and the cipher are simple
    reversible encodings, not SHA-256 and AES. *)

Module Demo.

Fixpoint digits_of (fuel : nat) (n : Z) (acc : string) : string :=
  match fuel with
  | O => acc
  | S f =>
      let acc' := String (ascii_of_N (48 + Z.to_N (n mod 10))) acc in
      if n / 10 =? 0 then acc' else digits_of f (n / 10) acc'
  end.

(** [n] in decimal on at least [w] digits *)
Fixpoint pad (fuel w : nat) (s : string) : string :=
  match fuel with
  | O => s
  | S f => if Nat.ltb (String.length s) w then pad f w (String "0" s) else s
  end.
Definition dec (w : nat) (n : Z) : string := pad w w (digits_of 20 n "").

(** The civil date of a day number (days since 1970-01-01) and back. *)
Definition civil_from_days (z0 : Z) : Z * Z * Z :=
  let z := z0 + 719468 in
  let era := z / 146097 in
  let doe := z - era * 146097 in
  let yoe := (doe - doe / 1460 + doe / 36524 - doe / 146096) / 365 in
  let y := yoe + era * 400 in
  let doy := doe - (365 * yoe + yoe / 4 - yoe / 100) in
  let mp := (5 * doy + 2) / 153 in
  let d := doy - (153 * mp + 2) / 5 + 1 in
  let m := if mp <? 10 then mp + 3 else mp - 9 in
  (if m <=? 2 then y + 1 else y, m, d).

Definition days_from_civil (y0 m d : Z) : Z :=
  let y := if m <=? 2 then y0 - 1 else y0 in
  let era := y / 400 in
  let yoe := y - era * 400 in
  let doy := (153 * (if 2 <? m then m - 3 else m + 9) + 2) / 5 + d - 1 in
  let doe := yoe * 365 + yoe / 4 - yoe / 100 + doy in
  era * 146097 + doe - 719468.

Definition date_text (ms : Z) : string :=
  let '(y, m, d) := civil_from_days (ms / 86400000) in
  dec 4 y ++ "-" ++ dec 2 m ++ "-" ++ dec 2 d.

Definition iso_text (ms : Z) : string :=
  let r := ms mod 86400000 in
  date_text ms ++ "T" ++ dec 2 (r / 3600000) ++ ":" ++ dec 2 (r / 60000 mod 60)
  ++ ":" ++ dec 2 (r / 1000 mod 60) ++ "." ++ dec 3 (r mod 1000) ++ "Z".

Definition hours_utc (ms : Z) : Z := ms mod 86400000 / 3600000.

Fixpoint number_of (s : string) (acc : Z) : option Z :=
  match s with
  | EmptyString => Some acc
  | String c rest =>
      if is_digit c then number_of rest (acc * 10 + Z.of_N (N_of_ascii c) - 48) else None
  end.

(** The digits at [from], [len] of them *)
Definition field (s : string) (from len : nat) : option Z :=
  let t := substring from len s in
  if Nat.eqb (String.length t) len then number_of t 0 else None.

(** [YYYY-MM-DDTHH:MM:SS.mmmZ] *)
Definition date_parse (s : string) : option Z :=
  if negb (Nat.eqb (String.length s) 24) then None
  else if negb (String.eqb (substring 4 1 s ++ substring 7 1 s ++ substring 10 1 s
                            ++ substring 13 1 s ++ substring 16 1 s ++ substring 19 1 s
                            ++ substring 23 1 s) "--T::.Z")
  then None
  else
    match field s 0 4, field s 5 2, field s 8 2, field s 11 2, field s 14 2,
          field s 17 2, field s 20 3 with
    | Some y, Some mo, Some d, Some h, Some mi, Some sec, Some ms =>
        if (1 <=? mo) && (mo <=? 12) && (1 <=? d) && (d <=? 31) && (h <=? 23)
           && (mi <=? 59) && (sec <=? 59)
        then Some (days_from_civil y mo d * 86400000 + h * 3600000 + mi * 60000
                   + sec * 1000 + ms)
        else None
    | _, _, _, _, _, _, _ => None
    end.

Fixpoint skip_ws (s : string) : string :=
  match s with
  | String c rest => if is_space c then skip_ws rest else s
  | EmptyString => s
  end.

(** The leading digits of [s]: their value and how many there are *)
Fixpoint leading_digits (s : string) (acc : Z) (n : nat) : Z * nat * string :=
  match s with
  | String c rest =>
      if is_digit c
      then leading_digits rest (acc * 10 + Z.of_N (N_of_ascii c) - 48) (S n)
      else (acc, n, s)
  | EmptyString => (acc, n, s)
  end.

Definition signed_prefix (s : string) : option (Z * string) :=
  let '(neg, t) :=
    match s with
    | String "-" rest => (true, rest)
    | String "+" rest => (false, rest)
    | _ => (false, s)
    end in
  let '(v, n, rest) := leading_digits t 0 0 in
  if Nat.eqb n 0 then None else Some (if neg then - v else v, rest).

Definition parse_int (s : string) : option Z :=
  option_map fst (signed_prefix (skip_ws s)).

(** [parse_float] on a text that starts with an integer *)
Definition parse_float (s : string) : option float :=
  option_map (fun n => if n <? 0 then (- AuditLogger.float_of_Z (- n))%float
                       else AuditLogger.float_of_Z n) (parse_int s).

Definition hex_value (c : ascii) : option N :=
  if is_digit c then Some (N_of_ascii c - 48)%N
  else if code_in 97 102 c then Some (N_of_ascii c - 87)%N
  else if code_in 65 70 c then Some (N_of_ascii c - 55)%N
  else None.

(** The rest of a JSON string literal after its opening quote *)
Fixpoint parse_string (s : string) : option (string * string) :=
  match s with
  | EmptyString => None
  | String c rest =>
      if Ascii.eqb c dquote then Some (EmptyString, rest)
      else if Ascii.eqb c backslash then
        match rest with
        | String e rest' =>
            let simple (x : ascii) :=
              option_map (fun r => (String x (fst r), snd r)) (parse_string rest') in
            if Ascii.eqb e dquote then simple dquote
            else if Ascii.eqb e backslash then simple backslash
            else if Ascii.eqb e "/" then simple "/"%char
            else if Ascii.eqb e "b" then simple (ascii_of_N 8)
            else if Ascii.eqb e "f" then simple (ascii_of_N 12)
            else if Ascii.eqb e "n" then simple (ascii_of_N 10)
            else if Ascii.eqb e "r" then simple (ascii_of_N 13)
            else if Ascii.eqb e "t" then simple (ascii_of_N 9)
            else if Ascii.eqb e "u" then
              match rest' with
              | String a (String b (String c1 (String d rest'')) as tail) =>
                  match hex_value a, hex_value b, hex_value c1, hex_value d with
                  | Some 0%N, Some 0%N, Some h, Some l =>
                      option_map (fun r => (String (ascii_of_N (16 * h + l)) (fst r), snd r))
                                 (parse_string rest'')
                  | _, _, _, _ => None
                  end
              | _ => None
              end
            else None
        | EmptyString => None
        end
      else option_map (fun r => (String c (fst r), snd r)) (parse_string rest)
  end.

Definition after (word : string) (s : string) : option string :=
  if String.prefix word s
  then Some (substring (String.length word) (String.length s - String.length word) s)
  else None.

(** A member put in front of the members that follow it; of two members
    with one key the later one gives the value. *)
Definition add_member (k : string) (v : value) (others : list (string * value))
    : list (string * value) :=
  match assoc k others with
  | Some v' => (k, v') :: List.filter (fun kv => negb (String.eqb k (fst kv))) others
  | None => (k, v) :: others
  end.

(** A JSON value at the head of [s], and what follows it *)
Fixpoint parse_value (fuel : nat) (s : string) {struct fuel} : option (value * string) :=
  match fuel with
  | O => None
  | S f =>
      match skip_ws s with
      | EmptyString => None
      | String c rest as t =>
          if Ascii.eqb c "n" then option_map (pair VNull) (after "null" t)
          else if Ascii.eqb c "t" then option_map (pair (VBool true)) (after "true" t)
          else if Ascii.eqb c "f" then option_map (pair (VBool false)) (after "false" t)
          else if Ascii.eqb c dquote then
            option_map (fun r => (VStr (fst r), snd r)) (parse_string rest)
          else if Ascii.eqb c "[" then
            match skip_ws rest with
            | String "]" rest' => Some (VArr [], rest')
            | _ => option_map (fun r => (VArr (fst r), snd r)) (parse_items f rest)
            end
          else if Ascii.eqb c "{" then
            match skip_ws rest with
            | String "}" rest' => Some (VObj [], rest')
            | _ => option_map (fun r => (VObj (fst r), snd r)) (parse_members f rest)
            end
          else
            match signed_prefix t with
            | Some (n, rest') =>
                match rest' with
                | String "." _ | String "e" _ | String "E" _ => None
                | _ => Some (VInt n, rest')
                end
            | None => None
            end
      end
  end
with parse_items (fuel : nat) (s : string) {struct fuel} : option (list value * string) :=
  match fuel with
  | O => None
  | S f =>
      match parse_value f s with
      | Some (v, rest) =>
          match skip_ws rest with
          | String "," rest' =>
              option_map (fun r => (v :: fst r, snd r)) (parse_items f rest')
          | String "]" rest' => Some ([v], rest')
          | _ => None
          end
      | None => None
      end
  end
with parse_members (fuel : nat) (s : string) {struct fuel}
    : option (list (string * value) * string) :=
  match fuel with
  | O => None
  | S f =>
      match skip_ws s with
      | String c rest =>
          if Ascii.eqb c dquote then
            match parse_string rest with
            | Some (k, rest1) =>
                match skip_ws rest1 with
                | String ":" rest2 =>
                    match parse_value f rest2 with
                    | Some (v, rest3) =>
                        match skip_ws rest3 with
                        | String "," rest4 =>
                            option_map (fun r => (add_member k v (fst r), snd r))
                                       (parse_members f rest4)
                        | String "}" rest4 => Some ([(k, v)], rest4)
                        | _ => None
                        end
                    | None => None
                    end
                | _ => None
                end
            | None => None
            end
          else None
      | EmptyString => None
      end
  end.

Definition json_parse (s : string) : option value :=
  match parse_value (S (String.length s)) s with
  | Some (v, rest) => if String.eqb (skip_ws rest) "" then Some v else None
  | None => None
  end.

(** One part of a dotted IPv4 address: 0 to 255, no leading zero *)
Definition ipv4_part (s : string) : bool :=
  match number_of s 0 with
  | Some n =>
      negb (String.eqb s "") && Nat.leb (String.length s) 3 && (n <=? 255)
      && (Nat.eqb (String.length s) 1 || negb (String.prefix "0" s))
  | None => false
  end.

Fixpoint split_on (sep : ascii) (s : string) (cur : string) : list string :=
  match s with
  | EmptyString => [cur]
  | String c rest =>
      if Ascii.eqb c sep then cur :: split_on sep rest ""
      else split_on sep rest (cur ++ str1 c)
  end.

Definition is_ipv4 (s : string) : bool :=
  let parts := split_on "." s "" in
  Nat.eqb (List.length parts) 4 && forallb ipv4_part parts.

Definition is_iso8601 (s : string) : bool :=
  match date_parse s with Some _ => true | None => false end.

Definition byte_hex (n : N) : string :=
  String (hex_digit (n / 16)) (str1 (hex_digit (n mod 16))).

(** The stand-in digest: 64-bit FNV-1a, in hexadecimal *)
Fixpoint fnv1a (s : string) (h : N) : N :=
  match s with
  | EmptyString => h
  | String c rest =>
      fnv1a rest ((N.lxor h (N_of_ascii c) * 1099511628211) mod 18446744073709551616)%N
  end.
Fixpoint hex_of (digits : nat) (n : N) (acc : string) : string :=
  match digits with
  | O => acc
  | S d => hex_of d (n / 16)%N (String (hex_digit (n mod 16)) acc)
  end.
Definition digest_hex (s : string) : string :=
  hex_of 16 (fnv1a s 14695981039346656037%N) "".

(** The stand-in cipher: a header byte, then every byte of the text xored
    with a byte of the key's length, in hexadecimal *)
Definition key_byte (key : string) : N := (N.of_nat (String.length key) mod 256)%N.
Fixpoint xor_hex (k : N) (s : string) : string :=
  match s with
  | EmptyString => EmptyString
  | String c rest => byte_hex (N.lxor k (N_of_ascii c)) ++ xor_hex k rest
  end.
Definition cipher (key text : string) : option string :=
  Some ("a5" ++ xor_hex (key_byte key) text).
Fixpoint unxor_hex (k : N) (s : string) : option string :=
  match s with
  | EmptyString => Some EmptyString
  | String a (String b rest) =>
      match hex_value a, hex_value b, unxor_hex k rest with
      | Some h, Some l, Some t => Some (String (ascii_of_N (N.lxor k (16 * h + l))) t)
      | _, _, _ => None
      end
  | String _ EmptyString => None
  end.
Definition decipher (key c : string) : option string :=
  match after "a5" c with
  | Some payload => unxor_hex (key_byte key) payload
  | None => None
  end.

Definition uuid (n : nat) : string :=
  "00000000-0000-4000-8000-" ++ dec 12 (Z.of_nat n).

(** A number on at most six decimals *)
Definition number_text (x : float) : string :=
  match Prim2SF x with
  | S754_zero _ => "0"
  | S754_infinity s => if s then "-Infinity" else "Infinity"
  | S754_nan => "NaN"
  | S754_finite s m e =>
      let scaled :=
        if 0 <=? e then Z.pos m * 2 ^ e * 1000000
        else (Z.pos m * 1000000 + 2 ^ (- e - 1)) / 2 ^ (- e) in
      let int_part := dec 1 (scaled / 1000000) in
      let frac := dec 6 (scaled mod 1000000) in
      let fix strip (n : nat) (t : string) : string :=
        match n with
        | O => t
        | S n' =>
            if String.eqb (substring (String.length t - 1) 1 t) "0"
            then strip n' (substring 0 (String.length t - 1) t) else t
        end in
      let frac' := strip 6%nat frac in
      (if s then "-" else "") ++ int_part ++ (if String.eqb frac' "" then "" else "." ++ frac')
  end.

(** A user agent nobody knows: no browser name, no version, no system *)
Definition ua_result (ua : string) : value :=
  VObj [ ("ua", VStr ua); ("browser", VObj []); ("engine", VObj []); ("os", VObj []);
         ("device", VObj []); ("cpu", VObj []) ].

#[export] Instance host : Host := {|
  Number_toString := number_text;
  toISOString := iso_text;
  getHours := hours_utc;
  JSON_parse := json_parse;
  sha256_hex := digest_hex;
  cipher_hex := cipher;
  decipher_utf8 := decipher;
  randomUUID := uuid;
  validator_isIP := is_ipv4;
  validator_isISO8601 := is_iso8601;
  geoip_lookup := fun _ => None;
  uaParser_getResult := ua_result;
  format_date := date_text;
  Date_parse := date_parse;
  parseInt := parse_int;
  parseFloat := parse_float
|}.

End Demo.

(* ===================================================================== *)
(** * Part II: properties                                                 *)
(* ===================================================================== *)

(** ** Running computations *)

Lemma bind_run {S A B} (m : M S A) (k : A -> M S B) (s : S) :
  bind m k s = match m s with
               | (Ok a, s') => k a s'
               | (Throw e, s') => (Throw e, s')
               end.
Proof. reflexivity. Qed.

Lemma bind_ok {S A B} (m : M S A) (k : A -> M S B) (s s' : S) (a : A) :
  m s = (Ok a, s') -> bind m k s = k a s'.
Proof. intros E. unfold bind. rewrite E. reflexivity. Qed.

Lemma bind_throw {S A B} (m : M S A) (k : A -> M S B) (s s' : S) (e : string) :
  m s = (Throw e, s') -> bind m k s = (Throw e, s').
Proof. intros E. unfold bind. rewrite E. reflexivity. Qed.

Lemma try_catch_ok {S A} (m : M S A) (h : string -> M S A) (s s' : S) (a : A) :
  m s = (Ok a, s') -> try_catch m h s = (Ok a, s').
Proof. intros E. unfold try_catch. rewrite E. reflexivity. Qed.

Lemma try_catch_throw {S A} (m : M S A) (h : string -> M S A) (s s' : S) (e : string) :
  m s = (Throw e, s') -> try_catch m h s = h e s'.
Proof. intros E. unfold try_catch. rewrite E. reflexivity. Qed.

(** A computation that never throws. *)
Definition total {S A} (m : M S A) : Prop :=
  forall s, exists a s', m s = (Ok a, s').

Lemma total_ret {S A} (a : A) : total (@ret S A a).
Proof. intros s. eexists _, _. reflexivity. Qed.

Lemma total_bind {S A B} (m : M S A) (k : A -> M S B) :
  total m -> (forall a, total (k a)) -> total (bind m k).
Proof.
  intros Hm Hk s. destruct (Hm s) as (a & s' & E).
  rewrite (bind_ok _ _ _ _ _ E). apply Hk.
Qed.

Lemma total_try_catch {S A} (m : M S A) (h : string -> M S A) :
  (forall e, total (h e)) -> total (try_catch m h).
Proof.
  intros Hh s. unfold try_catch. destruct (m s) as [[a | e] s'].
  - eexists _, _. reflexivity.
  - apply Hh.
Qed.

Lemma total_log {St Se} (lv : LogLevel) (msg : string) : total (@log St Se lv msg).
Proof. intros s. eexists _, _. reflexivity. Qed.

Lemma total_modify {S} (f : S -> S) : total (modify f).
Proof. intros s. eexists _, _. reflexivity. Qed.

Lemma total_gets {S A} (f : S -> A) : total (gets f).
Proof. intros s. eexists _, _. reflexivity. Qed.

Lemma total_when {S} (b : bool) (m : M S unit) : total m -> total (when b m).
Proof. intros Hm. destruct b; [exact Hm | apply total_ret]. Qed.

Create HintDb total.
#[local] Hint Resolve total_ret total_log total_modify total_gets : total.

(** ** Computations that read only part of their state

    [respects R m]: from two states related by [R], [m] returns the same
    result (or throws the same error) and leaves related states. *)
Definition respects {S A} (R : S -> S -> Prop) (m : M S A) : Prop :=
  forall s1 s2, R s1 s2 -> fst (m s1) = fst (m s2) /\ R (snd (m s1)) (snd (m s2)).

Section Respects.
Context {S : Type} (R : S -> S -> Prop).

Lemma respects_ret {A} (a : A) : respects R (ret a).
Proof. intros s1 s2 HR. split; [reflexivity | exact HR]. Qed.

Lemma respects_throw {A} (e : string) : respects R (@throw S A e).
Proof. intros s1 s2 HR. split; [reflexivity | exact HR]. Qed.

Lemma respects_bind {A B} (m : M S A) (k : A -> M S B) :
  respects R m -> (forall a, respects R (k a)) -> respects R (bind m k).
Proof.
  intros Hm Hk s1 s2 HR. unfold bind.
  destruct (Hm s1 s2 HR) as [E HR'].
  destruct (m s1) as [[a1 | e1] s1'], (m s2) as [[a2 | e2] s2']; cbn in E, HR';
    try discriminate.
  - injection E as ->. apply Hk. exact HR'.
  - injection E as ->. split; [reflexivity | exact HR'].
Qed.

Lemma respects_try_catch {A} (m : M S A) (h : string -> M S A) :
  respects R m -> (forall e, respects R (h e)) -> respects R (try_catch m h).
Proof.
  intros Hm Hh s1 s2 HR. unfold try_catch.
  destruct (Hm s1 s2 HR) as [E HR'].
  destruct (m s1) as [[a1 | e1] s1'], (m s2) as [[a2 | e2] s2']; cbn in E, HR';
    try discriminate.
  - injection E as ->. split; [reflexivity | exact HR'].
  - injection E as ->. apply Hh. exact HR'.
Qed.

Lemma respects_when (b : bool) (m : M S unit) : respects R m -> respects R (when b m).
Proof. intros Hm. destruct b; [exact Hm | apply respects_ret]. Qed.

Lemma respects_for_each {A} (l : list A) (body : A -> M S unit) :
  (forall x, respects R (body x)) -> respects R (for_each l body).
Proof.
  intros Hb. induction l as [| x l IH]; [apply respects_ret |].
  cbn [for_each]. apply respects_bind; [apply Hb | intros _; exact IH].
Qed.

End Respects.

(** ** The compliance checker *)

Module ComplianceFacts.
Import ComplianceChecker.

(** No detection pattern of any principle of the table matches [content]. *)
Definition clean (principles : list (string * Principle)) (content : string) : bool :=
  forallb (fun entry =>
             forallb (fun pattern => negb (RegExp_test pattern content))
                     (patterns (snd entry)))
          principles.

(** The text that [checkCompliance] scans. *)
Definition content_of `{Host} (data : value) : string :=
  match data with VStr s => s | _ => JSON_stringify data end.

Lemma String_match_None (content : string) (pattern : RegExp) :
  RegExp_test pattern content = false -> String_match content pattern = None.
Proof.
  unfold RegExp_test, String_match.
  destruct (RegExp_exec pattern content) as [[? ?] |]; [discriminate | reflexivity].
Qed.

Lemma check_pattern_miss (content : string) (v : PrincipleCheck) (pattern : RegExp) :
  RegExp_test pattern content = false -> check_pattern content v pattern = v.
Proof. intros E. unfold check_pattern. rewrite (String_match_None _ _ E). reflexivity. Qed.

Lemma fold_check_pattern_miss (content : string) (ps : list RegExp) (v : PrincipleCheck) :
  forallb (fun pattern => negb (RegExp_test pattern content)) ps = true ->
  fold_left (check_pattern content) ps v = v.
Proof.
  revert v. induction ps as [| p ps IH]; intros v Hall; [reflexivity |].
  simpl in Hall. apply andb_true_iff in Hall as [Hp Hps].
  apply negb_true_iff in Hp. simpl. rewrite (check_pattern_miss _ _ _ Hp). auto.
Qed.

(** A principle none of whose patterns matches is not violated. *)
Lemma checkPrincipleViolation_miss (name : string) (config : Principle) (content : string) :
  forallb (fun pattern => negb (RegExp_test pattern content)) (patterns config) = true ->
  violated (checkPrincipleViolation name config content) = false.
Proof.
  intros Hall. unfold checkPrincipleViolation.
  rewrite (fold_check_pattern_miss _ _ _ Hall). cbn [violated pc_confidence pc_severity].
  destruct (_ && _); reflexivity.
Qed.

Lemma check_principle_miss (content : string) (r : ComplianceResult)
    (entry : string * Principle) :
  forallb (fun pattern => negb (RegExp_test pattern content)) (patterns (snd entry)) = true ->
  check_principle content r entry = r.
Proof.
  intros Hall. destruct entry as [name config]. unfold check_principle.
  rewrite (checkPrincipleViolation_miss name config content Hall). reflexivity.
Qed.

Lemma fold_check_principle_clean (content : string) (l : list (string * Principle))
    (r : ComplianceResult) :
  clean l content = true -> fold_left (check_principle content) l r = r.
Proof.
  unfold clean. revert r. induction l as [| x l IH]; intros r Hall; [reflexivity |].
  simpl in Hall. apply andb_true_iff in Hall as [Hx Hl].
  simpl. rewrite (check_principle_miss _ _ _ Hx). auto.
Qed.

(** The flag and the list of violations go together. *)
Definition flag_agrees (r : ComplianceResult) : Prop :=
  compliant r = true <-> violations r = [].

Lemma check_principle_flag (content : string) (r : ComplianceResult)
    (entry : string * Principle) :
  flag_agrees r -> flag_agrees (check_principle content r entry).
Proof.
  intros Hr. destruct entry as [name config]. unfold check_principle.
  destruct (violated _); [| exact Hr].
  unfold flag_agrees. cbn [compliant violations]. split; [discriminate |].
  intros E. destruct (violations r); discriminate.
Qed.

Lemma fold_check_principle_flag (content : string) (l : list (string * Principle))
    (r : ComplianceResult) :
  flag_agrees r -> flag_agrees (fold_left (check_principle content) l r).
Proof.
  revert r. induction l as [| x l IH]; intros r Hr; [exact Hr |].
  simpl. apply IH. apply check_principle_flag. exact Hr.
Qed.

Section Facts.
Context `{Host}.

Lemma total_recordViolation (r : ComplianceResult) : total (recordViolation r).
Proof. unfold recordViolation. apply total_try_catch. intros e. apply total_log. Qed.

Lemma total_updateComplianceScore (x : float) : total (updateComplianceScore x).
Proof.
  unfold updateComplianceScore. apply total_bind; [apply total_gets |].
  intros a. apply total_modify.
Qed.

(** What [checkCompliance] returns, from the table of the checker and the
    time of the call: the fold over the principles, with the score brought
    into the interval from 0 to 1. *)
Definition outcome (principles : list (string * Principle)) (data : value) (now : Z)
    : ComplianceResult :=
  let r := fold_left (check_principle (content_of data)) principles
                     (mkResult true [] 1.0 (map fst principles) now []) in
  mkResult (compliant r) (violations r) (Math_max 0 (Math_min 1 (score r)))
           (principles_checked r) (timestamp r) (metadata r).

Lemma checkCompliance_returns (data : value) (c : Ctx Redis Checker) :
  exists c',
    checkCompliance data c
    = (Ok (outcome (constitutionalPrinciples (self c)) data (clock c)), c').
Proof.
  unfold checkCompliance.
  set (body := bind _ _).
  assert (Hb : exists c',
             body c = (Ok (outcome (constitutionalPrinciples (self c)) data (clock c)), c')).
  { subst body.
    erewrite bind_ok by reflexivity.
    erewrite bind_ok by reflexivity.
    erewrite bind_ok by reflexivity.
    cbn [clock set_self self set_stats constitutionalPrinciples].
    fold (content_of data).
    fold (outcome (constitutionalPrinciples (self c)) data (clock c)).
    set (r := outcome (constitutionalPrinciples (self c)) data (clock c)).
    set (c1 := set_self _ c).
    assert (Hw : total (when (negb (compliant r))
                   (modify_self (fun k =>
                      set_stats (mkStats (checks_performed (stats k))
                                         (violations_detected (stats k) + 1)
                                         (compliance_score (stats k))
                                         (last_updated (stats k))) k) ;;
                    recordViolation r))).
    { apply total_when, total_bind; [apply total_modify |].
      intros _. apply total_recordViolation. }
    destruct (Hw c1) as ([] & s1 & E1). erewrite bind_ok by exact E1.
    destruct (total_updateComplianceScore (score r) s1) as ([] & s2 & E2).
    erewrite bind_ok by exact E2.
    erewrite bind_ok by reflexivity.
    eexists. reflexivity. }
  destruct Hb as (c' & Hb). exists c'. apply try_catch_ok. exact Hb.
Qed.

Lemma initial_flag (names : list string) (now : Z) :
  flag_agrees (mkResult true [] 1.0 names now []).
Proof. split; reflexivity. Qed.

Lemma outcome_flag (principles : list (string * Principle)) (data : value) (now : Z) :
  flag_agrees (outcome principles data now).
Proof.
  unfold outcome.
  generalize (fold_check_principle_flag (content_of data) principles _
                (initial_flag (map fst principles) now)).
  generalize (fold_left (check_principle (content_of data)) principles
                (mkResult true [] 1.0 (map fst principles) now [])).
  intros r Hr. exact Hr.
Qed.

Lemma outcome_clean (principles : list (string * Principle)) (data : value) (now : Z) :
  clean principles (content_of data) = true ->
  outcome principles data now = mkResult true [] 1.0 (map fst principles) now [].
Proof.
  intros Hc. unfold outcome.
  rewrite (fold_check_principle_clean (content_of data) principles _ Hc).
  reflexivity.
Qed.

(** C9.  [checkCompliance] always returns a result; the [compliant] flag
    of the result is true exactly when its list of violations is empty;
    and when no detection pattern of any principle of the checker matches
    the content, the result is compliant, with score 1.0 and no violation. *)
Theorem checkCompliance_clean_and_flag (data : value) (c : Ctx Redis Checker) :
  exists r c',
    checkCompliance data c = (Ok r, c')
    /\ (compliant r = true <-> violations r = [])
    /\ (clean (constitutionalPrinciples (self c)) (content_of data) = true ->
        compliant r = true /\ score r = 1.0%float /\ violations r = []).
Proof.
  destruct (checkCompliance_returns data c) as (c' & E).
  exists (outcome (constitutionalPrinciples (self c)) data (clock c)), c'.
  split; [exact E |]. split.
  - apply outcome_flag.
  - intros Hc. rewrite (outcome_clean _ data (clock c) Hc). cbn. auto.
Qed.

(** Two results with one verdict: they may differ in their time stamp. *)
Definition same_verdict (r1 r2 : ComplianceResult) : Prop :=
  compliant r1 = compliant r2 /\ violations r1 = violations r2 /\ score r1 = score r2.

Lemma check_principle_verdict (content : string) (r1 r2 : ComplianceResult)
    (entry : string * Principle) :
  same_verdict r1 r2 ->
  same_verdict (check_principle content r1 entry) (check_principle content r2 entry).
Proof.
  intros (Hc & Hv & Hs). destruct entry as [name config]. unfold check_principle.
  destruct (violated _); [| repeat split; assumption].
  unfold same_verdict. cbn [compliant violations score]. rewrite Hv, Hs.
  repeat split; reflexivity.
Qed.

Lemma fold_check_principle_verdict (content : string) (l : list (string * Principle))
    (r1 r2 : ComplianceResult) :
  same_verdict r1 r2 ->
  same_verdict (fold_left (check_principle content) l r1)
               (fold_left (check_principle content) l r2).
Proof.
  revert r1 r2. induction l as [| x l IH]; intros r1 r2 Hr; [exact Hr |].
  cbn [fold_left]. apply IH, check_principle_verdict, Hr.
Qed.

(** The verdict of [checkCompliance] is a function of the table and of the
    content. *)
Lemma outcome_verdict (principles : list (string * Principle)) (data : value)
    (now1 now2 : Z) :
  same_verdict (outcome principles data now1) (outcome principles data now2).
Proof.
  unfold outcome.
  generalize (fold_check_principle_verdict (content_of data) principles
                (mkResult true [] 1.0 (map fst principles) now1 [])
                (mkResult true [] 1.0 (map fst principles) now2 [])
                (conj eq_refl (conj eq_refl eq_refl))).
  generalize (fold_left (check_principle (content_of data)) principles
                (mkResult true [] 1.0 (map fst principles) now1 [])).
  generalize (fold_left (check_principle (content_of data)) principles
                (mkResult true [] 1.0 (map fst principles) now2 [])).
  intros r2 r1 (Hc & Hv & Hs). unfold same_verdict. cbn [compliant violations score].
  rewrite Hc, Hv, Hs. repeat split; reflexivity.
Qed.


End Facts.

End ComplianceFacts.

(** ** The threat detector: what a result depends on *)

Module ThreatFacts.
Import ThreatDetector.

Section Facts.
Context `{Host}.
#[local] Abbreviation C := (Ctx Redis Detector).
#[local] Abbreviation A := (C * ThreatResult)%type.

(** The external state of an analysis: the clock, Redis, the blacklist and
    the table of patterns.  The statistics of the detector, the lines
    logged so far and the state of the UUID generator are not part of it. *)
Definition same_inputs (c1 c2 : C) : Prop :=
  clock c1 = clock c2 /\ store c1 = store c2
  /\ ipBlacklist (self c1) = ipBlacklist (self c2)
  /\ threatPatterns (self c1) = threatPatterns (self c2).

Definition same_analysis (a1 a2 : A) : Prop :=
  same_inputs (fst a1) (fst a2) /\ snd a1 = snd a2.

Lemma respects_log (lv : LogLevel) (msg : string) : respects same_inputs (log lv msg).
Proof. intros c1 c2 HR. split; [reflexivity | exact HR]. Qed.

Lemma respects_Date_now : respects same_inputs (@Date_now Redis Detector).
Proof.
  intros c1 c2 HR. split; [| exact HR]. cbn. f_equal. apply HR.
Qed.

Lemma respects_blacklist :
  respects same_inputs (gets (fun c : C => ipBlacklist (self c))).
Proof. intros c1 c2 HR. split; [| exact HR]. cbn. f_equal. apply HR. Qed.

Lemma respects_patterns :
  respects same_inputs (gets (fun c : C => threatPatterns (self c))).
Proof. intros c1 c2 HR. split; [| exact HR]. cbn. f_equal. apply HR. Qed.

Lemma respects_redis_cmd {X} (f : Z -> Redis -> X * Redis) :
  respects same_inputs (redis_cmd f).
Proof.
  intros c1 c2 (Hc & Hs & Hb & Hp). unfold redis_cmd. rewrite Hc, Hs.
  destruct (r_up (store c2)).
  - destruct (f (clock c2) (store c2)) as [a r']. cbn. split; [reflexivity |].
    repeat split; assumption.
  - cbn. split; [reflexivity |]. repeat split; assumption.
Qed.

Lemma respects_modify_self (f : Detector -> Detector) :
  (forall d, ipBlacklist (f d) = ipBlacklist d) ->
  (forall d, threatPatterns (f d) = threatPatterns d) ->
  respects same_inputs (modify_self f).
Proof.
  intros Hb Hp c1 c2 (Hc & Hs & Hb' & Hp'). cbn. split; [reflexivity |].
  repeat split; cbn; rewrite ?Hb, ?Hp; assumption.
Qed.

Lemma respects_up {X} (m : M C X) :
  respects same_inputs m -> respects same_analysis (up m).
Proof.
  intros Hm [c1 o1] [c2 o2] [HR Ho]. cbn in HR, Ho. subst o2.
  unfold up, zoom. cbn [fst snd]. destruct (Hm c1 c2 HR) as [E HR'].
  destruct (m c1) as [r1 c1'], (m c2) as [r2 c2']. cbn in E, HR' |- *.
  split; [exact E |]. split; [exact HR' | reflexivity].
Qed.

Lemma respects_mutate (f : ThreatResult -> ThreatResult) :
  respects same_analysis (mutate f).
Proof.
  intros [c1 o1] [c2 o2] [HR Ho]. cbn in HR, Ho. subst o2. cbn.
  split; [reflexivity |]. split; [exact HR | reflexivity].
Qed.

Lemma respects_member {S} (R : S -> S -> Prop) (v : option value) (k : string) :
  respects R (member v k).
Proof.
  unfold member. destruct v as [[] |]; first [apply respects_ret | apply respects_throw].
Qed.

Lemma respects_with_object {X} (init : ThreatResult) (m : M A X) :
  respects same_analysis m -> respects same_inputs (with_object init m).
Proof.
  intros Hm c1 c2 HR. unfold with_object.
  destruct (Hm (c1, init) (c2, init)) as [E [HR' Ho]]; [split; [exact HR | reflexivity] |].
  destruct (m (c1, init)) as [r1 [c1' o1]], (m (c2, init)) as [r2 [c2' o2]].
  cbn in E, HR', Ho. subst r2 o2. destruct r1; cbn; split; (reflexivity || exact HR').
Qed.

(** One step of a proof that a computation respects [same_inputs] or
    [same_analysis], by the shape of the computation. *)
Ltac respect_step :=
  lazymatch goal with
  | |- respects _ (bind _ _) => apply respects_bind; [| intros ?]
  | |- respects _ (try_catch _ _) => apply respects_try_catch; [| intros ?]
  | |- respects _ (when _ _) => apply respects_when
  | |- respects _ (for_each _ _) => apply respects_for_each; intros ?
  | |- respects _ (ret _) => apply respects_ret
  | |- respects _ (throw _) => apply respects_throw
  | |- respects _ (member _ _) => apply respects_member
  | |- respects _ (up _) => apply respects_up
  | |- respects _ (mutate _) => apply respects_mutate
  | |- respects _ (log _ _) => apply respects_log
  | |- respects _ Date_now => apply respects_Date_now
  | |- respects _ (redis_get _) => apply respects_redis_cmd
  | |- respects _ (redis_setEx _ _ _) => apply respects_redis_cmd
  | |- respects _ (redis_lRange_all _) => apply respects_redis_cmd
  | |- respects _ (gets (fun c => ipBlacklist (self c))) => apply respects_blacklist
  | |- respects _ (gets (fun c => threatPatterns (self c))) => apply respects_patterns
  | |- respects _ (match ?x with _ => _ end) => destruct x
  end.
Ltac respect := repeat (cbv zeta; respect_step).

Lemma respects_getIPRequestCount (ip : value) :
  respects same_inputs (getIPRequestCount ip).
Proof. unfold getIPRequestCount. respect. Qed.

Lemma respects_getSuspiciousActivityScore (ip : value) :
  respects same_inputs (getSuspiciousActivityScore ip).
Proof. unfold getSuspiciousActivityScore. respect. Qed.

Lemma respects_getRecentRequestsByIP (ip : value) (seconds : Z) :
  respects same_inputs (getRecentRequestsByIP ip seconds).
Proof. unfold getRecentRequestsByIP. respect. Qed.

Lemma respects_isOutdatedBrowser (parsed : value) :
  respects same_analysis (isOutdatedBrowser parsed).
Proof. unfold isOutdatedBrowser. respect. Qed.

Lemma respects_isUserAgentSpoofed (parsed : value) :
  respects same_analysis (isUserAgentSpoofed parsed).
Proof. unfold isUserAgentSpoofed. respect. Qed.

Lemma respects_analyzeIPThreat (e : value) : respects same_analysis (analyzeIPThreat e).
Proof.
  unfold analyzeIPThreat. respect.
  - apply respects_getIPRequestCount.
  - apply respects_getSuspiciousActivityScore.
Qed.

Lemma respects_test_pattern (requestString threatType : string) (pattern : RegExp) :
  respects same_analysis (test_pattern requestString threatType pattern).
Proof. unfold test_pattern. respect. Qed.

Lemma respects_analyzePatternThreat (e : value) :
  respects same_analysis (analyzePatternThreat e).
Proof. unfold analyzePatternThreat. respect. apply respects_test_pattern. Qed.

Lemma respects_analyzeAnomalousActivity (e : value) :
  respects same_analysis (analyzeAnomalousActivity e).
Proof.
  unfold analyzeAnomalousActivity. respect; apply respects_getRecentRequestsByIP.
Qed.

Lemma respects_analyzeGeolocation (e : value) :
  respects same_analysis (analyzeGeolocation e).
Proof. unfold analyzeGeolocation. respect. Qed.

Lemma respects_analyzeUserAgent (e : value) :
  respects same_analysis (analyzeUserAgent e).
Proof.
  unfold analyzeUserAgent. respect;
    first [apply respects_isOutdatedBrowser | apply respects_isUserAgentSpoofed].
Qed.

Lemma respects_analyzeConstitutionalCompliance (e : value) :
  respects same_analysis (analyzeConstitutionalCompliance e).
Proof. unfold analyzeConstitutionalCompliance. respect. Qed.

(** The analysis of an event reads the external state only. *)
Lemma respects_analysis (e : value) : respects same_analysis (analysis e).
Proof.
  unfold analysis. respect.
  - apply respects_analyzeIPThreat.
  - apply respects_analyzePatternThreat.
  - apply respects_analyzeAnomalousActivity.
  - apply respects_analyzeGeolocation.
  - apply respects_analyzeUserAgent.
  - apply respects_analyzeConstitutionalCompliance.
Qed.

(** The analysis reads [source] and [data] of the event only. *)
Lemma analysis_content (e1 e2 : value) :
  prop e1 "source" = prop e2 "source" -> prop e1 "data" = prop e2 "data" ->
  analysis e1 = analysis e2.
Proof.
  intros Hs Hd.
  unfold analysis, analyzeIPThreat, analyzePatternThreat, analyzeAnomalousActivity,
    analyzeGeolocation, analyzeUserAgent, analyzeConstitutionalCompliance,
    requestString_of.
  rewrite Hs, Hd. reflexivity.
Qed.

Lemma total_up {X} (m : M C X) : total m -> total (@up C ThreatResult X m).
Proof.
  intros Hm [c o]. destruct (Hm c) as (a & c' & E). unfold up, zoom. cbn [fst snd].
  rewrite E. eexists _, _. reflexivity.
Qed.

Lemma total_analyzer (m : M A unit) (msg : string) :
  total (try_catch m (fun _ => up (log Lwarn msg))).
Proof. apply total_try_catch. intros _. apply total_up, total_log. Qed.

(** Every analyser catches what its body throws: the analysis of an event
    always completes. *)
Lemma total_analysis (e : value) : total (analysis e).
Proof.
  unfold analysis.
  repeat (apply total_bind; [apply total_analyzer | intros _]).
  apply total_modify.
Qed.

(** The result of [analyzeThreat]: the object that the analysis leaves. *)
Definition verdict (e : value) (c : C) : ThreatResult :=
  snd (snd (analysis e (set_self (bump_analyzed (self c)) c,
                        mkResult false [] low 0.0 [] (clock c) true))).

Lemma total_cacheThreatData (e : value) (r : ThreatResult) : total (cacheThreatData e r).
Proof. unfold cacheThreatData. apply total_try_catch. intros _. apply total_log. Qed.

(** [analyzeThreat] always returns, and returns the verdict. *)
Lemma analyzeThreat_returns (e : value) (c : C) :
  exists c', analyzeThreat e c = (Ok (verdict e c), c').
Proof.
  unfold analyzeThreat.
  set (body := bind _ _).
  assert (Hb : exists c', body c = (Ok (verdict e c), c')).
  { subst body.
    erewrite bind_ok by reflexivity.
    erewrite bind_ok by reflexivity.
    cbn [clock set_self].
    unfold verdict.
    set (start := (set_self (bump_analyzed (self c)) c,
                   mkResult false [] low 0.0 [] (clock c) true)).
    destruct (total_analysis e start) as ([] & [c1 o] & E).
    assert (Ew : with_object (mkResult false [] low 0.0 [] (clock c) true) (analysis e)
                   (set_self (bump_analyzed (self c)) c) = (Ok (tt, o), c1)).
    { unfold with_object. fold start. rewrite E. reflexivity. }
    erewrite bind_ok by exact Ew.
    rewrite E. cbn [snd].
    assert (Hw : total (when (isThreat o)
                   (modify_self bump_detected ;;
                    cacheThreatData e o ;;
                    log Lwarn "Threat detected:"))).
    { apply total_when, total_bind; [apply total_modify | intros _].
      apply total_bind; [apply total_cacheThreatData | intros _; apply total_log]. }
    destruct (Hw c1) as ([] & c2 & E2). erewrite bind_ok by exact E2.
    eexists. reflexivity. }
  destruct Hb as (c' & Hb). exists c'. apply try_catch_ok. exact Hb.
Qed.

Lemma bump_analyzed_inputs (c : C) :
  same_inputs (set_self (bump_analyzed (self c)) c) c.
Proof. repeat split. Qed.

(** The verdict is a function of the content of the event ([source] and
    [data]) and of the external state. *)
Lemma verdict_deterministic (e1 e2 : value) (c1 c2 : C) :
  prop e1 "source" = prop e2 "source" -> prop e1 "data" = prop e2 "data" ->
  same_inputs c1 c2 ->
  verdict e1 c1 = verdict e2 c2.
Proof.
  intros Hs Hd (Hc & Hst & Hb & Hp). unfold verdict.
  rewrite (analysis_content e1 e2 Hs Hd).
  apply (respects_analysis e2). split; cbn [fst snd].
  - repeat split; assumption.
  - rewrite Hc. reflexivity.
Qed.

End Facts.

End ThreatFacts.

(** ** Determinism of the two scorers *)

Module ScorerFacts.

Section Facts.
Context `{Host}.

(** C8.  Two runs of [checkCompliance] on the same data, by checkers that
    hold the same table of principles, return the same score, the same
    flag and the same violations (with their confidence values), whatever
    the clock, Redis and the statistics of the checkers are.  Two runs of
    [analyzeThreat] on events with the same [source] and [data], from the
    same external state (clock, Redis, blacklist, table of patterns),
    return the same result, whatever the other fields of the events and the
    statistics of the detectors are. *)
Theorem scorers_deterministic :
  (forall (data : value) (k1 k2 : Ctx Redis ComplianceChecker.Checker) r1 r2 k1' k2',
      ComplianceChecker.constitutionalPrinciples (self k1)
      = ComplianceChecker.constitutionalPrinciples (self k2) ->
      ComplianceChecker.checkCompliance data k1 = (Ok r1, k1') ->
      ComplianceChecker.checkCompliance data k2 = (Ok r2, k2') ->
      ComplianceChecker.score r1 = ComplianceChecker.score r2
      /\ ComplianceChecker.compliant r1 = ComplianceChecker.compliant r2
      /\ ComplianceChecker.violations r1 = ComplianceChecker.violations r2)
  /\ (forall (e1 e2 : value) (d1 d2 : Ctx Redis ThreatDetector.Detector) r1 r2 d1' d2',
         prop e1 "source" = prop e2 "source" -> prop e1 "data" = prop e2 "data" ->
         ThreatFacts.same_inputs d1 d2 ->
         ThreatDetector.analyzeThreat e1 d1 = (Ok r1, d1') ->
         ThreatDetector.analyzeThreat e2 d2 = (Ok r2, d2') ->
         r1 = r2).
Proof.
  split.
  - intros data k1 k2 r1 r2 k1' k2' Hp E1 E2.
    destruct (ComplianceFacts.checkCompliance_returns data k1) as (x1 & F1).
    destruct (ComplianceFacts.checkCompliance_returns data k2) as (x2 & F2).
    rewrite F1 in E1. rewrite F2 in E2.
    injection E1 as <- _. injection E2 as <- _. rewrite Hp.
    destruct (ComplianceFacts.outcome_verdict
                (ComplianceChecker.constitutionalPrinciples (self k2)) data
                (clock k1) (clock k2)) as (Hc & Hv & Hs).
    auto.
  - intros e1 e2 d1 d2 r1 r2 d1' d2' Hs Hd Hin E1 E2.
    destruct (ThreatFacts.analyzeThreat_returns e1 d1) as (x1 & F1).
    destruct (ThreatFacts.analyzeThreat_returns e2 d2) as (x2 & F2).
    rewrite F1 in E1. rewrite F2 in E2.
    injection E1 as <- _. injection E2 as <- _.
    apply ThreatFacts.verdict_deterministic; assumption.
Qed.

End Facts.

End ScorerFacts.

(** ** The alert manager: cooldown *)

Module AlertFacts.
Import AlertManager.

(** The alerts dispatched so far: every type of alert has the [log] channel
    among its channels, and that channel writes one line [SECURITY ALERT:]
    for each alert that [executeAlert] sends. *)
Definition is_alert_line (l : LogLine) : bool := String.eqb (snd l) "SECURITY ALERT:".
Definition count_alerts (l : list LogLine) : Z :=
  Z.of_nat (List.length (List.filter is_alert_line l)).
Definition dispatches {St Se} (c : Ctx St Se) : Z := count_alerts (logger c).

(** The same process at a later time. *)
Definition at_time {St Se} (t : Z) (c : Ctx St Se) : Ctx St Se :=
  mkCtx t (entropy c) (logger c) (store c) (self c).

Lemma count_alerts_app (l l' : list LogLine) :
  count_alerts (l ++ l') = count_alerts l + count_alerts l'.
Proof.
  unfold count_alerts. rewrite List.filter_app, List.length_app. lia.
Qed.

Section Facts.
Context `{Host}.
#[local] Abbreviation C := (Ctx Redis Manager).

(** What a step of a send leaves alone: the clock, Redis, and the count of
    alerts sent; [n] more alert lines are logged. *)
Definition quiet (n : Z) (c c' : C) : Prop :=
  clock c' = clock c /\ store c' = store c
  /\ alerts_sent (stats (self c')) = alerts_sent (stats (self c))
  /\ dispatches c' = dispatches c + n.

Lemma quiet_refl (c : C) : quiet 0 c c.
Proof. unfold quiet. repeat split; lia. Qed.

Lemma quiet_trans (n m : Z) (c1 c2 c3 : C) :
  quiet n c1 c2 -> quiet m c2 c3 -> quiet (n + m) c1 c3.
Proof.
  intros (A1 & A2 & A3 & A4) (B1 & B2 & B3 & B4). unfold quiet.
  rewrite B1, B2, B3, B4, A1, A2, A3, A4. repeat split; lia.
Qed.

Lemma quiet_log (lv : LogLevel) (msg : string) (c : C) :
  String.eqb msg "SECURITY ALERT:" = false ->
  quiet 0 c (snd (log lv msg c)).
Proof.
  intros Hm. unfold quiet, dispatches. cbn. repeat split.
  rewrite count_alerts_app. unfold count_alerts at 2. cbn.
  unfold is_alert_line. cbn [snd]. rewrite Hm. cbn. lia.
Qed.

Lemma count_alerts_snoc (l : list LogLine) (line : LogLine) :
  count_alerts (l ++ [line]) = count_alerts l + (if is_alert_line line then 1 else 0).
Proof.
  rewrite count_alerts_app. f_equal. unfold count_alerts. cbn.
  destruct (is_alert_line line); reflexivity.
Qed.

Ltac quiet_solve :=
  unfold quiet, dispatches; cbn [clock store self logger stats alerts_sent set_self
    set_logger set_store set_entropy set_stats fst snd];
  rewrite ?count_alerts_snoc; cbn [is_alert_line snd String.eqb Ascii.eqb Bool.eqb];
  repeat split; try reflexivity; try lia.

Lemma sendEmailAlert_quiet (d : value) (c : C) : quiet 0 c (snd (sendEmailAlert d c)).
Proof.
  unfold sendEmailAlert. rewrite bind_run. cbn [gets].
  destruct (negb (mailTransporter (self c)) || _); [apply quiet_refl |].
  destruct (negb (mail_up (self c))); [apply quiet_refl |].
  cbn. quiet_solve.
Qed.

Lemma sendWebhookAlert_quiet (d : value) (c : C) : quiet 0 c (snd (sendWebhookAlert d c)).
Proof.
  unfold sendWebhookAlert. rewrite bind_run. cbn [gets].
  destruct (webhookUrl (self c)) as [url |]; [| apply quiet_refl].
  destruct (String.eqb url ""); [apply quiet_refl |].
  destruct (negb (webhook_up (self c))); [apply quiet_refl |].
  cbn. quiet_solve.
Qed.

Lemma sendLogAlert_quiet (d : value) (c : C) :
  sendLogAlert d c = (Ok tt, snd (sendLogAlert d c))
  /\ quiet 1 c (snd (sendLogAlert d c)).
Proof.
  unfold sendLogAlert. split; [reflexivity |]. cbn. quiet_solve.
Qed.

(** A settled send on a channel of the threat alerts. *)
Lemma settle_quiet (ch : Channel) (d : value) (c : C) :
  ch <> audit ->
  exists b c', settle ch d c = (Ok b, c')
               /\ quiet (match ch with log_channel => 1 | _ => 0 end) c c'.
Proof.
  intros Hch. unfold settle, try_catch. rewrite bind_run.
  destruct ch; cbn [send_on]; [| | | contradiction].
  - pose proof (sendEmailAlert_quiet d c) as Hq.
    destruct (sendEmailAlert d c) as [[[] | e] c']; cbn in Hq |- *; eauto.
  - pose proof (sendWebhookAlert_quiet d c) as Hq.
    destruct (sendWebhookAlert d c) as [[[] | e] c']; cbn in Hq |- *; eauto.
  - destruct (sendLogAlert_quiet d c) as [E Hq]. rewrite E. cbn. eauto.
Qed.

Lemma warn_failures_quiet (results : list (Channel * bool)) (c : C) :
  exists c',
    for_each results (fun result =>
      when (snd result) (log Lwarn "Alert delivery failed for channel")) c = (Ok tt, c')
    /\ quiet 0 c c'.
Proof.
  revert c. induction results as [| [ch b] rest IH]; intros c.
  - exists c. split; [reflexivity | apply quiet_refl].
  - cbn [for_each]. rewrite bind_run. destruct b; cbn [snd when].
    + cbn [log modify]. destruct (IH (set_logger
        (logger c ++ [(Lwarn, "Alert delivery failed for channel")]) c)) as (c' & E & Hq).
      exists c'. split; [exact E |].
      replace 0 with (0 + 0) by lia. eapply quiet_trans; [| exact Hq].
      apply (quiet_log Lwarn "Alert delivery failed for channel" c). reflexivity.
    + cbn [ret]. apply IH.
Qed.

(** A threat alert goes out on its three channels: one alert line, Redis
    untouched. *)
Lemma executeAlert_threat (d : value) (c : C) :
  exists c', executeAlert threat d c = (Ok tt, c') /\ quiet 1 c c'.
Proof.
  unfold executeAlert. cbn [alertConfig channels settle_all].
  destruct (settle_quiet email d c) as (b1 & c1 & E1 & Q1); [discriminate |].
  destruct (settle_quiet webhook d c1) as (b2 & c2 & E2 & Q2); [discriminate |].
  destruct (settle_quiet log_channel d c2) as (b3 & c3 & E3 & Q3); [discriminate |].
  erewrite bind_ok; cycle 1.
  { erewrite bind_ok by exact E1. erewrite bind_ok; cycle 1.
    { erewrite bind_ok by exact E2. erewrite bind_ok; cycle 1.
      { erewrite bind_ok by exact E3. reflexivity. }
      reflexivity. }
    reflexivity. }
  destruct (warn_failures_quiet [(email, b1); (webhook, b2); (log_channel, b3)] c3)
    as (c' & E & Q).
  exists c'. split; [exact E |].
  replace 1 with (0 + 0 + 1 + 0) by lia.
  eapply quiet_trans; [| exact Q]. eapply quiet_trans; [| exact Q3].
  eapply quiet_trans; [exact Q1 | exact Q2].
Qed.

(** Redis after [setCooldown] wrote the marker of [key] at time [now]. *)
Definition with_marker (key : string) (ttl now : Z) (r : Redis) : Redis :=
  mkRedis (r_up r) (<[key := ("1", Some (now + ttl * 1000))]> (r_str r))
          (delete key (r_list r)).

Lemma redis_has_with_marker (key : string) (ttl now t : Z) (r : Redis) :
  redis_has t key (with_marker key ttl now r) = (t <? now + ttl * 1000).
Proof.
  unfold redis_has, redis_lookup, with_marker. cbn [r_str r_list].
  rewrite lookup_insert_eq. unfold live. cbn [snd fst].
  destruct (t <? now + ttl * 1000); [reflexivity |].
  rewrite lookup_delete_eq. reflexivity.
Qed.

Lemma isInCooldown_up (id : option value) (c : C) :
  r_up (store c) = true ->
  isInCooldown threat id c = (Ok (redis_has (clock c) (cooldown_key threat id) (store c)), c).
Proof.
  intros Hup. unfold isInCooldown, try_catch. rewrite bind_run.
  unfold redis_exists, redis_cmd. rewrite Hup.
  destruct (redis_has _ _ _); cbn; destruct c; reflexivity.
Qed.

Lemma setCooldown_up (id : option value) (c : C) :
  r_up (store c) = true ->
  setCooldown threat id c
  = (Ok tt, set_store (with_marker (cooldown_key threat id) 300 (clock c) (store c)) c).
Proof.
  intros Hup. unfold setCooldown, try_catch, redis_setEx, redis_cmd, with_marker.
  cbn [alertConfig cooldown Z.eqb]. rewrite Hup. reflexivity.
Qed.

(** The identifier under which [sendThreatAlert] keeps the cooldown of a
    result. *)
Definition identifier (tr : ThreatDetector.ThreatResult) : option value :=
  assoc "source_ip" (ThreatDetector.metadata tr).

(** Outside a cooldown window, [sendThreatAlert] dispatches the alert and
    sets the marker. *)
Lemma sendThreatAlert_dispatch (tr : ThreatDetector.ThreatResult) (c : C) :
  r_up (store c) = true ->
  redis_has (clock c) (cooldown_key threat (identifier tr)) (store c) = false ->
  exists c',
    sendThreatAlert tr c = (Ok tt, c')
    /\ clock c' = clock c
    /\ store c' = with_marker (cooldown_key threat (identifier tr)) 300 (clock c) (store c)
    /\ alerts_sent (stats (self c')) = alerts_sent (stats (self c)) + 1
    /\ dispatches c' = dispatches c + 1.
Proof.
  intros Hup Hidle. unfold sendThreatAlert. cbv zeta. fold (identifier tr).
  set (body := bind _ _).
  assert (Hb : exists c', body c = (Ok tt, c')
             /\ clock c' = clock c
             /\ store c' = with_marker (cooldown_key threat (identifier tr)) 300
                             (clock c) (store c)
             /\ alerts_sent (stats (self c')) = alerts_sent (stats (self c)) + 1
             /\ dispatches c' = dispatches c + 1).
  { subst body.
    erewrite bind_ok by (apply isInCooldown_up; exact Hup).
    rewrite Hidle.
    erewrite bind_ok by reflexivity.
    erewrite bind_ok by reflexivity.
    match goal with
    | |- context [executeAlert threat ?d] =>
        destruct (executeAlert_threat d (set_entropy (S (entropy c)) c))
          as (c1 & E1 & (Q1 & Q2 & Q3 & Q4))
    end.
    erewrite bind_ok by exact E1.
    cbn [clock store set_entropy] in Q1, Q2.
    assert (Hup1 : r_up (store c1) = true) by (rewrite Q2; exact Hup).
    erewrite bind_ok by (apply setCooldown_up; exact Hup1).
    erewrite bind_ok by reflexivity.
    erewrite bind_ok by reflexivity.
    eexists. split; [reflexivity |].
    unfold dispatches in *.
    cbn [clock store self logger stats alerts_sent set_self set_logger set_store
         set_entropy set_stats bump_sent] in *.
    rewrite count_alerts_snoc. cbn [is_alert_line snd].
    rewrite Q1, Q2, Q3, Q4. repeat split; try reflexivity; cbn; lia. }
  destruct Hb as (c' & Hb & Hrest). exists c'. split; [| exact Hrest].
  apply try_catch_ok. exact Hb.
Qed.

(** Inside the window it logs that it skips, and nothing else. *)
Lemma sendThreatAlert_suppress (tr : ThreatDetector.ThreatResult) (c : C) :
  r_up (store c) = true ->
  redis_has (clock c) (cooldown_key threat (identifier tr)) (store c) = true ->
  exists c', sendThreatAlert tr c = (Ok tt, c') /\ quiet 0 c c'.
Proof.
  intros Hup Hcool. unfold sendThreatAlert. cbv zeta. fold (identifier tr).
  eexists. split.
  - apply try_catch_ok.
    erewrite bind_ok by (apply isInCooldown_up; exact Hup).
    rewrite Hcool. reflexivity.
  - apply (quiet_log Ldebug "Threat alert in cooldown period, skipping" c). reflexivity.
Qed.


End Facts.

End AlertFacts.

(** ** The audit logger *)

Module AuditFacts.
Import AuditLogger.

Section Facts.
Context `{Host}.
#[local] Abbreviation C := (Ctx Mongo Logger).

(** An entry whose stored hash is the digest of its canonical fields. *)
Definition sealed (e : AuditEntry) : Prop := hash e = calculateEntryHash e.

(** What the helpers of the logger leave alone: the clock, the buffer, the
    key and the configuration, the counters of entries written and of
    integrity violations, the state of the connection and the collection
    of audit logs. *)
Definition keeps (c c' : C) : Prop :=
  clock c' = clock c
  /\ logBuffer (self c') = logBuffer (self c)
  /\ encryptionKey (self c') = encryptionKey (self c)
  /\ config (self c') = config (self c)
  /\ logs_written (stats (self c')) = logs_written (stats (self c))
  /\ readyState (store c') = readyState (store c)
  /\ reachable (store c') = reachable (store c)
  /\ security_audit_logs (store c') = security_audit_logs (store c).

Lemma keeps_refl (c : C) : keeps c c.
Proof. unfold keeps. tauto. Qed.

Lemma keeps_trans (c1 c2 c3 : C) : keeps c1 c2 -> keeps c2 c3 -> keeps c1 c3.
Proof.
  unfold keeps. intros (A1 & A2 & A3 & A4 & A5 & A6 & A7 & A8)
    (B1 & B2 & B3 & B4 & B5 & B6 & B7 & B8).
  rewrite B1, B2, B3, B4, B5, B6, B7, B8. tauto.
Qed.

Lemma keeps_log (lv : LogLevel) (msg : string) (c : C) : keeps c (snd (log lv msg c)).
Proof. unfold keeps. cbn. tauto. Qed.

(** A command that writes neither the state of the connection nor the
    audit logs. *)
Lemma mongo_cmd_keeps {X} (f : Mongo -> X * Mongo) (c : C) :
  (forall m, readyState (snd (f m)) = readyState m
             /\ reachable (snd (f m)) = reachable m
             /\ security_audit_logs (snd (f m)) = security_audit_logs m) ->
  keeps c (snd (mongo_cmd f c)).
Proof.
  intros Hf. unfold mongo_cmd.
  destruct (negb (readyState (store c) =? 1)); [apply keeps_refl |].
  destruct (negb (reachable (store c))); [apply keeps_refl |].
  specialize (Hf (store c)). destruct (f (store c)) as [a m']. cbn in Hf |- *.
  unfold keeps. cbn. tauto.
Qed.

(** A helper that always completes and keeps what [keeps] lists. *)
Definition helper {X} (m : M C X) : Prop :=
  forall c, exists a c', m c = (Ok a, c') /\ keeps c c'.

Lemma helper_log (lv : LogLevel) (msg : string) : helper (log lv msg).
Proof. intros c. eexists _, _. split; [reflexivity | apply keeps_log]. Qed.

Lemma helper_ret {X} (x : X) : helper (ret x).
Proof. intros c. eexists _, _. split; [reflexivity | apply keeps_refl]. Qed.

Lemma helper_bind {X Y} (m : M C X) (k : X -> M C Y) :
  helper m -> (forall x, helper (k x)) -> helper (bind m k).
Proof.
  intros Hm Hk c. destruct (Hm c) as (a & c1 & E1 & K1).
  destruct (Hk a c1) as (b & c2 & E2 & K2).
  exists b, c2. split; [erewrite bind_ok by exact E1; exact E2 |].
  eapply keeps_trans; eassumption.
Qed.

(** A [try] whose body keeps what [keeps] lists up to the point where it
    throws, with a handler that is a helper. *)
Lemma helper_try_catch {X} (m : M C X) (h : string -> M C X) :
  (forall c, keeps c (snd (m c))) -> (forall e, helper (h e)) ->
  helper (try_catch m h).
Proof.
  intros Hm Hh c. unfold try_catch. specialize (Hm c).
  destruct (m c) as [[a | e] c1]; cbn in Hm.
  - eauto.
  - destruct (Hh e c1) as (b & c2 & E2 & K2). exists b, c2. split; [exact E2 |].
    eapply keeps_trans; eassumption.
Qed.

(** The state after a [bind] whose two parts keep. *)
Lemma bind_keeps {X Y} (m : M C X) (k : X -> M C Y) (c : C) :
  keeps c (snd (m c)) -> (forall x c1, keeps c1 (snd (k x c1))) ->
  keeps c (snd (bind m k c)).
Proof.
  intros Hm Hk. unfold bind. destruct (m c) as [[a | e] c1]; cbn in Hm |- *.
  - eapply keeps_trans; [exact Hm | apply Hk].
  - exact Hm.
Qed.


(** [encryptData]: the envelope of the ciphertext, or the data itself and
    a warning when the cipher fails. *)
Definition envelope (x : string) : value :=
  VObj [ ("encrypted", VBool true); ("data", VStr x); ("algorithm", VStr "aes-256-cbc") ].

Lemma encryptData_run (d : value) (c : C) :
  encryptData d c
  = match cipher_hex (encryptionKey (self c)) (JSON_stringify d) with
    | Some x => (Ok (envelope x), c)
    | None => (Ok d, set_logger (logger c ++ [(Lwarn, "Data encryption error:")]) c)
    end.
Proof.
  unfold encryptData, try_catch. cbv zeta. rewrite bind_run. cbn [gets].
  destruct (cipher_hex _ _); reflexivity.
Qed.

Lemma helper_encryptData (d : value) : helper (encryptData d).
Proof.
  intros c. rewrite encryptData_run. destruct (cipher_hex _ _).
  - eexists _, _. split; [reflexivity | apply keeps_refl].
  - eexists _, _. split; [reflexivity |]. apply (keeps_log Lwarn "Data encryption error:" c).
Qed.

Lemma helper_handleConstitutionalViolation (e : AuditEntry) :
  helper (handleConstitutionalViolation e).
Proof.
  unfold handleConstitutionalViolation. apply helper_try_catch; [| intros; apply helper_log].
  intros c. apply bind_keeps; [cbn; apply keeps_refl |]. intros now c1.
  apply bind_keeps.
  - apply mongo_cmd_keeps. intros m. cbn. tauto.
  - intros [] c2. apply bind_keeps; [apply keeps_log |].
    intros [] c3. unfold keeps. cbn. tauto.
Qed.

Lemma helper_updateIntegrityChecksum (logs : list AuditEntry) :
  helper (updateIntegrityChecksum logs).
Proof.
  unfold updateIntegrityChecksum. apply helper_try_catch; [| intros; apply helper_log].
  intros c. apply bind_keeps; [cbn; apply keeps_refl |]. intros now c1. cbv zeta.
  destruct (Nat.eqb _ 0); [cbn; apply keeps_refl |].
  apply mongo_cmd_keeps. intros m. cbn. tauto.
Qed.

(** *** Flushing the buffer *)


(** The rest of [flushLogBuffer] once the batch was sent (or skipped). *)
Definition flush_rest (logsToFlush : list AuditEntry) : M C unit :=
  updateIntegrityChecksum logsToFlush ;;
  let* now := Date_now in
  modify_self (fun l =>
    set_stats (mkStats (logs_written (stats l)) (logs_encrypted (stats l))
                       (integrity_violations (stats l)) (Some now)
                       (total_size_bytes (stats l))
                       (stat_constitutional_violations (stats l))) l) ;;
  log Ldebug "Flushed audit logs to database".

Lemma helper_flush_rest (logs : list AuditEntry) : helper (flush_rest logs).
Proof.
  unfold flush_rest. apply helper_bind; [apply helper_updateIntegrityChecksum |].
  intros []. apply helper_bind.
  - intros c. eexists _, _. split; [reflexivity | apply keeps_refl].
  - intros now. apply helper_bind; [| intros; apply helper_log].
    intros c. eexists _, _. split; [reflexivity |]. unfold keeps. cbn. tauto.
Qed.

(** A flush that cannot reach the server: the batch taken from the buffer
    is in neither the buffer nor the store afterwards, and what arrived
    during the call is in the buffer twice. *)
Lemma flush_failure (arrived : list AuditEntry) (c : C) :
  logBuffer (self c) <> [] ->
  readyState (store c) = 1 -> reachable (store c) = false ->
  exists c',
    flushLogBuffer_during arrived c = (Throw "MongoNetworkError: connection closed", c')
    /\ logBuffer (self c') = (arrived ++ arrived)%list
    /\ store c' = store c
    /\ stats (self c') = stats (self c).
Proof.
  intros Hb Hready Hreach. unfold flushLogBuffer_during. rewrite bind_run. cbn [gets].
  destruct (logBuffer (self c)) as [| e0 rest] eqn:Eb; [contradiction |].
  cbn [List.length Nat.eqb]. unfold try_catch.
  rewrite bind_run. cbn [modify_self modify].
  rewrite bind_run. cbn [gets store set_self]. rewrite Hready. cbn [Z.eqb Pos.eqb].
  rewrite bind_run. cbn [modify_self modify].
  rewrite bind_run. cbn [when]. unfold mongo_cmd at 1.
  cbn [store set_self]. rewrite Hready, Hreach. cbn [Z.eqb Pos.eqb negb].
  rewrite bind_run. cbn [log modify]. rewrite bind_run. cbn [modify_self modify throw].
  eexists. split; [reflexivity |].
  cbn. destruct c; cbn. repeat split; reflexivity.
Qed.

(** A flush that goes through, or that finds the connection not open and
    skips the write. *)
Lemma flush_success (arrived : list AuditEntry) (c : C) :
  logBuffer (self c) <> [] ->
  (readyState (store c) =? 1) && negb (reachable (store c)) = false ->
  exists c',
    flushLogBuffer_during arrived c = (Ok tt, c')
    /\ logBuffer (self c') = arrived
    /\ security_audit_logs (store c')
       = (if readyState (store c) =? 1
          then (security_audit_logs (store c) ++ logBuffer (self c))%list
          else security_audit_logs (store c))
    /\ logs_written (stats (self c')) = logs_written (stats (self c))
    /\ clock c' = clock c.
Proof.
  intros Hb Hok. unfold flushLogBuffer_during. rewrite bind_run. cbn [gets].
  destruct (logBuffer (self c)) as [| e0 rest] eqn:Eb; [contradiction |].
  cbn [List.length Nat.eqb].
  set (batch := e0 :: rest).
  fold (flush_rest batch).
  set (body := bind _ _).
  assert (Hbody : exists c',
             body c = (Ok tt, c')
             /\ logBuffer (self c') = arrived
             /\ security_audit_logs (store c')
                = (if readyState (store c) =? 1
                   then (security_audit_logs (store c) ++ batch)%list
                   else security_audit_logs (store c))
             /\ logs_written (stats (self c')) = logs_written (stats (self c))
             /\ clock c' = clock c).
  { subst body.
    erewrite bind_ok by reflexivity.
    erewrite bind_ok by reflexivity.
    erewrite bind_ok by reflexivity.
    cbn [store set_self self set_buffer logBuffer app].
    destruct (readyState (store c) =? 1) eqn:Er.
    - cbn [andb] in Hok. apply negb_false_iff in Hok.
      erewrite bind_ok; cycle 1.
      { cbn [when]. unfold mongo_cmd. cbn [store set_self]. rewrite Er, Hok.
        cbn [negb]. reflexivity. }
      match goal with
      | |- context [flush_rest batch ?s] =>
          destruct (helper_flush_rest batch s)
            as ([] & c' & E & (K1 & K2 & K3 & K4 & K5 & K6 & K7 & K8))
      end.
      exists c'. split; [exact E |].
      cbn [clock store self set_store set_self set_buffer logBuffer stats
           security_audit_logs] in *.
      repeat split; assumption.
    - erewrite bind_ok by reflexivity.
      match goal with
      | |- context [flush_rest batch ?s] =>
          destruct (helper_flush_rest batch s)
            as ([] & c' & E & (K1 & K2 & K3 & K4 & K5 & K6 & K7 & K8))
      end.
      exists c'. split; [exact E |].
      cbn [clock store self set_store set_self set_buffer logBuffer stats
           security_audit_logs] in *.
      repeat split; assumption. }
  destruct Hbody as (c' & E & Hrest). exists c'. split; [| exact Hrest].
  apply try_catch_ok. exact E.
Qed.

(** C2, on the code.  A flush that finds the connection open and the
    server unreachable throws; the entries that were in the buffer when the
    flush began are then in neither the buffer nor the collection, and the
    entries that arrived during the flush are in the buffer twice. *)
Theorem failed_flush_loses_the_batch (arrived : list AuditEntry) (c : C) :
  logBuffer (self c) <> [] ->
  readyState (store c) = 1 -> reachable (store c) = false ->
  exists c',
    flushLogBuffer_during arrived c = (Throw "MongoNetworkError: connection closed", c')
    /\ logBuffer (self c') = (arrived ++ arrived)%list
    /\ security_audit_logs (store c') = security_audit_logs (store c).
Proof.
  intros Hb Hready Hreach.
  destruct (flush_failure arrived c Hb Hready Hreach) as (c' & E & Hbuf & Hst & _).
  exists c'. rewrite Hst. auto.
Qed.

(** *** Recording an event *)

Lemma try_catch_bind_ok {X Y} (m : M C X) (k : X -> M C Y) (h : string -> M C Y)
    (c c1 : C) (a : X) :
  m c = (Ok a, c1) -> try_catch (bind m k) h c = try_catch (k a) h c1.
Proof. intros E. unfold try_catch. erewrite bind_ok by exact E. reflexivity. Qed.


(** The end of [logSecurityEvent], after the entry was pushed. *)
Definition after_push (batch : Z) (entry : AuditEntry) : M C unit :=
  let* buffer := gets (fun c => logBuffer (self c)) in
  when (batch <=? Z.of_nat (List.length buffer)) flushLogBuffer ;;
  when (negb (compliant (constitutional_compliance entry)))
    (handleConstitutionalViolation entry) ;;
  log Ldebug "Security event logged:".


(** *** Invariants of the write path *)









(** *** The daily integrity check *)














(** *** The life of a logger

    One step of the process that owns the logger: an event is recorded, the
    buffer is flushed (with the entries that calls of [logSecurityEvent]
    pushed meanwhile, which seal what they push), the daily check runs,
    or time passes and the connection changes its state. *)
Inductive step : C -> C -> Prop :=
  | step_log (c : C) (t : string) (d : value) (md : list (string * value)) :
      step c (snd (logSecurityEvent t d md c))
  | step_flush (c : C) (arrived : list AuditEntry) :
      Forall sealed arrived -> step c (snd (flushLogBuffer_during arrived c))
  | step_check (c : C) :
      step c (snd (performDailyIntegrityCheck c))
  | step_env (c : C) (now ready : Z) (up : bool) :
      step c (mkCtx now (entropy c) (logger c)
                (mkMongo ready up (security_audit_logs (store c))
                   (constitutional_violations (store c)) (audit_integrity (store c)))
                (self c)).





(** *** Encryption of the payload *)



(** The query of [searchLogs] with no criterion. *)
Definition everything : Criteria := mkCriteria None None None None None None.



End Facts.

End AuditFacts.

(** ** The orchestrator *)

Module AppFacts.
Import App.

Section Facts.
Context `{Host}.

(** What a component sees of the process. *)
Definition detector_view (w : World) : Ctx Redis ThreatDetector.Detector :=
  mkCtx (clock w) (entropy w) (logger w) (redis (store w)) (threatDetector (self w)).

(** A method of a component leaves alone whatever its component and its
    store are not part of. *)
Lemma within_frame {St Se A X} (gs : Stores -> St) (ps : St -> Stores -> Stores)
    (gv : Components -> Se) (pv : Se -> Components -> Components)
    (m : M (Ctx St Se) A) (f : World -> X) :
  (forall c w, f (mkCtx (clock c) (entropy c) (logger c) (ps (store c) (store w))
                        (pv (self c) (self w))) = f w) ->
  forall w, f (snd (within gs ps gv pv m w)) = f w.
Proof. intros Hf w. unfold within, zoom. destruct (m _) as [r c']. cbn. apply Hf. Qed.

(** [validateSecurityEvent] reads its argument only. *)
Lemma validate_pure (e : value) :
  exists r, forall w, validateSecurityEvent e w = (r, w).
Proof.
  unfold validateSecurityEvent.
  destruct (negb (truthy e) || negb (typeof_object e)); [eexists; reflexivity |].
  destruct (negb (forallb _ requiredFields)); [eexists; reflexivity |].
  cbv zeta.
  assert (Hip : exists r, forall w : World,
    match opt_prop (prop e "source") "ip" with
      | Some v => if truthy v then let* ok := isIP v in ret (negb ok) else ret false
      | None => ret false
      end w = (r, w)).
  { destruct (opt_prop _ _) as [v |]; [| eexists; reflexivity].
    destruct (truthy v); [| eexists; reflexivity].
    destruct v; eexists; reflexivity. }
  destruct Hip as ([bad | err] & Hip).
  - destruct bad.
    + eexists. intros w. erewrite bind_ok by apply Hip. reflexivity.
    + destruct (prop e "timestamp") as [[] |];
        eexists; intros w; erewrite bind_ok by apply Hip; reflexivity.
  - eexists. intros w. erewrite bind_throw by apply Hip. reflexivity.
Qed.


Lemma bind_ok_inv {S A B} (m : M S A) (k : A -> M S B) (s s' : S) (b : B) :
  bind m k s = (Ok b, s') -> exists a s1, m s = (Ok a, s1) /\ k a s1 = (Ok b, s').
Proof.
  unfold bind. destruct (m s) as [[a | e] s1]; [eauto | discriminate].
Qed.


(** *** The audit trail of an accepted event *)

(** The entries that the audit logger counts as written, the logger with
    its store, and the table of the compliance checker. *)
Definition written (w : World) : Z :=
  AuditLogger.logs_written (AuditLogger.stats (auditLogger (self w))).
Definition audit_side (w : World) : AuditLogger.Logger * AuditLogger.Mongo :=
  (auditLogger (self w), mongo (store w)).
Definition principles_of (w : World) : list (string * ComplianceChecker.Principle) :=
  ComplianceChecker.constitutionalPrinciples (complianceChecker (self w)).


(** What a stretch of the processing does to the audit trail: it counts
    [n] entries written and keeps the table of principles; with no entry
    written the logger and its store are as before. *)
Definition advance (n : Z) (w w' : World) : Prop :=
  0 <= n
  /\ written w' = written w + n
  /\ principles_of w' = principles_of w
  /\ (n = 0 -> audit_side w' = audit_side w).


Lemma calm_advance (w w' : World) :
  audit_side w' = audit_side w -> principles_of w' = principles_of w -> advance 0 w w'.
Proof.
  intros Ha Hp. unfold advance. split; [lia |]. split; [| split; [exact Hp | intros _; exact Ha]].
  unfold written. unfold audit_side in Ha. injection Ha as -> _. lia.
Qed.

Lemma analyzeThreat_world (e : value) (w : World) :
  exists w2,
    analyzeThreat production e w = (Ok (ThreatFacts.verdict e (detector_view w)), w2)
    /\ advance 0 w w2.
Proof.
  pose proof (within_frame redis set_redis threatDetector set_threatDetector
                (ThreatDetector.analyzeThreat e) audit_side (fun _ _ => eq_refl) w) as Fa.
  pose proof (within_frame redis set_redis threatDetector set_threatDetector
                (ThreatDetector.analyzeThreat e) principles_of (fun _ _ => eq_refl) w) as Fp.
  cbn [analyzeThreat production]. unfold on_threatDetector in *.
  destruct (ThreatFacts.analyzeThreat_returns e (detector_view w)) as (c' & E).
  unfold within, zoom in *. fold (detector_view w) in *. rewrite E in *. cbn [snd] in *.
  eexists. split; [reflexivity |]. apply calm_advance; assumption.
Qed.




Lemma advance_bump (f : Stats -> Stats) (w : World) : advance 0 w (snd (bump f w)).
Proof. apply calm_advance; reflexivity. Qed.










(** *** A scorer that throws *)

(** The state in which the scorers run: the event is counted. *)
Definition counted (w : World) : World :=
  set_self (set_stats (mkStats (threats_detected (stats (self w)))
                               (alerts_sent (stats (self w))) (uptime (stats (self w)))
                               (processed_events (stats (self w)) + 1)
                               (constitutional_violations (stats (self w))))
                      (self w)) w.

(** What [processSecurityEvent] does for a threat. *)
Definition threat_found (sys : Collaborators) (e : value)
    (tr : ThreatDetector.ThreatResult) : M World unit :=
  bump (fun s => mkStats (threats_detected s + 1) (alerts_sent s) (uptime s)
                         (processed_events s) (constitutional_violations s)) ;;
  sendThreatAlert sys tr ;;
  bump (fun s => mkStats (threats_detected s) (alerts_sent s + 1) (uptime s)
                         (processed_events s) (constitutional_violations s)) ;;
  let* now := Date_now in
  logSecurityEvent sys "threat_detected"
    (VObj [ ("event", e); ("threat", ThreatDetector.result_value tr);
            ("timestamp", VDate now) ]).

(** The state and the answer after an exception [err] left the state [w2]:
    the two handlers log their lines, and nothing else happens. *)
Definition rethrown (w2 : World) : World :=
  set_logger (logger w2 ++ [(Lerror, "Security event processing error:")]) w2.
Definition refused (w2 : World) : World :=
  set_logger (logger w2 ++ [(Lerror, "Security event processing error:");
                            (Lerror, "Security event processing failed:")]) w2.
Definition failure_response (w2 : World) : Response :=
  mkResponse 500 (VObj [ ("error", VStr "Event processing failed");
                         ("timestamp", VStr (toISOString (clock w2))) ]).

Definition fails_with (sys : Collaborators) (e : value) (w : World) (err : string)
    (w2 : World) : Prop :=
  processSecurityEvent sys e w = (Throw err, rethrown w2)
  /\ post_security_event sys e w = (Ok (failure_response w2), refused w2).

Lemma fails_with_intro (sys : Collaborators) (e : value) (w : World) (err : string)
    (w2 : World) :
  processSecurityEvent sys e w = (Throw err, rethrown w2) -> fails_with sys e w err w2.
Proof.
  intros E. split; [exact E |].
  unfold post_security_event, try_catch. erewrite bind_throw by exact E.
  unfold refused, rethrown. cbn. destruct w2; cbn. rewrite <- List.app_assoc. reflexivity.
Qed.

(** C3, as the code has it.  For an accepted event and any collaborators:
    when [analyzeThreat] throws, or [checkEventCompliance] throws after the
    threat was handled, [processSecurityEvent] logs the error and throws it
    again, and the handler of [POST /security/event] logs it and answers
    with status 500; the state is the one the scorer left, with the two
    lines logged: nothing of the rest of the processing runs. *)
Theorem scorer_exception_is_rethrown (sys : Collaborators) (e : value) (w : World) :
  fst (validateSecurityEvent e w) = Ok true ->
  (forall err w2,
      analyzeThreat sys e (counted w) = (Throw err, w2) -> fails_with sys e w err w2)
  /\ (forall tr w3 w4 err w2,
        analyzeThreat sys e (counted w) = (Ok tr, w3) ->
        when (ThreatDetector.isThreat tr) (threat_found sys e tr) w3 = (Ok tt, w4) ->
        checkEventCompliance sys e w4 = (Throw err, w2) ->
        fails_with sys e w err w2).
Proof.
  intros Hv.
  destruct (validate_pure e) as (r & Hr). rewrite Hr in Hv. cbn [fst] in Hv. subst r.
  split.
  - intros err w2 Et. apply fails_with_intro.
    unfold processSecurityEvent. eapply eq_trans; [eapply try_catch_throw |].
    + erewrite bind_ok by reflexivity. erewrite bind_ok by apply Hr. cbn [negb].
      eapply bind_throw. exact Et.
    + reflexivity.
  - intros tr w3 w4 err w2 Et Eb Ec. apply fails_with_intro.
    unfold processSecurityEvent. eapply eq_trans; [eapply try_catch_throw |].
    + erewrite bind_ok by reflexivity. erewrite bind_ok by apply Hr. cbn [negb].
      erewrite bind_ok by exact Et. erewrite bind_ok by exact Eb.
      eapply bind_throw. exact Ec.
    + reflexivity.
Qed.

(** *** The daily integrity check in the process *)



End Facts.

End AppFacts.

(** ** Comparisons of numbers *)

Module FloatFacts.

Lemma SFcompare_antisym (x y : spec_float) :
  SFcompare y x = option_map CompOpp (SFcompare x y).
Proof.
  destruct x as [sx | sx | | sx mx ex], y as [sy | sy | | sy my ey]; cbn;
    try reflexivity; try (destruct sx; reflexivity); try (destruct sy; reflexivity);
    try (destruct sx, sy; reflexivity).
  destruct sx, sy; try reflexivity; f_equal;
    rewrite (Z.compare_antisym ex ey); destruct (ex ?= ey)%Z; cbn; try reflexivity;
    change (Pos.compare_cont Eq my mx) with (Pos.compare_cont (CompOpp Eq) my mx);
    rewrite <- (Pos.compare_cont_antisym mx my Eq);
    destruct (Pos.compare_cont Eq mx my); reflexivity.
Qed.

(** [b < a] excludes [a < b]. *)
Lemma ltb_asym (a b : float) : PrimFloat.ltb a b = true -> PrimFloat.ltb b a = false.
Proof.
  rewrite !FloatAxioms.ltb_spec. unfold SFltb. rewrite (SFcompare_antisym (Prim2SF a) (Prim2SF b)).
  destruct (SFcompare (Prim2SF a) (Prim2SF b)) as [[] |]; cbn; congruence.
Qed.

Lemma SFcompare_refl (x : spec_float) :
  SFcompare x x = match x with S754_nan => None | _ => Some Eq end.
Proof.
  destruct x as [s | s | | s m e]; cbn; try reflexivity; try (destruct s; reflexivity).
  destruct s; rewrite Z.compare_refl, Pos.compare_cont_refl; reflexivity.
Qed.

(** [NaN] compares with nothing. *)
Lemma is_nan_ltb (a b : float) :
  is_nan a = true -> PrimFloat.ltb a b = false /\ PrimFloat.ltb b a = false.
Proof.
  unfold is_nan. rewrite FloatAxioms.eqb_spec, !FloatAxioms.ltb_spec. unfold SFeqb, SFltb.
  rewrite SFcompare_refl. destruct (Prim2SF a); cbn; try discriminate.
  intros _. destruct (Prim2SF b); auto.
Qed.

(** [Math.min(a, b)] is never above [b], and [Math.max(a, b)] never below
    [a] or [b]; [Math.max] of two numbers that are not above [c] is not
    above [c]. *)
Lemma Math_min_le_r (a b : float) : PrimFloat.ltb b (Math_min a b) = false.
Proof.
  unfold Math_min. destruct (is_nan a) eqn:Ea; [apply (is_nan_ltb a b Ea) |].
  destruct (is_nan b) eqn:Eb; [apply (is_nan_ltb b b Eb) |].
  destruct (PrimFloat.ltb b a) eqn:Eba.
  - destruct (PrimFloat.ltb b b) eqn:Ebb; [| reflexivity].
    pose proof (ltb_asym b b Ebb). congruence.
  - exact Eba.
Qed.

Lemma Math_min_le_l (a b : float) : PrimFloat.ltb a (Math_min a b) = false.
Proof.
  unfold Math_min. destruct (is_nan a) eqn:Ea; [apply (is_nan_ltb a a Ea) |].
  destruct (is_nan b) eqn:Eb; [apply (is_nan_ltb b a Eb) |].
  destruct (PrimFloat.ltb b a) eqn:Eba.
  - apply ltb_asym. exact Eba.
  - destruct (PrimFloat.ltb a a) eqn:Eaa; [| reflexivity].
    pose proof (ltb_asym a a Eaa). congruence.
Qed.

Lemma Math_max_ge_l (a b : float) : PrimFloat.ltb (Math_max a b) a = false.
Proof.
  unfold Math_max. destruct (is_nan a) eqn:Ea; [apply (is_nan_ltb a a Ea) |].
  destruct (is_nan b) eqn:Eb; [apply (is_nan_ltb b a Eb) |].
  destruct (PrimFloat.ltb a b) eqn:Eab.
  - apply ltb_asym. exact Eab.
  - destruct (PrimFloat.ltb a a) eqn:Eaa; [| reflexivity].
    pose proof (ltb_asym a a Eaa). congruence.
Qed.

Lemma Math_max_le (a b c : float) :
  PrimFloat.ltb c a = false -> PrimFloat.ltb c b = false ->
  PrimFloat.ltb c (Math_max a b) = false.
Proof.
  intros Ha Hb. unfold Math_max.
  destruct (is_nan a); [exact Ha |]. destruct (is_nan b); [exact Hb |].
  destruct (PrimFloat.ltb a b); assumption.
Qed.

End FloatFacts.

(** ** What a computation may do to its state

    [moves R m]: in every outcome, returned or thrown, [m] leaves a state
    that [R] relates to the state it started from. *)
Definition moves {S A} (R : S -> S -> Prop) (m : M S A) : Prop :=
  forall s, R s (snd (m s)).

Section Moves.
Context {S : Type} (R : S -> S -> Prop).
Hypothesis R_refl : forall s, R s s.
Hypothesis R_trans : forall s1 s2 s3, R s1 s2 -> R s2 s3 -> R s1 s3.

Lemma moves_ret {A} (a : A) : moves R (ret a).
Proof. intros s. apply R_refl. Qed.

Lemma moves_throw {A} (e : string) : moves R (@throw S A e).
Proof. intros s. apply R_refl. Qed.

Lemma moves_gets {A} (f : S -> A) : moves R (gets f).
Proof. intros s. apply R_refl. Qed.

Lemma moves_modify (f : S -> S) : (forall s, R s (f s)) -> moves R (modify f).
Proof. intros Hf s. apply Hf. Qed.

Lemma moves_bind {A B} (m : M S A) (k : A -> M S B) :
  moves R m -> (forall a, moves R (k a)) -> moves R (bind m k).
Proof.
  intros Hm Hk s. unfold bind. specialize (Hm s).
  destruct (m s) as [[a | e] s1]; cbn in Hm |- *; [| exact Hm].
  eapply R_trans; [exact Hm | apply Hk].
Qed.

Lemma moves_try_catch {A} (m : M S A) (h : string -> M S A) :
  moves R m -> (forall e, moves R (h e)) -> moves R (try_catch m h).
Proof.
  intros Hm Hh s. unfold try_catch. specialize (Hm s).
  destruct (m s) as [[a | e] s1]; cbn in Hm |- *; [exact Hm |].
  eapply R_trans; [exact Hm | apply Hh].
Qed.

Lemma moves_when (b : bool) (m : M S unit) : moves R m -> moves R (when b m).
Proof. intros Hm. destruct b; [exact Hm | apply moves_ret]. Qed.

Lemma moves_for_each {A} (l : list A) (body : A -> M S unit) :
  (forall x, In x l -> moves R (body x)) -> moves R (for_each l body).
Proof.
  induction l as [| x l IH]; intros Hb; [apply moves_ret |].
  cbn [for_each]. apply moves_bind; [apply Hb; left; reflexivity |].
  intros _. apply IH. intros y Hy. apply Hb. right. exact Hy.
Qed.

End Moves.

(** On a component paired with an object under construction. *)
Section MovesObject.
Context {S O : Type} (P : S -> S -> Prop) (Q : O -> O -> Prop).

Definition both (a a' : S * O) : Prop := P (fst a) (fst a') /\ Q (snd a) (snd a').

Lemma both_refl : (forall s, P s s) -> (forall o, Q o o) -> forall a, both a a.
Proof. intros HP HQ a. split; [apply HP | apply HQ]. Qed.

Lemma both_trans :
  (forall s1 s2 s3, P s1 s2 -> P s2 s3 -> P s1 s3) ->
  (forall o1 o2 o3, Q o1 o2 -> Q o2 o3 -> Q o1 o3) ->
  forall a1 a2 a3, both a1 a2 -> both a2 a3 -> both a1 a3.
Proof. intros HP HQ a1 a2 a3 [A1 A2] [B1 B2]. split; eauto. Qed.

Lemma moves_up {A} (m : M S A) :
  (forall o, Q o o) -> moves P m -> moves both (@up S O A m).
Proof.
  intros HQ Hm [s o]. unfold up, zoom. cbn [fst snd]. specialize (Hm s).
  destruct (m s) as [r s']. cbn in Hm |- *. split; [exact Hm | apply HQ].
Qed.

Lemma moves_mutate (f : O -> O) :
  (forall s, P s s) -> (forall o, Q o (f o)) -> moves both (@mutate S O f).
Proof. intros HP Hf [s o]. cbn. split; [apply HP | apply Hf]. Qed.

End MovesObject.

Module RegexFacts.

(** The character before the text that follows [pre]. *)
Fixpoint last_char (prev : option ascii) (pre : string) : option ascii :=
  match pre with
  | EmptyString => prev
  | String c rest => last_char (Some c) rest
  end.

Lemma append_cons (x : ascii) (a b : string) :
  (String x a ++ b)%string = String x (a ++ b).
Proof. reflexivity. Qed.

Lemma append_assoc (a b c : string) : ((a ++ b) ++ c)%string = (a ++ (b ++ c))%string.
Proof.
  induction a as [| x a IH]; [reflexivity |]. rewrite !append_cons, IH. reflexivity.
Qed.

Lemma last_char_app (prev : option ascii) (a b : string) :
  last_char prev (a ++ b) = last_char (last_char prev a) b.
Proof.
  revert prev. induction a as [| x a IH]; intros prev; [reflexivity |].
  rewrite append_cons. cbn [last_char]. apply IH.
Qed.

(** A match at some position is found by the search from the left. *)
Lemma rx_search_found (ci : bool) (r : regex) (pre s : string) :
  forall (prev : option ascii) (pos : nat),
    rx ci r (last_char prev pre) s (fun _ t => Some t) <> None ->
    rx_search ci r prev (pre ++ s) pos <> None.
Proof.
  induction pre as [| c pre IH]; intros prev pos Hm.
  - change (rx_search ci r prev s pos <> None). cbn [last_char] in Hm.
    destruct s as [| d s']; cbn [rx_search];
      destruct (rx ci r prev _ _); [discriminate | contradiction | discriminate | contradiction].
  - rewrite append_cons. cbn [last_char] in Hm. cbn [rx_search].
    destruct (rx ci r prev _ _); [discriminate |]. apply IH. exact Hm.
Qed.

Lemma RegExp_test_found (re : RegExp) (pre s : string) :
  rx (ignoreCase re) (tree re) (last_char None pre) s (fun _ t => Some t) <> None ->
  RegExp_test re (pre ++ s) = true.
Proof.
  intros Hm. unfold RegExp_test, RegExp_exec.
  pose proof (rx_search_found (ignoreCase re) (tree re) pre s None 0 Hm) as Hs.
  destruct (rx_search _ _ _ _ _); [reflexivity | contradiction].
Qed.

(** [/[;&|`$(){}[\]]/g] *)
Definition shell_characters : RegExp :=
  re_g "[;&|`$(){}[\]]" (RCls (COneOf ";&|`$(){}[]")).

(** [/\b(violent|threat|harm|kill|destroy)\b/i] *)
Definition violent_words : RegExp :=
  re_i "\b(violent|threat|harm|kill|destroy)\b"
       (seqs [wb; words ["violent"; "threat"; "harm"; "kill"; "destroy"]; wb]).

Lemma shell_characters_listed :
  exists pats, In ("command_injection", pats) ThreatDetector.defaultPatterns
               /\ In shell_characters pats.
Proof.
  eexists. split.
  - unfold ThreatDetector.defaultPatterns. do 4 right. left. reflexivity.
  - left. reflexivity.
Qed.

Lemma violent_words_listed : In violent_words AuditLogger.harmfulPatterns.
Proof. right. left. reflexivity. Qed.

Section Facts.
Context `{Host}.

(** The text of an object and of an array begins with a character of the
    class. *)
Lemma shell_characters_object (fs : list (string * value)) :
  RegExp_test shell_characters (JSON_stringify (VObj fs)) = true.
Proof. reflexivity. Qed.

Lemma shell_characters_array (items : list value) :
  RegExp_test shell_characters (JSON_stringify (VArr items)) = true.
Proof. reflexivity. Qed.

(** The text of an object with a key [threat] after its first key holds
    the word [threat] between two quotes. *)
Lemma violent_words_threat_key (k : string) (v t : value) (rest : list (string * value)) :
  RegExp_test violent_words (JSON_stringify (VObj ((k, v) :: ("threat", t) :: rest))) = true.
Proof.
  cbn [JSON_stringify map fst snd].
  set (f := fun kv : string * value => (json_quote (fst kv) ++ ":" ++ JSON_stringify (snd kv))%string).
  set (jv := JSON_stringify v). set (jt := JSON_stringify t).
  set (others := map f rest). clearbody jv jt others.
  assert (E : exists tail,
             ("{" ++ join "," ((json_quote k ++ ":" ++ jv)
                              :: (json_quote "threat" ++ ":" ++ jt) :: others) ++ "}")%string
             = ((("{" ++ json_quote k ++ ":" ++ jv ++ ",") ++ str1 dquote)
                ++ String "t" (String "h" (String "r" (String "e" (String "a" (String "t"
                     (String dquote tail)))))))%string).
  { cbn [join]. destruct others as [| x l].
    - eexists. rewrite !append_assoc. unfold json_quote at 2.
      change (json_escape "threat") with "threat".
      rewrite !append_cons. reflexivity.
    - eexists. rewrite !append_assoc. unfold json_quote at 2.
      change (json_escape "threat") with "threat".
      rewrite !append_cons. reflexivity. }
  destruct E as (tail & E). rewrite E. apply RegExp_test_found.
  rewrite last_char_app. cbn [last_char str1].
  generalize (last_char None ("{" ++ json_quote k ++ ":" ++ jv ++ ",")). intros p.
  destruct tail; vm_compute; discriminate.
Qed.

End Facts.

End RegexFacts.

(** ** The threat detector: what the analysers do to a result *)

Module DetectorFacts.
Import ThreatDetector.

Section Facts.
Context `{Host}.
#[local] Abbreviation C := (Ctx Redis Detector).
#[local] Abbreviation A := (C * ThreatResult)%type.

(** The fields of the detector stay as they are. *)
Definition same_self (c c' : C) : Prop := self c' = self c.

Lemma same_self_refl (c : C) : same_self c c.
Proof. reflexivity. Qed.

Lemma same_self_trans (c1 c2 c3 : C) : same_self c1 c2 -> same_self c2 c3 -> same_self c1 c3.
Proof. unfold same_self. congruence. Qed.

Lemma self_log (lv : LogLevel) (msg : string) : moves same_self (log lv msg).
Proof. intros c. reflexivity. Qed.

Lemma self_redis_cmd {X} (f : Z -> Redis -> X * Redis) : moves same_self (redis_cmd f).
Proof.
  intros c. unfold redis_cmd. destruct (r_up (store c)); [| reflexivity].
  destruct (f (clock c) (store c)). reflexivity.
Qed.

Ltac self_step :=
  lazymatch goal with
  | |- moves _ (bind _ _) =>
      apply (moves_bind same_self same_self_trans); [| intros ?]
  | |- moves _ (try_catch _ _) =>
      apply (moves_try_catch same_self same_self_trans); [| intros ?]
  | |- moves _ (ret _) => apply (moves_ret same_self same_self_refl)
  | |- moves _ (log _ _) => apply self_log
  | |- moves _ Date_now => apply (moves_gets same_self same_self_refl)
  | |- moves _ (redis_get _) => apply self_redis_cmd
  | |- moves _ (redis_setEx _ _ _) => apply self_redis_cmd
  | |- moves _ (redis_lRange_all _) => apply self_redis_cmd
  end.

Lemma self_getIPRequestCount (ip : value) : moves same_self (getIPRequestCount ip).
Proof. unfold getIPRequestCount. repeat (cbv zeta; self_step). Qed.

Lemma self_getSuspiciousActivityScore (ip : value) :
  moves same_self (getSuspiciousActivityScore ip).
Proof. unfold getSuspiciousActivityScore. repeat (cbv zeta; self_step). Qed.

Lemma self_getRecentRequestsByIP (ip : value) (seconds : Z) :
  moves same_self (getRecentRequestsByIP ip seconds).
Proof. unfold getRecentRequestsByIP. repeat (cbv zeta; self_step). Qed.

(** *** A preorder on results that every write of the analysers follows *)

Section Along.
Variable Q : ThreatResult -> ThreatResult -> Prop.
Variable allowed : string -> Prop.
Hypothesis Q_refl : forall r, Q r r.
Hypothesis Q_trans : forall r1 r2 r3, Q r1 r2 -> Q r2 r3 -> Q r1 r3.
Hypothesis Q_isThreat : forall r, Q r (set_isThreat true r).
Hypothesis Q_push : forall t r, Q r (push_threatType t r).
Hypothesis Q_severity : forall s r, Q r (set_severity s r).
Hypothesis Q_confidence : forall x r, Q r (add_confidence x r).
Hypothesis Q_compliant : forall r, Q r (set_compliant false r).
Hypothesis Q_metadata : forall k v r, allowed k -> Q r (set_metadata k v r).
Hypothesis allowed_fixed :
  forall k, In k [ "request_count"; "recent_requests"; "payload_size"; "geolocation";
                   "user_agent"; "constitutional_violations" ] -> allowed k.

#[local] Abbreviation along := (both same_self Q).

Lemma along_refl (a : A) : along a a.
Proof. apply both_refl; [apply same_self_refl | apply Q_refl]. Qed.

Lemma along_trans (a1 a2 a3 : A) : along a1 a2 -> along a2 a3 -> along a1 a3.
Proof. apply both_trans; [apply same_self_trans | apply Q_trans]. Qed.

(** A write built from the setters of a result. *)
Ltac write :=
  repeat first
    [ apply Q_refl
    | eapply Q_trans; [| apply Q_isThreat ]
    | eapply Q_trans; [| apply Q_push ]
    | eapply Q_trans; [| apply Q_severity ]
    | eapply Q_trans; [| apply Q_confidence ]
    | eapply Q_trans; [| apply Q_compliant ]
    | eapply Q_trans; [| apply Q_metadata; apply allowed_fixed; cbn; tauto ] ].

Ltac along_step :=
  lazymatch goal with
  | |- moves _ (bind _ _) => apply (moves_bind along along_trans); [| intros ?]
  | |- moves _ (try_catch _ _) => apply (moves_try_catch along along_trans); [| intros ?]
  | |- moves _ (when _ _) => apply (moves_when along along_refl)
  | |- moves _ (ret _) => apply (moves_ret along along_refl)
  | |- moves _ (throw _) => apply (moves_throw along along_refl)
  | |- moves _ (member _ _) => unfold member
  | |- moves _ (up _) => apply (moves_up same_self Q _ Q_refl)
  | |- moves _ (mutate _) =>
      apply (moves_mutate same_self Q _ same_self_refl); intros ?; write
  | |- moves _ (log _ _) => apply self_log
  | |- moves _ Date_now => apply (moves_gets same_self same_self_refl)
  | |- moves _ (gets _) => apply (moves_gets same_self same_self_refl)
  | |- moves _ (getIPRequestCount _) => apply self_getIPRequestCount
  | |- moves _ (getSuspiciousActivityScore _) => apply self_getSuspiciousActivityScore
  | |- moves _ (getRecentRequestsByIP _ _) => apply self_getRecentRequestsByIP
  | |- moves _ (match ?x with _ => _ end) => destruct x
  end.
Ltac along_solve := repeat (cbv zeta; along_step).

Lemma along_isOutdatedBrowser (parsed : value) : moves along (isOutdatedBrowser parsed).
Proof. unfold isOutdatedBrowser. along_solve. Qed.

Lemma along_isUserAgentSpoofed (parsed : value) : moves along (isUserAgentSpoofed parsed).
Proof. unfold isUserAgentSpoofed. along_solve. Qed.

Lemma along_analyzeIPThreat (e : value) : moves along (analyzeIPThreat e).
Proof. unfold analyzeIPThreat. along_solve. Qed.

Lemma along_analyzeAnomalousActivity (e : value) :
  moves along (analyzeAnomalousActivity e).
Proof. unfold analyzeAnomalousActivity. along_solve. Qed.

Lemma along_analyzeGeolocation (e : value) : moves along (analyzeGeolocation e).
Proof. unfold analyzeGeolocation. along_solve. Qed.

Lemma along_analyzeUserAgent (e : value) : moves along (analyzeUserAgent e).
Proof.
  unfold analyzeUserAgent. along_solve;
    first [apply along_isOutdatedBrowser | apply along_isUserAgentSpoofed].
Qed.

Lemma along_analyzeConstitutionalCompliance (e : value) :
  moves along (analyzeConstitutionalCompliance e).
Proof. unfold analyzeConstitutionalCompliance. along_solve. Qed.

(** A test of one pattern of a category whose name may be a key of
    [metadata]. *)
Lemma along_test_pattern (requestString threatType : string) (pattern : RegExp) :
  allowed threatType -> moves along (test_pattern requestString threatType pattern).
Proof.
  intros Hk. unfold test_pattern.
  apply (moves_when along along_refl).
  apply (moves_bind along along_trans); [along_solve | intros _].
  apply (moves_bind along along_trans).
  { apply (moves_mutate same_self Q _ same_self_refl). intros r.
    destruct (_ <? _); [apply Q_severity | apply Q_refl]. }
  intros _. apply (moves_bind along along_trans).
  { apply (moves_mutate same_self Q _ same_self_refl). intros r.
    eapply Q_trans; [apply Q_confidence | apply Q_metadata; exact Hk]. }
  intros _. along_solve.
Qed.

(** The table of patterns whose every category may be a key. *)
Definition table_allowed (d : Detector) : Prop :=
  Forall (fun entry => allowed (fst entry)) (threatPatterns d).

Lemma along_analyzePatternThreat (e : value) (a : A) :
  table_allowed (self (fst a)) -> along a (snd (analyzePatternThreat e a)).
Proof.
  intros Ht. destruct a as [c r]. cbn [fst] in Ht.
  unfold analyzePatternThreat, try_catch. cbv zeta.
  erewrite bind_ok by reflexivity.
  match goal with
  | |- context [for_each ?l ?body ?s] =>
      assert (Hb : along (c, r) (snd (for_each l body s)))
  end.
  { apply (moves_for_each along along_refl along_trans). intros [cat pats] Hin.
    apply (moves_for_each along along_refl along_trans). intros p _.
    apply along_test_pattern.
    unfold table_allowed in Ht. rewrite List.Forall_forall in Ht. apply (Ht _ Hin). }
  destruct (for_each _ _ _) as [[[] | err] a1]; cbn [snd] in Hb |- *; [exact Hb |].
  eapply along_trans; [exact Hb |].
  apply (moves_up same_self Q _ Q_refl). apply self_log.
Qed.

(** The analysis after the patterns, after the source, and as a whole. *)
Lemma along_after_patterns (e : value) :
  (forall r, Q r (calculateThreatScore r)) ->
  moves along (analyzeAnomalousActivity e ;;
               analyzeGeolocation e ;;
               analyzeUserAgent e ;;
               analyzeConstitutionalCompliance e ;;
               mutate calculateThreatScore).
Proof.
  intros Hscore.
  apply (moves_bind along along_trans); [apply along_analyzeAnomalousActivity |].
  intros _. apply (moves_bind along along_trans); [apply along_analyzeGeolocation |].
  intros _. apply (moves_bind along along_trans); [apply along_analyzeUserAgent |].
  intros _.
  apply (moves_bind along along_trans); [apply along_analyzeConstitutionalCompliance |].
  intros _. apply (moves_mutate same_self Q _ same_self_refl). exact Hscore.
Qed.

Lemma along_after_source (e : value) (a : A) :
  table_allowed (self (fst a)) ->
  (forall r, Q r (calculateThreatScore r)) ->
  along a (snd ((analyzePatternThreat e ;;
                 analyzeAnomalousActivity e ;;
                 analyzeGeolocation e ;;
                 analyzeUserAgent e ;;
                 analyzeConstitutionalCompliance e ;;
                 mutate calculateThreatScore) a)).
Proof.
  intros Ht Hscore.
  rewrite bind_run. pose proof (along_analyzePatternThreat e a Ht) as H2.
  destruct (analyzePatternThreat e a) as [[[] | err] a2]; cbn [snd] in H2 |- *;
    [| exact H2].
  eapply along_trans; [exact H2 |]. apply (along_after_patterns e Hscore).
Qed.

Lemma along_analysis (e : value) (a : A) :
  table_allowed (self (fst a)) ->
  (forall r, Q r (calculateThreatScore r)) ->
  along a (snd (analysis e a)).
Proof.
  intros Ht Hscore. unfold analysis.
  rewrite bind_run. pose proof (along_analyzeIPThreat e a) as H1.
  destruct (analyzeIPThreat e a) as [[[] | err] a1]; cbn [snd] in H1 |- *; [| exact H1].
  assert (Ht1 : table_allowed (self (fst a1))).
  { destruct H1 as [H1 _]. unfold same_self in H1. rewrite H1. exact Ht. }
  eapply along_trans; [exact H1 |]. apply (along_after_source e a1 Ht1 Hscore).
Qed.

(** A source on the blacklist: whatever the rest of [analyzeIPThreat]
    does, and whether it throws, the result follows from the one that the
    first write left. *)
Lemma along_analyzeIPThreat_blacklisted (e : value) (ip : string) (c : C)
    (r0 : ThreatResult) :
  opt_prop (prop e "source") "ip" = Some (VStr ip) -> ip <> "" ->
  ip ∈ ipBlacklist (self c) ->
  Q (add_confidence 0.9
       (set_severity high (push_threatType "blacklisted_ip" (set_isThreat true r0))))
    (snd (snd (analyzeIPThreat e (c, r0)))).
Proof.
  intros Hip Hne Hin. unfold analyzeIPThreat. rewrite Hip. cbn [truthy].
  apply String.eqb_neq in Hne. rewrite Hne. cbn [negb].
  unfold try_catch. erewrite bind_ok by reflexivity. cbn [fst].
  rewrite bool_decide_eq_true_2 by exact Hin.
  erewrite bind_ok by reflexivity.
  match goal with
  | |- context [bind (up (getIPRequestCount ?v)) ?k ?st] =>
      assert (Hr : moves along (bind (up (getIPRequestCount v)) k)) by along_solve;
      specialize (Hr st); destruct (bind (up (getIPRequestCount v)) k st)
        as [[[] | err] a1]
  end; cbn [snd] in Hr |- *.
  - apply Hr.
  - eapply Q_trans; [apply Hr |]. cbn [log up zoom modify fst snd]. apply Q_refl.
Qed.

End Along.

(** *** What no analyser takes back *)

(** A result only grows: [isThreat] once set stays set, a category once
    pushed stays in [threatTypes], and [constitutional_compliant] once
    cleared stays cleared. *)
Definition grows (r r' : ThreatResult) : Prop :=
  (isThreat r = true -> isThreat r' = true)
  /\ (forall t, In t (threatTypes r) -> In t (threatTypes r'))
  /\ (constitutional_compliant r = false -> constitutional_compliant r' = false).

Lemma grows_refl (r : ThreatResult) : grows r r.
Proof. unfold grows. tauto. Qed.

Lemma grows_trans (r1 r2 r3 : ThreatResult) : grows r1 r2 -> grows r2 r3 -> grows r1 r3.
Proof. unfold grows. intros (A1 & A2 & A3) (B1 & B2 & B3). repeat split; auto. Qed.

Lemma grows_calculateThreatScore (r : ThreatResult) : grows r (calculateThreatScore r).
Proof.
  unfold calculateThreatScore. cbv zeta.
  repeat match goal with
         | |- context [if ?b then _ else _] => destruct b
         end; unfold grows; cbn; tauto.
Qed.

Lemma grows_analysis (e : value) (a : A) : both same_self grows a (snd (analysis e a)).
Proof.
  apply (along_analysis grows (fun _ => True)); try (unfold grows; cbn; tauto).
  - apply grows_trans.
  - intros t r. unfold grows. cbn. repeat split; auto. intros t' Ht. apply in_or_app. auto.
  - unfold table_allowed. apply Forall_forall. auto.
  - apply grows_calculateThreatScore.
Qed.


Lemma all_allowed (d : Detector) : table_allowed (fun _ => True) d.
Proof. unfold table_allowed. apply Forall_forall. auto. Qed.

Lemma grows_push (t : string) (r : ThreatResult) : grows r (push_threatType t r).
Proof.
  unfold grows. cbn. repeat split; auto. intros t' Ht. apply in_or_app. auto.
Qed.

(** *** The patterns *)

(** What a test that matched leaves in the result for its category. *)
Definition hit (cat : string) (r : ThreatResult) : Prop :=
  isThreat r = true /\ In cat (threatTypes r)
  /\ getSeverityLevel (severityMap cat) <= getSeverityLevel (severity r)
  /\ (cat = "constitutional_violation" -> constitutional_compliant r = false).

(** A result grows and its severity does not go down. *)
Definition rises (r r' : ThreatResult) : Prop :=
  grows r r' /\ getSeverityLevel (severity r) <= getSeverityLevel (severity r').

Lemma rises_refl (r : ThreatResult) : rises r r.
Proof. split; [apply grows_refl | lia]. Qed.

Lemma rises_trans (r1 r2 r3 : ThreatResult) : rises r1 r2 -> rises r2 r3 -> rises r1 r3.
Proof. intros [A1 A2] [B1 B2]. split; [eapply grows_trans; eassumption | lia]. Qed.

Lemma hit_rises (cat : string) (r r' : ThreatResult) : hit cat r -> rises r r' -> hit cat r'.
Proof.
  intros (H1 & H2 & H3 & H4) [(G1 & G2 & G3) Hl]. unfold hit.
  repeat split; auto. lia.
Qed.

Lemma test_pattern_run (rs cat : string) (p : RegExp) (a : A) :
  exists a',
    test_pattern rs cat p a = (Ok tt, a')
    /\ same_self (fst a) (fst a') /\ rises (snd a) (snd a')
    /\ (RegExp_test p rs = true -> hit cat (snd a')).
Proof.
  destruct a as [c r]. unfold test_pattern.
  destruct (RegExp_test p rs); cbn [when].
  - destruct (String.eqb cat "constitutional_violation") eqn:Ecv;
      destruct (getSeverityLevel (severity r) <? getSeverityLevel (severityMap cat)) eqn:El;
      (eexists; split;
       [ unfold bind, mutate, modify, when, up, zoom, log; cbn [fst snd set_isThreat
           push_threatType severity]; rewrite ?El, ?Ecv; cbn [fst snd modify]; reflexivity
       | ]);
      cbn [fst snd]; (split; [reflexivity |]);
      (try apply Z.ltb_lt in El); (try apply Z.ltb_ge in El);
      unfold rises, grows, hit; cbn;
      repeat split; auto; try lia; try (intros t Ht; apply in_or_app; auto);
      try (apply in_or_app; right; left; reflexivity);
      try (intros ->; discriminate Ecv).
  - exists (c, r). split; [reflexivity |]. split; [reflexivity |].
    split; [apply rises_refl | discriminate].
Qed.

Lemma patterns_run (rs cat : string) (pats : list RegExp) (a : A) :
  exists a',
    for_each pats (test_pattern rs cat) a = (Ok tt, a')
    /\ same_self (fst a) (fst a') /\ rises (snd a) (snd a')
    /\ (forall p, In p pats -> RegExp_test p rs = true -> hit cat (snd a')).
Proof.
  revert a. induction pats as [| p pats IH]; intros a.
  - exists a. split; [reflexivity |]. split; [reflexivity |].
    split; [apply rises_refl | intros p []].
  - destruct (test_pattern_run rs cat p a) as (a1 & E1 & S1 & R1 & H1).
    destruct (IH a1) as (a2 & E2 & S2 & R2 & H2).
    exists a2. cbn [for_each]. erewrite bind_ok by exact E1.
    split; [exact E2 |]. split; [eapply same_self_trans; eassumption |].
    split; [eapply rises_trans; eassumption |].
    intros q [<- | Hq] Hm.
    + eapply hit_rises; [apply H1; exact Hm | exact R2].
    + apply (H2 q Hq Hm).
Qed.

Lemma table_run (rs : string) (table : list (string * list RegExp)) (a : A) :
  exists a',
    for_each table (fun entry => for_each (snd entry) (test_pattern rs (fst entry))) a
    = (Ok tt, a')
    /\ same_self (fst a) (fst a') /\ rises (snd a) (snd a')
    /\ (forall cat pats p, In (cat, pats) table -> In p pats ->
                           RegExp_test p rs = true -> hit cat (snd a')).
Proof.
  revert a. induction table as [| [cat0 pats0] table IH]; intros a.
  - exists a. split; [reflexivity |]. split; [reflexivity |].
    split; [apply rises_refl | intros cat pats p []].
  - destruct (patterns_run rs cat0 pats0 a) as (a1 & E1 & S1 & R1 & H1).
    destruct (IH a1) as (a2 & E2 & S2 & R2 & H2).
    exists a2. cbn [for_each fst snd]. erewrite bind_ok by exact E1.
    split; [exact E2 |]. split; [eapply same_self_trans; eassumption |].
    split; [eapply rises_trans; eassumption |].
    intros cat pats p [Heq | Hin] Hp Hm.
    + injection Heq as <- <-. eapply hit_rises; [apply (H1 p Hp Hm) | exact R2].
    + apply (H2 cat pats p Hin Hp Hm).
Qed.

(** X1.  [analyzePatternThreat] always completes.  It never lowers the
    severity of the result it is given, takes back neither [isThreat] nor
    a category; and for every pattern of the table that matches the text
    of [data], the result is a threat, lists the category of the pattern
    and has a severity at least that of the category (and is not
    compliant when the category is [constitutional_violation]). *)
Theorem analyzePatternThreat_raises_severity (e : value) (a : A) :
  exists a',
    analyzePatternThreat e a = (Ok tt, a')
    /\ getSeverityLevel (severity (snd a)) <= getSeverityLevel (severity (snd a'))
    /\ (isThreat (snd a) = true -> isThreat (snd a') = true)
    /\ (forall t, In t (threatTypes (snd a)) -> In t (threatTypes (snd a')))
    /\ (forall cat pats p,
          In (cat, pats) (threatPatterns (self (fst a))) -> In p pats ->
          RegExp_test p (requestString_of e) = true ->
          isThreat (snd a') = true /\ In cat (threatTypes (snd a'))
          /\ getSeverityLevel (severityMap cat) <= getSeverityLevel (severity (snd a'))
          /\ (cat = "constitutional_violation" ->
              constitutional_compliant (snd a') = false)).
Proof.
  destruct (table_run (requestString_of e) (threatPatterns (self (fst a))) a)
    as (a' & E & _ & [(G1 & G2 & _) Hl] & Hh).
  exists a'. split.
  - unfold analyzePatternThreat. cbv zeta. apply try_catch_ok.
    erewrite bind_ok; [exact E |]. destruct a. reflexivity.
  - repeat split; try assumption; apply (Hh cat pats p); assumption.
Qed.

(** *** The result of [analyzeThreat] *)

Ltac grows_side :=
  first [ apply grows_refl | apply grows_trans | apply grows_push
        | apply grows_calculateThreatScore | apply all_allowed
        | intros; unfold grows; cbn; tauto ].

Lemma grows_analyzeIPThreat (e : value) : moves (both same_self grows) (analyzeIPThreat e).
Proof. apply (along_analyzeIPThreat grows (fun _ => True)); grows_side. Qed.

Lemma grows_after_patterns (e : value) :
  moves (both same_self grows)
    (analyzeAnomalousActivity e ;;
     analyzeGeolocation e ;;
     analyzeUserAgent e ;;
     analyzeConstitutionalCompliance e ;;
     mutate calculateThreatScore).
Proof. apply (along_after_patterns grows (fun _ => True)); grows_side. Qed.

Lemma grows_after_source (e : value) (a : A) :
  both same_self grows a
    (snd ((analyzePatternThreat e ;;
           analyzeAnomalousActivity e ;;
           analyzeGeolocation e ;;
           analyzeUserAgent e ;;
           analyzeConstitutionalCompliance e ;;
           mutate calculateThreatScore) a)).
Proof. apply (along_after_source grows (fun _ => True)); grows_side. Qed.

(** The state in which [analyzeThreat] starts the analysis. *)
Definition start (c : C) : A :=
  (set_self (bump_analyzed (self c)) c, mkResult false [] low 0.0 [] (clock c) true).

Lemma total_analyzeIPThreat (e : value) : total (analyzeIPThreat e).
Proof. unfold analyzeIPThreat. apply ThreatFacts.total_analyzer. Qed.

(** A pattern of the table that matches the text of [data] decides the
    verdict. *)
Lemma verdict_hit (e : value) (c : C) (cat : string) (pats : list RegExp) (p : RegExp) :
  In (cat, pats) (threatPatterns (self c)) -> In p pats ->
  RegExp_test p (requestString_of e) = true ->
  isThreat (ThreatFacts.verdict e c) = true
  /\ In cat (threatTypes (ThreatFacts.verdict e c))
  /\ (cat = "constitutional_violation" ->
      constitutional_compliant (ThreatFacts.verdict e c) = false).
Proof.
  intros Hin Hp Hm.
  unfold ThreatFacts.verdict. fold (start c). unfold analysis.
  destruct (total_analyzeIPThreat e (start c)) as ([] & a1 & E1).
  pose proof (grows_analyzeIPThreat e (start c)) as [S1 _]. rewrite E1 in S1.
  cbn [snd fst start] in S1.
  erewrite bind_ok by exact E1.
  destruct (table_run (requestString_of e) (threatPatterns (self (fst a1))) a1)
    as (a2 & E2 & _ & _ & Hh).
  assert (E2' : analyzePatternThreat e a1 = (Ok tt, a2)).
  { unfold analyzePatternThreat. cbv zeta. apply try_catch_ok.
    erewrite bind_ok; [exact E2 |]. destruct a1. reflexivity. }
  erewrite bind_ok by exact E2'.
  destruct (Hh cat pats p) as (H1 & H2 & _ & H4); [| exact Hp | exact Hm |].
  { unfold same_self in S1. rewrite S1. exact Hin. }
  destruct (grows_after_patterns e a2) as [_ (G1 & G2 & G3)].
  repeat split; auto.
Qed.

(** X2.  Whatever the event and the state of the detector,
    [analyzeThreat] returns a result; and if the text of [data] matches a
    pattern of the table, the result is a threat and lists the category of
    the pattern, whatever the other analysers find or fail to do; a match
    in the category [constitutional_violation] makes the result not
    compliant. *)
Theorem matching_pattern_is_a_threat (e : value) (c : C)
    (cat : string) (pats : list RegExp) (p : RegExp) :
  In (cat, pats) (threatPatterns (self c)) -> In p pats ->
  RegExp_test p (requestString_of e) = true ->
  exists r c',
    analyzeThreat e c = (Ok r, c')
    /\ isThreat r = true /\ In cat (threatTypes r)
    /\ (cat = "constitutional_violation" -> constitutional_compliant r = false).
Proof.
  intros Hin Hp Hm.
  destruct (ThreatFacts.analyzeThreat_returns e c) as (c' & E).
  exists (ThreatFacts.verdict e c), c'. split; [exact E |].
  apply (verdict_hit e c cat pats p); assumption.
Qed.

(** X3.  With the table of patterns of the constructor, every event whose
    [data] is an object or an array is returned as a threat of the
    category [command_injection]: the text of [data] begins with a brace
    or a bracket, and both are in the class of the first pattern of the
    category. *)
Theorem structured_data_is_command_injection (e d : value) (c : C) :
  threatPatterns (self c) = defaultPatterns ->
  prop e "data" = Some d ->
  (exists fs, d = VObj fs) \/ (exists items, d = VArr items) ->
  exists r c',
    analyzeThreat e c = (Ok r, c')
    /\ isThreat r = true /\ In "command_injection" (threatTypes r).
Proof.
  intros Ht Hd Hshape.
  destruct (ThreatFacts.analyzeThreat_returns e c) as (c' & E).
  exists (ThreatFacts.verdict e c), c'. split; [exact E |].
  destruct RegexFacts.shell_characters_listed as (pats & Hin & Hp).
  destruct (verdict_hit e c "command_injection" pats RegexFacts.shell_characters)
    as (H1 & H2 & _).
  - rewrite Ht. exact Hin.
  - exact Hp.
  - unfold requestString_of. rewrite Hd.
    destruct Hshape as [(fs & ->) | (items & ->)];
      [apply RegexFacts.shell_characters_object | apply RegexFacts.shell_characters_array].
  - split; assumption.
Qed.

(** X4.  An event whose [source.ip] is a string on the blacklist is always
    returned as a threat that lists [blacklisted_ip], whatever the state
    of Redis and whatever the other analysers find or fail to do. *)
Theorem blacklisted_source_is_a_threat (e : value) (ip : string) (c : C) :
  opt_prop (prop e "source") "ip" = Some (VStr ip) -> ip <> "" ->
  ip ∈ ipBlacklist (self c) ->
  exists r c',
    analyzeThreat e c = (Ok r, c')
    /\ isThreat r = true /\ In "blacklisted_ip" (threatTypes r).
Proof.
  intros Hip Hne Hin.
  destruct (ThreatFacts.analyzeThreat_returns e c) as (c' & E).
  exists (ThreatFacts.verdict e c), c'. split; [exact E |].
  unfold ThreatFacts.verdict. fold (start c). unfold analysis.
  destruct (total_analyzeIPThreat e (start c)) as ([] & a1 & E1).
  assert (G1 : grows (add_confidence 0.9
                        (set_severity high
                           (push_threatType "blacklisted_ip"
                              (set_isThreat true (snd (start c))))))
                     (snd a1)).
  { replace a1 with (snd (analyzeIPThreat e (start c))) by (rewrite E1; reflexivity).
    apply (along_analyzeIPThreat_blacklisted grows (fun _ => True)) with (ip := ip);
      try assumption; grows_side. }
  erewrite bind_ok by exact E1.
  destruct (grows_after_source e a1) as [_ G2].
  destruct (grows_trans _ _ _ G1 G2) as (T1 & T2 & _).
  split; [apply T1; reflexivity |]. apply T2. cbn. left. reflexivity.
Qed.

(** X5.  The confidence that [analyzeThreat] returns is never above 1, and
    a result that is not constitutional-compliant is always a threat. *)
Theorem analyzeThreat_confidence_capped (e : value) (c : C) :
  exists r c',
    analyzeThreat e c = (Ok r, c')
    /\ PrimFloat.ltb 1 (confidence r) = false
    /\ (constitutional_compliant r = false -> isThreat r = true).
Proof.
  destruct (ThreatFacts.analyzeThreat_returns e c) as (c' & E).
  exists (ThreatFacts.verdict e c), c'. split; [exact E |].
  unfold ThreatFacts.verdict. fold (start c). unfold analysis.
  assert (Hsix : exists a6,
            analysis e (start c) = (Ok tt, (fst a6, calculateThreatScore (snd a6)))).
  { unfold analysis.
    repeat match goal with
           | |- context [bind ?m _ ?a] =>
               let E := fresh "E" in
               let a' := fresh "a" in
               assert (T : total m) by
                 (first [ unfold analyzeIPThreat | unfold analyzePatternThreat
                        | unfold analyzeAnomalousActivity | unfold analyzeGeolocation
                        | unfold analyzeUserAgent | unfold analyzeConstitutionalCompliance ];
                  apply ThreatFacts.total_analyzer);
               destruct (T a) as ([] & a' & E); clear T;
               erewrite bind_ok by exact E
           end.
    eexists. reflexivity. }
  destruct Hsix as (a6 & E6). unfold analysis in E6. rewrite E6. cbn [snd].
  unfold calculateThreatScore. cbv zeta. split.
  - repeat match goal with
           | |- context [if ?b then _ else _] => destruct b
           end; cbn [confidence set_isThreat set_confidence];
      apply FloatFacts.Math_min_le_r.
  - match goal with
    | |- context [negb (constitutional_compliant ?x)] => set (r1 := x)
    end.
    destruct (constitutional_compliant r1) eqn:Er; cbn [negb].
    + intros Hx. congruence.
    + intros _. reflexivity.
Qed.

(** *** The metadata never names the source *)

Lemma assoc_set_other {V} (k k0 : string) (v : V) (l : list (string * V)) :
  k <> k0 -> assoc k0 (assoc_set k v l) = assoc k0 l.
Proof.
  intros Hk. induction l as [| [k' v'] l IH]; cbn.
  - destruct (String.eqb k0 k) eqn:E; [| reflexivity].
    apply String.eqb_eq in E. congruence.
  - destruct (String.eqb k k') eqn:E; cbn.
    + apply String.eqb_eq in E. subst k'.
      destruct (String.eqb k0 k) eqn:E'; [| reflexivity].
      apply String.eqb_eq in E'. congruence.
    + rewrite IH. reflexivity.
Qed.

(** No write adds the key [source_ip] to the metadata. *)
Definition unsourced (r r' : ThreatResult) : Prop :=
  assoc "source_ip" (metadata r) = None -> assoc "source_ip" (metadata r') = None.

Definition no_source_category (d : Detector) : Prop :=
  Forall (fun entry : string * list RegExp => fst entry <> "source_ip") (threatPatterns d).

Lemma unsourced_calculateThreatScore (r : ThreatResult) :
  unsourced r (calculateThreatScore r).
Proof.
  unfold calculateThreatScore. cbv zeta.
  repeat match goal with
         | |- context [if ?b then _ else _] => destruct b
         end; unfold unsourced; cbn; tauto.
Qed.

Lemma unsourced_analysis (e : value) (a : A) :
  no_source_category (self (fst a)) ->
  both same_self unsourced a (snd (analysis e a)).
Proof.
  intros Ht.
  apply (along_analysis unsourced (fun k => k <> "source_ip"));
    first [ exact Ht
          | apply unsourced_calculateThreatScore
          | unfold unsourced; cbn; tauto
          | intros k v r Hk Hr; cbn [metadata set_metadata];
            rewrite assoc_set_other by exact Hk; exact Hr
          | intros k Hk; cbn in Hk; intuition (subst; discriminate) ].
Qed.

Lemma verdict_unsourced (e : value) (c : C) :
  no_source_category (self c) ->
  assoc "source_ip" (metadata (ThreatFacts.verdict e c)) = None.
Proof.
  intros Ht. unfold ThreatFacts.verdict. fold (start c).
  destruct (unsourced_analysis e (start c)) as [_ Hu]; [exact Ht |].
  apply Hu. reflexivity.
Qed.

End Facts.

End DetectorFacts.

Module CooldownFacts.
Import AlertManager.
Import AlertFacts.

Section Facts.
Context `{Host}.

(** X6.  The results of [analyzeThreat] never carry the key [source_ip] in
    their metadata (no analyser writes it), so [sendThreatAlert] keeps the
    cooldown of every one of them under the one key
    [alert:cooldown:threat:general]: after the alert for one event has been
    dispatched, the alert for any other event, from whichever source, that
    arrives within the 300 seconds is dropped. *)
Theorem threat_cooldown_is_shared_by_all_sources
    (e1 e2 : value) (d1 d2 : Ctx Redis ThreatDetector.Detector)
    (c0 : Ctx Redis Manager) (t2 : Z) :
  DetectorFacts.no_source_category (self d1) ->
  DetectorFacts.no_source_category (self d2) ->
  r_up (store c0) = true ->
  redis_has (clock c0) "alert:cooldown:threat:general" (store c0) = false ->
  t2 < clock c0 + 300 * 1000 ->
  exists r1 r2 d1' d2' c1 c2,
    ThreatDetector.analyzeThreat e1 d1 = (Ok r1, d1')
    /\ ThreatDetector.analyzeThreat e2 d2 = (Ok r2, d2')
    /\ cooldown_key threat (assoc "source_ip" (ThreatDetector.metadata r1))
       = "alert:cooldown:threat:general"
    /\ cooldown_key threat (assoc "source_ip" (ThreatDetector.metadata r2))
       = "alert:cooldown:threat:general"
    /\ sendThreatAlert r1 c0 = (Ok tt, c1)
    /\ sendThreatAlert r2 (at_time t2 c1) = (Ok tt, c2)
    /\ dispatches c1 = dispatches c0 + 1
    /\ dispatches c2 = dispatches c0 + 1.
Proof.
  intros Hd1 Hd2 Hup Hidle Ht2.
  destruct (ThreatFacts.analyzeThreat_returns e1 d1) as (d1' & E1).
  destruct (ThreatFacts.analyzeThreat_returns e2 d2) as (d2' & E2).
  pose proof (DetectorFacts.verdict_unsourced e1 d1 Hd1) as U1.
  pose proof (DetectorFacts.verdict_unsourced e2 d2 Hd2) as U2.
  set (r1 := ThreatFacts.verdict e1 d1) in *.
  set (r2 := ThreatFacts.verdict e2 d2) in *.
  assert (K1 : cooldown_key threat (identifier r1) = "alert:cooldown:threat:general").
  { unfold identifier. rewrite U1. reflexivity. }
  assert (K2 : cooldown_key threat (identifier r2) = "alert:cooldown:threat:general").
  { unfold identifier. rewrite U2. reflexivity. }
  destruct (sendThreatAlert_dispatch r1 c0 Hup) as (c1 & S1 & T1 & R1 & _ & D1).
  { rewrite K1. exact Hidle. }
  destruct (sendThreatAlert_suppress r2 (at_time t2 c1)) as (c2 & S2 & (_ & _ & _ & D2)).
  { cbn [at_time store]. rewrite R1. exact Hup. }
  { cbn [at_time store clock]. rewrite R1, K2, K1, redis_has_with_marker.
    apply Z.ltb_lt. exact Ht2. }
  exists r1, r2, d1', d2', c1, c2.
  unfold dispatches in D2. cbn [at_time logger] in D2.
  fold (dispatches c2) (dispatches c1) in D2.
  repeat split; try assumption. lia.
Qed.

End Facts.

End CooldownFacts.

Module TrafficFacts.
Import ThreatDetector DetectorFacts.


Section Facts.
Context `{Host}.
#[local] Abbreviation C := (Ctx Redis Detector).




(** *** The counters of the detector *)

Lemma self_cacheThreatData (e : value) (r : ThreatResult) :
  moves same_self (cacheThreatData e r).
Proof.
  unfold cacheThreatData.
  apply (moves_try_catch same_self same_self_trans); [| intros ?; apply self_log].
  apply (moves_bind same_self same_self_trans);
    [apply (moves_gets same_self same_self_refl) | intros now].
  apply self_redis_cmd.
Qed.

(** X8.  [analyzeThreat] counts every event it analyses and every threat
    it returns, once each, and leaves the table of patterns and the
    blacklist as they are. *)
Theorem analyzeThreat_counts (e : value) (c : C) :
  exists r c',
    analyzeThreat e c = (Ok r, c')
    /\ threats_analyzed (stats (self c')) = threats_analyzed (stats (self c)) + 1
    /\ threats_detected (stats (self c'))
       = threats_detected (stats (self c)) + (if isThreat r then 1 else 0)
    /\ threatPatterns (self c') = threatPatterns (self c)
    /\ ipBlacklist (self c') = ipBlacklist (self c).
Proof.
  unfold analyzeThreat.
  set (body := bind _ _).
  assert (Hb : exists r c',
             body c = (Ok r, c')
             /\ self c'
                = (if isThreat r then bump_detected (bump_analyzed (self c))
                   else bump_analyzed (self c))).
  { subst body.
    erewrite bind_ok by reflexivity.
    erewrite bind_ok by reflexivity.
    cbn [clock set_self].
    set (start := (set_self (bump_analyzed (self c)) c,
                   mkResult false [] low 0.0 [] (clock c) true)).
    destruct (ThreatFacts.total_analysis e start) as ([] & [c1 o] & E).
    pose proof (grows_analysis e start) as [S1 _]. rewrite E in S1.
    unfold same_self in S1. cbn [fst snd start self set_self] in S1.
    assert (Ew : with_object (mkResult false [] low 0.0 [] (clock c) true) (analysis e)
                   (set_self (bump_analyzed (self c)) c) = (Ok (tt, o), c1)).
    { unfold with_object. fold start. rewrite E. reflexivity. }
    erewrite bind_ok by exact Ew. cbn [snd].
    exists o. destruct (isThreat o); cbn [when].
    - pose proof (self_cacheThreatData e o (set_self (bump_detected (self c1)) c1)) as S2.
      destruct (ThreatFacts.total_cacheThreatData e o (set_self (bump_detected (self c1)) c1))
        as ([] & c2 & E2).
      rewrite E2 in S2. unfold same_self in S2. cbn [snd self set_self] in S2.
      eexists. split.
      + erewrite bind_ok; cycle 1.
        { erewrite bind_ok by reflexivity. erewrite bind_ok by exact E2. reflexivity. }
        reflexivity.
      + cbn [self set_logger]. rewrite S2, S1. reflexivity.
    - eexists. split; [erewrite bind_ok by reflexivity; reflexivity |]. exact S1. }
  destruct Hb as (r & c' & Eb & Hs). exists r, c'.
  split; [apply try_catch_ok; exact Eb |]. rewrite Hs.
  destruct (isThreat r); cbn; repeat split; lia.
Qed.

End Facts.

End TrafficFacts.

Module IntakeFacts.
Import App AppFacts.

Section Facts.
Context `{Host}.

(** The state after an event that the validation rejected: it is counted
    and a warning is logged. *)
Definition dropped (w : World) : World :=
  set_logger (logger w ++ [(Lwarn, "Invalid security event received:")]) (counted w).

Definition success_response (w : World) : Response :=
  mkResponse 200 (VObj [ ("success", VBool true);
                         ("timestamp", VStr (toISOString (clock w))) ]).

(** What [validateSecurityEvent] answers for an event that has its four
    fields but whose [source.ip] is not empty. *)
Lemma validate_fields (e : value) :
  truthy e = true -> typeof_object e = true ->
  forallb (fun field => truthy_opt (prop e field)) requiredFields = true ->
  forall w,
    validateSecurityEvent e w
    = (let ip := opt_prop (prop e "source") "ip" in
       let* bad_ip :=
         match ip with
         | Some v => if truthy v then let* ok := isIP v in ret (negb ok) else ret false
         | None => ret false
         end in
       if bad_ip then ret false
       else
         let* iso :=
           match prop e "timestamp" with
           | Some t => isISO8601 t
           | None => throw "TypeError: Expected a string"
           end in
         ret iso) w.
Proof.
  intros Ht Ho Hf w. unfold validateSecurityEvent. rewrite Ht, Ho, Hf. reflexivity.
Qed.

(** X9.  For any collaborators: an event that [validateSecurityEvent]
    rejects is counted in [processed_events], a warning is logged, and
    nothing else happens: no scorer runs, nothing is recorded; and
    [POST /security/event] answers it with status 200 and
    [success: true]. *)
Theorem rejected_event_is_answered_200 (sys : Collaborators) (e : value) (w : World) :
  fst (validateSecurityEvent e w) = Ok false ->
  processSecurityEvent sys e w = (Ok tt, dropped w)
  /\ post_security_event sys e w = (Ok (success_response w), dropped w).
Proof.
  intros Hv.
  destruct (validate_pure e) as (r & Hr). rewrite Hr in Hv. cbn [fst] in Hv. subst r.
  assert (E : processSecurityEvent sys e w = (Ok tt, dropped w)).
  { unfold processSecurityEvent. apply try_catch_ok.
    erewrite bind_ok by reflexivity. erewrite bind_ok by apply Hr. reflexivity. }
  split; [exact E |].
  unfold post_security_event. apply try_catch_ok.
  erewrite bind_ok by exact E. reflexivity.
Qed.

(** X10.  An event is rejected when one of the fields [timestamp], [type],
    [source] and [data] is missing or falsy, and when [source.ip] is a
    string that is not empty and not an IP address. *)
Theorem validateSecurityEvent_rejects (e : value) (w : World) :
  (forall field, In field requiredFields -> truthy_opt (prop e field) = false ->
     validateSecurityEvent e w = (Ok false, w))
  /\ (forall ip,
        truthy e = true -> typeof_object e = true ->
        forallb (fun field => truthy_opt (prop e field)) requiredFields = true ->
        opt_prop (prop e "source") "ip" = Some (VStr ip) -> ip <> "" ->
        validator_isIP ip = false ->
        validateSecurityEvent e w = (Ok false, w)).
Proof.
  split.
  - intros field Hin Hf. unfold validateSecurityEvent.
    destruct (negb (truthy e) || negb (typeof_object e)); [reflexivity |].
    assert (Hall : forallb (fun field => truthy_opt (prop e field)) requiredFields = false).
    { apply not_true_is_false. intros Hall.
      rewrite forallb_forall in Hall. rewrite (Hall field Hin) in Hf. discriminate. }
    rewrite Hall. reflexivity.
  - intros ip Ht Ho Hf Hip Hne Hbad. rewrite validate_fields by assumption.
    cbv zeta. rewrite Hip. cbn [truthy]. apply String.eqb_neq in Hne. rewrite Hne.
    cbn [negb]. unfold isIP. erewrite bind_ok by (erewrite bind_ok by reflexivity; reflexivity).
    rewrite Hbad. reflexivity.
Qed.

(** X11.  For any collaborators: an event that has its four fields and
    whose [source.ip] is truthy but not a string makes the validation
    itself throw: the event is counted, the two handlers log the error,
    [POST /security/event] answers with status 500, and no scorer runs. *)
Theorem non_string_ip_is_answered_500 (sys : Collaborators) (e ip : value) (w : World) :
  truthy e = true -> typeof_object e = true ->
  forallb (fun field => truthy_opt (prop e field)) requiredFields = true ->
  opt_prop (prop e "source") "ip" = Some ip -> truthy ip = true ->
  (forall s, ip <> VStr s) ->
  processSecurityEvent sys e w
  = (Throw "TypeError: Expected a string", rethrown (counted w))
  /\ post_security_event sys e w
     = (Ok (failure_response (counted w)), refused (counted w)).
Proof.
  intros Ht Ho Hf Hip Hty Hns.
  apply (fails_with_intro sys e w "TypeError: Expected a string" (counted w)).
  unfold processSecurityEvent. eapply eq_trans; [eapply try_catch_throw |].
  - erewrite bind_ok by reflexivity. eapply bind_throw.
    rewrite validate_fields by assumption. cbv zeta. rewrite Hip, Hty.
    eapply bind_throw. eapply bind_throw.
    destruct ip; try reflexivity. exfalso. eapply Hns. reflexivity.
  - reflexivity.
Qed.

(** *** The counters of the orchestrator *)

Section Counter.
Variable field : Stats -> Z.

(** A counter of the orchestrator stays as it is. *)
Definition same_count (w w' : World) : Prop :=
  field (stats (self w')) = field (stats (self w)).

Lemma same_count_refl (w : World) : same_count w w.
Proof. reflexivity. Qed.

Lemma same_count_trans (w1 w2 w3 : World) :
  same_count w1 w2 -> same_count w2 w3 -> same_count w1 w3.
Proof. unfold same_count. congruence. Qed.

Lemma same_count_within {St Se A} (gs : Stores -> St) (ps : St -> Stores -> Stores)
    (gv : Components -> Se) (pv : Se -> Components -> Components)
    (m : M (Ctx St Se) A) :
  (forall x c, stats (pv x c) = stats c) ->
  moves same_count (within gs ps gv pv m).
Proof.
  intros Hpv w. unfold same_count.
  apply (within_frame gs ps gv pv m (fun w => field (stats (self w)))).
  intros c w0. cbn. rewrite Hpv. reflexivity.
Qed.

Lemma same_count_log (lv : LogLevel) (msg : string) :
  moves same_count (@log Stores Components lv msg).
Proof. intros w. reflexivity. Qed.

Lemma same_count_bump (f : Stats -> Stats) :
  (forall s, field (f s) = field s) -> moves same_count (bump f).
Proof. intros Hf w. unfold same_count. cbn. apply Hf. Qed.

Lemma same_count_validate (e : value) : moves same_count (validateSecurityEvent e).
Proof.
  intros w. destruct (validate_pure e) as (r & Hr). rewrite Hr. reflexivity.
Qed.

End Counter.

Ltac count_step field :=
  first [ apply (moves_bind (same_count field) (same_count_trans field)); [| intros ?]
        | apply (moves_when (same_count field) (same_count_refl field))
        | apply (moves_ret (same_count field) (same_count_refl field))
        | apply (moves_throw (same_count field) (same_count_refl field))
        | apply (moves_gets (same_count field) (same_count_refl field))
        | apply same_count_log
        | apply same_count_validate
        | apply same_count_bump; intros ?; reflexivity
        | apply same_count_within; intros ? ?; reflexivity ].

Ltac count_production :=
  cbn [analyzeThreat sendThreatAlert checkEventCompliance sendComplianceAlert
       logSecurityEvent updateSecurityMetrics production];
  unfold on_threatDetector, on_alertManager, on_complianceChecker, on_auditLogger,
    on_securityMonitor, Date_now.

(** What [processSecurityEvent] does once the event is accepted and the
    threat, if any, is handled. *)
Definition after_threat (sys : Collaborators) (e : value) : M World unit :=
  let* complianceResult := checkEventCompliance sys e in
  when (negb (ComplianceChecker.compliant complianceResult))
    (bump (fun s => mkStats (threats_detected s) (alerts_sent s) (uptime s)
                            (processed_events s) (constitutional_violations s + 1)) ;;
     sendComplianceAlert sys complianceResult ;;
     let* now := Date_now in
     logSecurityEvent sys "constitutional_violation"
       (VObj [ ("event", e);
               ("violation", ComplianceChecker.result_value complianceResult);
               ("timestamp", VDate now) ])) ;;
  updateSecurityMetrics sys e.

(** The body of [processSecurityEvent] after the event was counted. *)
Definition after_count (sys : Collaborators) (e : value) : M World unit :=
  let* valid := validateSecurityEvent e in
  if negb valid then log Lwarn "Invalid security event received:"
  else
    let* threatResult := analyzeThreat sys e in
    when (ThreatDetector.isThreat threatResult) (threat_found sys e threatResult) ;;
    after_threat sys e.

Lemma processSecurityEvent_unfold (sys : Collaborators) (e : value) :
  processSecurityEvent sys e
  = try_catch
      (bump (fun s => mkStats (threats_detected s) (alerts_sent s) (uptime s)
                              (processed_events s + 1) (constitutional_violations s)) ;;
       after_count sys e)
      (fun err => log Lerror "Security event processing error:" ;; throw err).
Proof. reflexivity. Qed.

Lemma processed_after_count (e : value) :
  moves (same_count processed_events) (after_count production e).
Proof.
  unfold after_count, after_threat, threat_found.
  count_step processed_events; [count_step processed_events |].
  match goal with |- context [negb ?b] => destruct b end; cbn [negb];
    [| count_step processed_events].
  count_production. repeat count_step processed_events.
Qed.

(** The final state of the handler, whatever the outcome, through a
    function of the state that logging does not change. *)
Lemma handler_state {X} (f : World -> X) (sys : Collaborators) (e : value) (w : World) :
  (forall lg w0, f (set_logger lg w0) = f w0) ->
  f (snd (post_security_event sys e w))
  = f (snd ((bump (fun s => mkStats (threats_detected s) (alerts_sent s) (uptime s)
                                    (processed_events s + 1) (constitutional_violations s)) ;;
             after_count sys e) w)).
Proof.
  intros Hf. unfold post_security_event. rewrite processSecurityEvent_unfold.
  set (body := bind (bump _) _).
  unfold try_catch, bind.
  destruct (body w) as [[[] | err] w1]; cbn [snd log modify throw Date_now gets ret];
    rewrite ?Hf; reflexivity.
Qed.

(** X12.  In production every event that [POST /security/event] receives
    adds exactly one to [processed_events], whatever becomes of it:
    rejected, processed to the end, or abandoned on an exception. *)
Theorem every_event_is_counted_once (e : value) (w : World) :
  processed_events (stats (self (snd (post_security_event production e w))))
  = processed_events (stats (self w)) + 1.
Proof.
  rewrite (handler_state (fun w => processed_events (stats (self w)))) by reflexivity.
  rewrite bind_run. cbn [bump modify_self modify fst snd]. fold (counted w).
  pose proof (processed_after_count e (counted w)) as Hr. unfold same_count in Hr.
  destruct (after_count production e (counted w)) as [[[] | err] w1];
    cbn [snd] in Hr |- *; rewrite Hr; reflexivity.
Qed.

(** X13.  In production, with the table of patterns of the constructor:
    every accepted event whose [data] is an object or an array is handled
    as a threat.  Whatever else the event holds and however its
    processing ends, [threats_detected] grows by one. *)
Theorem structured_event_counts_as_a_threat (e d : value) (w : World) :
  fst (validateSecurityEvent e w) = Ok true ->
  ThreatDetector.threatPatterns (threatDetector (self w)) = ThreatDetector.defaultPatterns ->
  prop e "data" = Some d ->
  (exists fs, d = VObj fs) \/ (exists items, d = VArr items) ->
  threats_detected (stats (self (snd (post_security_event production e w))))
  = threats_detected (stats (self w)) + 1.
Proof.
  intros Hv Ht Hd Hshape.
  destruct (validate_pure e) as (r & Hr). rewrite Hr in Hv. cbn [fst] in Hv. subst r.
  rewrite (handler_state (fun w => threats_detected (stats (self w)))) by reflexivity.
  rewrite bind_run. cbn [bump modify_self modify fst snd]. fold (counted w).
  unfold after_count. rewrite bind_run, Hr. cbn [negb].
  destruct (analyzeThreat_world e (counted w)) as (w2 & E2 & _).
  pose proof (same_count_within threats_detected redis set_redis threatDetector
                set_threatDetector (ThreatDetector.analyzeThreat e) (fun _ _ => eq_refl)
                (counted w)) as S2.
  change (within redis set_redis threatDetector set_threatDetector
            (ThreatDetector.analyzeThreat e))
    with (analyzeThreat production e) in S2.
  rewrite bind_run, E2. rewrite E2 in S2. unfold same_count in S2. cbn [snd] in S2.
  assert (Hthreat : ThreatDetector.isThreat
                      (ThreatFacts.verdict e (detector_view (counted w))) = true).
  { destruct RegexFacts.shell_characters_listed as (pats & Hin & Hp).
    apply (DetectorFacts.verdict_hit e (detector_view (counted w)) "command_injection" pats
             RegexFacts.shell_characters).
    - cbn [detector_view counted self set_self threatDetector set_stats]. rewrite Ht.
      exact Hin.
    - exact Hp.
    - unfold ThreatDetector.requestString_of. rewrite Hd.
      destruct Hshape as [(fs & ->) | (items & ->)];
        [apply RegexFacts.shell_characters_object
        | apply RegexFacts.shell_characters_array]. }
  rewrite Hthreat. cbn [when]. unfold threat_found.
  rewrite bind_run, bind_run. cbn [bump modify_self modify fst snd].
  set (w3 := set_self _ w2).
  assert (H3 : threats_detected (stats (self w3)) = threats_detected (stats (self w)) + 1).
  { subst w3. cbn [self set_self stats set_stats threats_detected]. rewrite S2.
    reflexivity. }
  assert (Hrest : moves (same_count threats_detected)
            (sendThreatAlert production (ThreatFacts.verdict e (detector_view (counted w))) ;;
             bump (fun s => mkStats (threats_detected s) (alerts_sent s + 1) (uptime s)
                                    (processed_events s) (constitutional_violations s)) ;;
             let* now := Date_now in
             logSecurityEvent production "threat_detected"
               (VObj [ ("event", e);
                       ("threat", ThreatDetector.result_value
                                    (ThreatFacts.verdict e (detector_view (counted w))));
                       ("timestamp", VDate now) ]))).
  { count_production. repeat count_step threats_detected. }
  assert (Hafter : moves (same_count threats_detected) (after_threat production e)).
  { unfold after_threat. count_production. repeat count_step threats_detected. }
  specialize (Hrest w3). unfold same_count in Hrest.
  match type of Hrest with context [snd (?m w3)] => destruct (m w3) as [[[] | err] w4] end;
    cbn [snd] in Hrest |- *; [| rewrite Hrest; exact H3].
  specialize (Hafter w4). unfold same_count in Hafter.
  destruct (after_threat production e w4) as [[[] | err] w5]; cbn [snd] in Hafter |- *;
    rewrite Hafter, Hrest; exact H3.
Qed.

End Facts.

End IntakeFacts.

Module LoggerFacts.
Import AuditLogger AuditFacts.

Section Facts.
Context `{Host}.
#[local] Abbreviation C := (Ctx Mongo Logger).

(** The hashes that [updateIntegrityChecksum] keeps of a batch. *)
Definition kept_hashes (logs : list AuditEntry) : list string :=
  omap (fun e => match hash e with
                 | Some h => if String.eqb h "" then None else Some h
                 | None => None
                 end) logs.

(** The document of the day after a batch with hashes [hs]. *)
Definition checksum_doc (old : IntegrityDoc) (hs : list string) (now : Z) : IntegrityDoc :=
  mkIntegrityDoc (total_logs old) (valid_logs old) (invalid_logs old)
    (integrity_score old) (report_checked_at old)
    (Some (sha256_hex (join "" hs))) (Some now)
    (Some (default 0 (log_count old) + Z.of_nat (List.length hs))).

Definition with_checksum (logs : list AuditEntry) (now : Z) (m : Mongo) : Mongo :=
  mkMongo (readyState m) (reachable m) (security_audit_logs m) (constitutional_violations m)
    (<[format_date now :=
         checksum_doc (default empty_doc (audit_integrity m !! format_date now))
                      (kept_hashes logs) now]> (audit_integrity m)).

Lemma updateIntegrityChecksum_run (logs : list AuditEntry) (c : C) :
  updateIntegrityChecksum logs c
  = if Nat.eqb (List.length (kept_hashes logs)) 0 then (Ok tt, c)
    else if negb (readyState (store c) =? 1) || negb (reachable (store c))
    then (Ok tt, set_logger (logger c ++ [(Lwarn, "Integrity checksum update error:")]) c)
    else (Ok tt, set_store (with_checksum logs (clock c) (store c)) c).
Proof.
  unfold updateIntegrityChecksum, try_catch. rewrite bind_run. cbn [Date_now gets].
  cbv zeta. fold (kept_hashes logs).
  destruct (Nat.eqb (List.length (kept_hashes logs)) 0); [destruct c; reflexivity |].
  unfold mongo_cmd.
  destruct (negb (readyState (store c) =? 1)); [reflexivity |].
  destruct (negb (reachable (store c))); reflexivity.
Qed.

Definition flushed_line : LogLine := (Ldebug, "Flushed audit logs to database").

(** X14.  A flush that finds the connection not open completes as a flush
    that wrote: the batch is taken from the buffer and is not inserted,
    nothing is thrown, [last_flush] is set and the line of success is
    logged.  The entries of the batch are in neither the buffer nor the
    collection afterwards. *)
Theorem flush_on_closed_connection_drops_the_batch (c : C) :
  logBuffer (self c) <> [] -> readyState (store c) <> 1 ->
  exists c',
    flushLogBuffer c = (Ok tt, c')
    /\ logBuffer (self c') = []
    /\ store c' = store c
    /\ last_flush (stats (self c')) = Some (clock c)
    /\ logger c'
       = (logger c
            ++ (if Nat.eqb (List.length (kept_hashes (logBuffer (self c)))) 0 then []
                else [(Lwarn, "Integrity checksum update error:")])
            ++ [flushed_line])%list.
Proof.
  intros Hb Hready. apply Z.eqb_neq in Hready.
  unfold flushLogBuffer, flushLogBuffer_during. rewrite bind_run. cbn [gets].
  destruct (logBuffer (self c)) as [| e0 rest] eqn:Eb; [contradiction |].
  cbn [List.length Nat.eqb]. set (batch := e0 :: rest).
  unfold try_catch.
  rewrite bind_run. cbn [modify_self modify].
  rewrite bind_run. cbn [gets store set_self]. rewrite Hready.
  rewrite bind_run. cbn [modify_self modify].
  rewrite bind_run. cbn [when ret].
  rewrite bind_run, updateIntegrityChecksum_run. cbn [store set_self]. rewrite Hready.
  cbn [negb orb].
  destruct (Nat.eqb (List.length (kept_hashes batch)) 0);
    rewrite bind_run; cbn [Date_now gets]; rewrite bind_run; cbn [modify_self modify];
    cbn [log modify]; (eexists; split; [reflexivity |]); destruct c; cbn;
    repeat split; try reflexivity; rewrite <- ?List.app_assoc; reflexivity.
Qed.

(** X15.  A flush that reaches the store appends the batch to the
    collection in the order of the buffer and empties the buffer; when an
    entry of the batch carries a hash, the document of the day gets the
    digest of the hashes of this batch as [daily_checksum] (the one of the
    batches before is replaced) and the number of hashes is added to its
    [log_count]. *)
Theorem flush_appends_the_batch (c : C) :
  logBuffer (self c) <> [] -> readyState (store c) = 1 -> reachable (store c) = true ->
  let batch := logBuffer (self c) in
  let today := format_date (clock c) in
  exists c',
    flushLogBuffer c = (Ok tt, c')
    /\ logBuffer (self c') = []
    /\ security_audit_logs (store c') = (security_audit_logs (store c) ++ batch)%list
    /\ constitutional_violations (store c') = constitutional_violations (store c)
    /\ last_flush (stats (self c')) = Some (clock c)
    /\ logger c' = (logger c ++ [flushed_line])%list
    /\ (kept_hashes batch = [] -> audit_integrity (store c') = audit_integrity (store c))
    /\ (kept_hashes batch <> [] ->
        exists doc,
          audit_integrity (store c') !! today = Some doc
          /\ daily_checksum doc = Some (sha256_hex (join "" (kept_hashes batch)))
          /\ log_count doc
             = Some (default 0 (audit_integrity (store c) !! today ≫= log_count)
                     + Z.of_nat (List.length (kept_hashes batch)))).
Proof.
  intros Hb Hready Hreach batch today. subst batch today.
  unfold flushLogBuffer, flushLogBuffer_during. rewrite bind_run. cbn [gets].
  destruct (logBuffer (self c)) as [| e0 rest] eqn:Eb; [contradiction |].
  cbn [List.length Nat.eqb]. set (batch := e0 :: rest). clearbody batch.
  unfold try_catch.
  rewrite bind_run. cbn [modify_self modify].
  rewrite bind_run. cbn [gets store set_self]. rewrite Hready. cbn [Z.eqb Pos.eqb].
  rewrite bind_run. cbn [modify_self modify].
  rewrite bind_run. cbn [when]. unfold mongo_cmd at 1. cbn [store set_self].
  rewrite Hready, Hreach. cbn [Z.eqb Pos.eqb negb].
  rewrite bind_run, updateIntegrityChecksum_run. cbn [store set_self set_store readyState
    reachable]. rewrite ?Hready, ?Hreach. cbn [Z.eqb Pos.eqb negb orb].
  destruct (kept_hashes batch) as [| h hs] eqn:Eh.
  - cbn [List.length Nat.eqb].
    rewrite bind_run; cbn [Date_now gets]; rewrite bind_run; cbn [modify_self modify];
      cbn [log modify]. eexists. split; [reflexivity |]. destruct c; cbn.
    repeat split; try reflexivity. intros Hx. contradiction.
  - cbn [List.length Nat.eqb].
    rewrite bind_run; cbn [Date_now gets]; rewrite bind_run; cbn [modify_self modify];
      cbn [log modify]. eexists. split; [reflexivity |]. destruct c as [t en lg st se]; cbn.
    repeat split; try reflexivity; try discriminate.
    intros _. eexists. split; [unfold with_checksum; cbn; apply lookup_insert_eq |].
    rewrite Eh. cbn [checksum_doc daily_checksum log_count]. split; [reflexivity |].
    destruct (audit_integrity st !! format_date t); reflexivity.
Qed.


(** *** Recording an event *)

(** What [checkConstitutionalCompliance] returns at a time. *)
Definition compliance_of (d : value) (now : Z) : Compliance :=
  let c1 := fold_left (check_harmful (JSON_stringify d)) harmfulPatterns
                      (mkCompliance true [] 1.0 (Some now) None) in
  mkCompliance (compliant c1) (violations c1) (Math_max 0 (score c1))
               (checked_at c1) (error c1).

Lemma checkConstitutionalCompliance_eq (d : value) (c : C) :
  checkConstitutionalCompliance d c = (Ok (compliance_of d (clock c)), c).
Proof. reflexivity. Qed.

(** The entry that [logSecurityEvent] pushes. *)
Lemma logSecurityEvent_entry (t : string) (d : value) (md : list (string * value)) (c : C) :
  exists entry c1,
    logSecurityEvent t d md c
    = try_catch (after_push (batch_size (config (self c))) entry)
                (fun e => log Lerror "Security event logging failed:" ;; throw e) c1
    /\ (sealed entry
        /\ id entry = randomUUID (entropy c)
        /\ timestamp entry = clock c
        /\ event_type entry = t
        /\ constitutional_compliance entry = compliance_of d (clock c)
        /\ severity entry = determineSeverity t d)
    /\ logBuffer (self c1) = (logBuffer (self c) ++ [entry])%list
    /\ logs_written (stats (self c1)) = logs_written (stats (self c)) + 1
    /\ stat_constitutional_violations (stats (self c1))
       = stat_constitutional_violations (stats (self c))
    /\ store c1 = store c /\ clock c1 = clock c
    /\ config (self c1) = config (self c).
Proof.
  unfold logSecurityEvent. cbv zeta.
  erewrite try_catch_bind_ok by reflexivity.
  erewrite try_catch_bind_ok by reflexivity.
  erewrite try_catch_bind_ok by reflexivity.
  erewrite try_catch_bind_ok by apply checkConstitutionalCompliance_eq.
  cbn [clock self set_entropy].
  generalize (compliance_of d (clock c)). intros comp.
  destruct (encryption_enabled (config (self c))) eqn:Een.
  - pose proof (encryptData_run d (set_entropy (S (entropy c)) c)) as Ee.
    cbn [self set_entropy] in Ee.
    destruct (cipher_hex (encryptionKey (self c)) (JSON_stringify d)) eqn:Eci.
    + erewrite try_catch_bind_ok; cycle 1.
      { erewrite bind_ok by exact Ee. erewrite bind_ok by reflexivity. reflexivity. }
      erewrite try_catch_bind_ok by reflexivity.
      erewrite try_catch_bind_ok by reflexivity.
      fold (after_push (batch_size (config (self c)))).
      eexists _, _. split; [reflexivity |].
      unfold sealed. cbn. repeat split; reflexivity.
    + erewrite try_catch_bind_ok; cycle 1.
      { erewrite bind_ok by exact Ee. erewrite bind_ok by reflexivity. reflexivity. }
      erewrite try_catch_bind_ok by reflexivity.
      erewrite try_catch_bind_ok by reflexivity.
      fold (after_push (batch_size (config (self c)))).
      eexists _, _. split; [reflexivity |].
      unfold sealed. cbn. repeat split; reflexivity.
  - erewrite try_catch_bind_ok by reflexivity.
    erewrite try_catch_bind_ok by reflexivity.
    erewrite try_catch_bind_ok by reflexivity.
    fold (after_push (batch_size (config (self c)))).
    eexists _, _. split; [reflexivity |].
    unfold sealed. cbn. repeat split; reflexivity.
Qed.

Lemma helper_violation (entry : AuditEntry) :
  helper (when (negb (compliant (constitutional_compliance entry)))
            (handleConstitutionalViolation entry)).
Proof. destruct (negb _); [apply helper_handleConstitutionalViolation | apply helper_ret]. Qed.

(** X16.  Below the batch size [logSecurityEvent] only buffers: it
    returns, the new entry (with the identifier drawn, the time of the
    call and the digest of its canonical fields) is the last of the buffer,
    and the collection of audit logs is as before. *)
Theorem logSecurityEvent_buffers_below_the_batch_size
    (t : string) (d : value) (md : list (string * value)) (c : C) :
  Z.of_nat (List.length (logBuffer (self c))) + 1 < batch_size (config (self c)) ->
  exists entry c',
    logSecurityEvent t d md c = (Ok tt, c')
    /\ logBuffer (self c') = (logBuffer (self c) ++ [entry])%list
    /\ security_audit_logs (store c') = security_audit_logs (store c)
    /\ id entry = randomUUID (entropy c)
    /\ timestamp entry = clock c
    /\ event_type entry = t
    /\ hash entry = calculateEntryHash entry
    /\ logs_written (stats (self c')) = logs_written (stats (self c)) + 1.
Proof.
  intros Hlen.
  destruct (logSecurityEvent_entry t d md c)
    as (entry & c1 & E & (Hse & Hid & Hts & Hty & _) & Hbuf & Hw & _ & Hst & _).
  exists entry. rewrite E. unfold after_push.
  destruct (helper_violation entry c1) as ([] & c3 & E3 & K3).
  eexists. split.
  - apply try_catch_ok. erewrite bind_ok by reflexivity.
    rewrite Hbuf, length_app. cbn [List.length].
    replace (batch_size (config (self c)) <=? _) with false
      by (symmetry; apply Z.leb_gt; lia).
    cbn [when]. erewrite bind_ok by reflexivity. erewrite bind_ok by exact E3.
    reflexivity.
  - destruct K3 as (_ & K2 & _ & _ & K5 & _ & _ & K8).
    cbn [self store set_logger stats]. rewrite K2, K5, K8, Hbuf, Hst.
    repeat split; assumption.
Qed.

(** X17.  The call of [logSecurityEvent] that fills the buffer to the
    batch size flushes it: with the store answering, the buffer is empty
    afterwards and the collection holds what it held, then the entries of
    the buffer in their order, then the new entry; with the connection not
    open the call returns all the same, the buffer is empty and the
    collection is as before. *)
Theorem logSecurityEvent_flushes_a_full_buffer
    (t : string) (d : value) (md : list (string * value)) (c : C) :
  batch_size (config (self c)) <= Z.of_nat (List.length (logBuffer (self c))) + 1 ->
  (readyState (store c) = 1 -> reachable (store c) = true ->
   exists entry c',
     logSecurityEvent t d md c = (Ok tt, c')
     /\ event_type entry = t /\ timestamp entry = clock c
     /\ logBuffer (self c') = []
     /\ security_audit_logs (store c')
        = (security_audit_logs (store c) ++ logBuffer (self c) ++ [entry])%list)
  /\ (readyState (store c) <> 1 ->
      exists c',
        logSecurityEvent t d md c = (Ok tt, c')
        /\ logBuffer (self c') = []
        /\ security_audit_logs (store c') = security_audit_logs (store c)).
Proof.
  intros Hlen.
  destruct (logSecurityEvent_entry t d md c)
    as (entry & c1 & E & (Hse & Hid & Hts & Hty & _) & Hbuf & Hw & _ & Hst & _).
  rewrite E. unfold after_push.
  assert (Hfull : (batch_size (config (self c))
                   <=? Z.of_nat (List.length (logBuffer (self c1)))) = true).
  { apply Z.leb_le. rewrite Hbuf, length_app. cbn [List.length]. lia. }
  assert (Hne : logBuffer (self c1) <> []).
  { rewrite Hbuf. destruct (logBuffer (self c)); discriminate. }
  assert (Hrun : forall c2,
             flushLogBuffer c1 = (Ok tt, c2) ->
             exists c',
               try_catch
                 (let* buffer := gets (fun c0 : C => logBuffer (self c0)) in
                  when (batch_size (config (self c)) <=? Z.of_nat (List.length buffer))
                    flushLogBuffer ;;
                  when (negb (compliant (constitutional_compliance entry)))
                    (handleConstitutionalViolation entry) ;;
                  log Ldebug "Security event logged:")
                 (fun e => log Lerror "Security event logging failed:" ;; throw e) c1
               = (Ok tt, c')
               /\ logBuffer (self c') = logBuffer (self c2)
               /\ security_audit_logs (store c') = security_audit_logs (store c2)).
  { intros c2 E2. destruct (helper_violation entry c2) as ([] & c3 & E3 & K3).
    eexists. split.
    - apply try_catch_ok. erewrite bind_ok by reflexivity. rewrite Hfull. cbn [when].
      erewrite bind_ok by exact E2. erewrite bind_ok by exact E3. reflexivity.
    - destruct K3 as (_ & K2 & _ & _ & _ & _ & _ & K8).
      cbn [self store set_logger]. rewrite K2, K8. split; reflexivity. }
  split.
  - intros Hready Hreach.
    destruct (flush_success [] c1 Hne) as (c2 & E2 & B2 & L2 & _).
    { rewrite Hst, Hreach. apply andb_false_r. }
    destruct (Hrun c2 E2) as (c' & E' & B' & L').
    exists entry, c'. split; [exact E' |]. rewrite B', L', B2, L2, Hst, Hready, Hbuf.
    cbn [Z.eqb Pos.eqb]. repeat split; assumption.
  - intros Hready. apply Z.eqb_neq in Hready.
    destruct (flush_success [] c1 Hne) as (c2 & E2 & B2 & L2 & _).
    { rewrite Hst, Hready. reflexivity. }
    destruct (Hrun c2 E2) as (c' & E' & B' & L').
    exists c'. split; [exact E' |]. rewrite B', L', B2, L2, Hst, Hready.
    split; reflexivity.
Qed.

End Facts.
End LoggerFacts.

Module SearchFacts.
Import AuditLogger AuditFacts.

(** Newest first. *)
Definition not_older (a b : AuditEntry) : Prop := timestamp b <= timestamp a.

Lemma insert_newest_In (e x : AuditEntry) (l : list AuditEntry) :
  In x (insert_newest e l) <-> x = e \/ In x l.
Proof.
  induction l as [| y l IH]; cbn [insert_newest].
  - cbn. intuition.
  - destruct (timestamp y <=? timestamp e); cbn [In]; [intuition |].
    rewrite IH. intuition.
Qed.

Lemma insert_newest_sorted (e : AuditEntry) (l : list AuditEntry) :
  StronglySorted not_older l -> StronglySorted not_older (insert_newest e l).
Proof.
  induction 1 as [| y l Hs IH Hy]; cbn [insert_newest].
  - constructor; constructor.
  - destruct (timestamp y <=? timestamp e) eqn:E.
    + apply Z.leb_le in E. constructor; [constructor; assumption |].
      constructor; [exact E |]. rewrite List.Forall_forall in Hy |- *.
      intros x Hx. specialize (Hy x Hx). unfold not_older in *. lia.
    + apply Z.leb_gt in E. constructor; [exact IH |].
      rewrite List.Forall_forall in Hy |- *. intros x Hx.
      apply insert_newest_In in Hx as [-> | Hx]; [unfold not_older; lia | auto].
Qed.

Lemma newest_first_sorted (l : list AuditEntry) : StronglySorted not_older (newest_first l).
Proof.
  induction l as [| e l IH]; cbn; [constructor | apply insert_newest_sorted, IH].
Qed.

Lemma newest_first_In (x : AuditEntry) (l : list AuditEntry) :
  In x (newest_first l) <-> In x l.
Proof.
  induction l as [| e l IH]; cbn [newest_first fold_right]; [reflexivity |].
  fold (newest_first l). rewrite insert_newest_In, IH. cbn. intuition.
Qed.

Lemma insert_newest_length (e : AuditEntry) (l : list AuditEntry) :
  List.length (insert_newest e l) = S (List.length l).
Proof.
  induction l as [| y l IH]; cbn [insert_newest]; [reflexivity |].
  destruct (timestamp y <=? timestamp e); cbn [List.length]; [reflexivity |].
  rewrite IH. reflexivity.
Qed.

Lemma newest_first_length (l : list AuditEntry) :
  List.length (newest_first l) = List.length l.
Proof.
  induction l as [| e l IH]; cbn [newest_first fold_right]; [reflexivity |].
  fold (newest_first l). rewrite insert_newest_length, IH. reflexivity.
Qed.

Lemma In_firstn {X} (n : nat) (l : list X) (x : X) : In x (firstn n l) -> In x l.
Proof.
  revert l. induction n as [| n IH]; intros l Hx; [destruct Hx |].
  destruct l as [| y l]; [destruct Hx |]. cbn [firstn] in Hx.
  destruct Hx as [-> | Hx]; [left; reflexivity | right; apply IH, Hx].
Qed.

Lemma firstn_sorted {X} (R : X -> X -> Prop) (n : nat) (l : list X) :
  StronglySorted R l -> StronglySorted R (firstn n l).
Proof.
  revert l. induction n as [| n IH]; intros l Hs; [constructor |].
  destruct Hs as [| x l Hs Hx]; cbn [firstn]; [constructor |].
  constructor; [apply IH, Hs |].
  rewrite List.Forall_forall in Hx |- *. intros y Hy. apply Hx.
  eapply In_firstn. exact Hy.
Qed.

(** An entry as [searchLogs] returns it: the stored entry with its payload
    replaced by what [decryptData] gave. *)
Definition returned (e e' : AuditEntry) : Prop :=
  exists d, e' = set_event_data d (encrypted e) e.

Section Facts.
Context `{Host}.
#[local] Abbreviation C := (Ctx Mongo Logger).

Definition same_store (c c' : C) : Prop := store c' = store c /\ self c' = self c.

Lemma same_store_refl (c : C) : same_store c c.
Proof. split; reflexivity. Qed.

Lemma same_store_trans (c1 c2 c3 : C) :
  same_store c1 c2 -> same_store c2 c3 -> same_store c1 c3.
Proof. unfold same_store. intros [A1 A2] [B1 B2]. split; congruence. Qed.

Lemma decryptData_moves (d : value) : moves same_store (decryptData d).
Proof.
  unfold decryptData.
  apply (moves_try_catch same_store same_store_trans).
  - apply (moves_bind same_store same_store_trans).
    + intros c. unfold ThreatDetector.member. destruct d; apply same_store_refl.
    + intros b. destruct (_ || _); [apply (moves_ret same_store same_store_refl) |].
      apply (moves_bind same_store same_store_trans);
        [apply (moves_gets same_store same_store_refl) |].
      intros key c.
      destruct (prop d "data") as [[] |]; try apply same_store_refl.
      destruct (decipher_utf8 _ _); [| apply same_store_refl].
      destruct (JSON_parse _); apply same_store_refl.
  - intros e. apply (moves_bind same_store same_store_trans).
    + intros c. split; reflexivity.
    + intros _. apply (moves_ret same_store same_store_refl).
Qed.

Lemma total_decryptData (d : value) : total (decryptData d).
Proof.
  unfold decryptData. apply total_try_catch. intros e.
  apply total_bind; [apply total_log | intros _; apply total_ret].
Qed.

Lemma decrypt_all_run (results : list AuditEntry) (c : C) :
  exists rs c',
    decrypt_all results c = (Ok rs, c')
    /\ Forall2 returned results rs
    /\ same_store c c'.
Proof.
  revert c. induction results as [| e rest IH]; intros c.
  - exists [], c. split; [reflexivity |]. split; [constructor | apply same_store_refl].
  - cbn [decrypt_all].
    assert (Hd : exists d c1,
               (if encrypted e then decryptData (event_data e) else ret (event_data e)) c
               = (Ok d, c1) /\ same_store c c1).
    { destruct (encrypted e).
      - destruct (total_decryptData (event_data e) c) as (d & c1 & E).
        exists d, c1. split; [exact E |].
        pose proof (decryptData_moves (event_data e) c) as Hm. rewrite E in Hm. exact Hm.
      - eexists _, _. split; [reflexivity | apply same_store_refl]. }
    destruct Hd as (d & c1 & E1 & S1).
    destruct (IH c1) as (rs & c' & E2 & F2 & S2).
    exists (set_event_data d (encrypted e) e :: rs), c'. split.
    + erewrite bind_ok by exact E1. erewrite bind_ok by exact E2. reflexivity.
    + split; [| eapply same_store_trans; eassumption].
      constructor; [exists d; reflexivity | exact F2].
Qed.

Lemma returned_matches (criteria : Criteria) (e e' : AuditEntry) :
  returned e e' -> matches criteria e' = matches criteria e.
Proof. intros (d & ->). reflexivity. Qed.

Lemma returned_timestamp (e e' : AuditEntry) : returned e e' -> timestamp e' = timestamp e.
Proof. intros (d & ->). reflexivity. Qed.

Lemma returned_In (l l' : list AuditEntry) (y' : AuditEntry) :
  Forall2 returned l l' -> In y' l' -> exists y, In y l /\ returned y y'.
Proof.
  induction 1 as [| a a' l l' Ha Hl IH]; intros Hy'; [destruct Hy' |].
  destruct Hy' as [<- | Hy']; [exists a; split; [left; reflexivity | exact Ha] |].
  destruct (IH Hy') as (y & Hy & Hr). exists y. split; [right; exact Hy | exact Hr].
Qed.

Lemma returned_sorted (l l' : list AuditEntry) :
  Forall2 returned l l' -> StronglySorted not_older l -> StronglySorted not_older l'.
Proof.
  induction 1 as [| e e' l l' He Hl IH]; intros Hs; [constructor |].
  apply StronglySorted_inv in Hs as [Hs Hx]. constructor; [apply IH, Hs |].
  rewrite List.Forall_forall in Hx |- *. intros y' Hy'.
  destruct (returned_In l l' y' Hl Hy') as (y & Hy & Hr). specialize (Hx y Hy). unfold not_older in *.
  rewrite (returned_timestamp _ _ He), (returned_timestamp _ _ Hr). exact Hx.
Qed.

(** X18.  With the store answering, [searchLogs] returns: at most 1000
    entries, and all the matching ones when they are fewer; every entry
    returned satisfies the criteria and is an entry of the collection with
    its payload deciphered; the entries come newest first; and the search
    changes neither the store nor the logger's fields. *)
Theorem searchLogs_newest_first_at_most_1000 (criteria : Criteria) (c : C) :
  readyState (store c) = 1 -> reachable (store c) = true ->
  let found := List.filter (matches criteria) (security_audit_logs (store c)) in
  exists rs c',
    searchLogs criteria c = (Ok rs, c')
    /\ List.length rs = Nat.min 1000 (List.length found)
    /\ Forall (fun e' => matches criteria e' = true
                         /\ exists e, In e (security_audit_logs (store c)) /\ returned e e') rs
    /\ StronglySorted not_older rs
    /\ store c' = store c /\ self c' = self c.
Proof.
  intros Hready Hreach found. unfold searchLogs.
  set (results := firstn 1000 (newest_first found)).
  destruct (decrypt_all_run results (set_store (store c) c)) as (rs & c' & E & F & S).
  exists rs, c'. split.
  { apply try_catch_ok. erewrite bind_ok; [exact E |].
    unfold mongo_cmd. rewrite Hready, Hreach. reflexivity. }
  split.
  { rewrite <- (Forall2_length _ _ _ F). subst results.
    rewrite length_firstn, newest_first_length. reflexivity. }
  split.
  { rewrite List.Forall_forall. intros e' He'.
    destruct (returned_In results rs e' F He') as (e & He & Hr). subst results.
    apply In_firstn in He. apply (proj1 (newest_first_In _ _)) in He.
    subst found. apply List.filter_In in He as [Hin Hm].
    split; [rewrite (returned_matches criteria _ _ Hr); exact Hm |].
    exists e. split; assumption. }
  split.
  { apply (returned_sorted results rs F). subst results.
    apply firstn_sorted, newest_first_sorted. }
  destruct S as [S1 S2]. cbn [store self set_store] in S1, S2. split; assumption.
Qed.

End Facts.

End SearchFacts.

Module ViolationFacts.
Import AuditLogger AuditFacts LoggerFacts.

Section Facts.
Context `{Host}.
#[local] Abbreviation C := (Ctx Mongo Logger).

(** Once a pattern matched, the check is not compliant. *)
Lemma fold_check_harmful_stays (s : string) (pats : list RegExp) (c0 : Compliance) :
  compliant c0 = false -> compliant (fold_left (check_harmful s) pats c0) = false.
Proof.
  revert c0. induction pats as [| p pats IH]; intros c0 Hc; [exact Hc |].
  cbn [fold_left]. apply IH. unfold check_harmful.
  destruct (RegExp_test p s); [reflexivity | exact Hc].
Qed.

Lemma fold_check_harmful_hit (s : string) (pats : list RegExp) (p : RegExp)
    (c0 : Compliance) :
  In p pats -> RegExp_test p s = true ->
  compliant (fold_left (check_harmful s) pats c0) = false.
Proof.
  revert c0. induction pats as [| q pats IH]; intros c0 Hin Hm; [destruct Hin |].
  cbn [fold_left]. destruct Hin as [-> | Hin].
  - apply fold_check_harmful_stays. unfold check_harmful. rewrite Hm. reflexivity.
  - apply IH; assumption.
Qed.

Lemma fold_check_harmful_miss (s : string) (pats : list RegExp) (c0 : Compliance) :
  Forall (fun p => RegExp_test p s = false) pats ->
  fold_left (check_harmful s) pats c0 = c0.
Proof.
  revert c0. induction pats as [| q pats IH]; intros c0 Hall; [reflexivity |].
  apply Forall_cons in Hall as [Hq Hall]. cbn [fold_left]. unfold check_harmful at 2.
  rewrite Hq. apply IH. exact Hall.
Qed.

(** The document that [handleConstitutionalViolation] files. *)
Definition violation_entry (entry : AuditEntry) (now : Z) : ViolationEntry :=
  mkViolationEntry (id entry) (timestamp entry) (event_type entry)
    (violations (constitutional_compliance entry))
    (score (constitutional_compliance entry))
    (severity entry) (metadata entry) true "pending" now.

Definition alarm_line : LogLine := (Lerror, "CONSTITUTIONAL AI VIOLATION DETECTED:").

Lemma handleConstitutionalViolation_run (entry : AuditEntry) (c : C) :
  readyState (store c) = 1 -> reachable (store c) = true ->
  exists c',
    handleConstitutionalViolation entry c = (Ok tt, c')
    /\ constitutional_violations (store c')
       = (constitutional_violations (store c) ++ [violation_entry entry (clock c)])%list
    /\ security_audit_logs (store c') = security_audit_logs (store c)
    /\ logBuffer (self c') = logBuffer (self c)
    /\ logger c' = (logger c ++ [alarm_line])%list
    /\ stat_constitutional_violations (stats (self c'))
       = option_map (Z.add 1) (stat_constitutional_violations (stats (self c))).
Proof.
  intros Hready Hreach. unfold handleConstitutionalViolation, try_catch.
  rewrite bind_run. cbn [Date_now gets]. rewrite bind_run. unfold mongo_cmd.
  rewrite Hready, Hreach. cbn [Z.eqb Pos.eqb negb]. rewrite bind_run. cbn [log modify].
  cbn [modify_self modify]. eexists. split; [reflexivity |].
  destruct c; cbn. repeat split; reflexivity.
Qed.

(** X19.  The record that [processSecurityEvent] writes for a threat, an
    object with the keys [event], [threat] and [timestamp], is itself
    found in violation by the audit logger: its text holds the word
    [threat], which the second of the harmful patterns matches.  Whatever
    the event and the finding, with the store answering the logger files
    the record in [constitutional_violations] as requiring immediate
    attention and logs the alarm; the entry has severity [high]. *)
Theorem threat_records_are_filed_as_violations
    (e t : value) (ts : Z) (md : list (string * value)) (c : C) :
  let payload := VObj [("event", e); ("threat", t); ("timestamp", VDate ts)] in
  Z.of_nat (List.length (logBuffer (self c))) + 1 < batch_size (config (self c)) ->
  readyState (store c) = 1 -> reachable (store c) = true ->
  exists entry c',
    logSecurityEvent "threat_detected" payload md c = (Ok tt, c')
    /\ compliant (constitutional_compliance entry) = false
    /\ severity entry = high
    /\ logBuffer (self c') = (logBuffer (self c) ++ [entry])%list
    /\ constitutional_violations (store c')
       = (constitutional_violations (store c) ++ [violation_entry entry (clock c)])%list
    /\ In alarm_line (logger c').
Proof.
  intros payload Hlen Hready Hreach.
  destruct (logSecurityEvent_entry "threat_detected" payload md c)
    as (entry & c1 & E & (_ & _ & _ & _ & Hcomp & Hsev) & Hbuf & _ & _ & Hst & Hclock & _).
  assert (Hbad : compliant (constitutional_compliance entry) = false).
  { rewrite Hcomp. unfold compliance_of. cbn [compliant].
    apply (fold_check_harmful_hit _ harmfulPatterns RegexFacts.violent_words).
    - exact RegexFacts.violent_words_listed.
    - apply RegexFacts.violent_words_threat_key. }
  destruct (handleConstitutionalViolation_run entry c1) as (c3 & E3 & V3 & L3 & B3 & G3 & _).
  { rewrite Hst. exact Hready. }
  { rewrite Hst. exact Hreach. }
  exists entry. rewrite E. unfold after_push. eexists. split.
  - apply try_catch_ok. erewrite bind_ok by reflexivity.
    rewrite Hbuf, length_app. cbn [List.length].
    replace (batch_size (config (self c)) <=? _) with false
      by (symmetry; apply Z.leb_gt; lia).
    cbn [when]. erewrite bind_ok by reflexivity. rewrite Hbad. cbn [negb when].
    erewrite bind_ok by exact E3. reflexivity.
  - cbn [self store logger set_logger]. rewrite B3, V3, G3, Hbuf, Hst, Hclock.
    split; [exact Hbad |]. split; [rewrite Hsev; reflexivity |].
    split; [reflexivity |]. split; [reflexivity |].
    apply in_or_app. left. apply in_or_app. right. left. reflexivity.
Qed.

End Facts.

End ViolationFacts.

Module CounterFacts.
Import AuditLogger AuditFacts.

Section Facts.
Context `{Host}.
#[local] Abbreviation C := (Ctx Mongo Logger).

(** The counter [constitutional_violations] of the statistics is not a
    number. *)
Definition unset (c : C) : Prop := stat_constitutional_violations (stats (self c)) = None.

Definition stays_unset (c c' : C) : Prop := unset c -> unset c'.

Lemma stays_unset_refl (c : C) : stays_unset c c.
Proof. unfold stays_unset. tauto. Qed.

Lemma stays_unset_trans (c1 c2 c3 : C) :
  stays_unset c1 c2 -> stays_unset c2 c3 -> stays_unset c1 c3.
Proof. unfold stays_unset. tauto. Qed.

Lemma stays_unset_self (c c' : C) : self c' = self c -> stays_unset c c'.
Proof. unfold stays_unset, unset. intros ->. tauto. Qed.

Lemma stays_unset_mongo_cmd {X} (f : Mongo -> X * Mongo) : moves stays_unset (mongo_cmd f).
Proof.
  intros c. apply stays_unset_self. unfold mongo_cmd.
  destruct (negb (readyState (store c) =? 1)); [reflexivity |].
  destruct (negb (reachable (store c))); [reflexivity |].
  destruct (f (store c)). reflexivity.
Qed.

Ltac unset_leaf :=
  let c := fresh "c" in
  let Hn := fresh "Hn" in
  intros c Hn; unfold unset in *;
  cbn [self stats set_self set_logger set_store set_entropy set_stats set_buffer
       stat_constitutional_violations log modify modify_self fresh_uuid snd fst] in *;
  rewrite ?Hn; first [reflexivity | assumption].

Ltac unset_step :=
  match goal with
  | |- moves _ (bind _ _) =>
      apply (moves_bind stays_unset stays_unset_trans); [| intros ?]
  | |- moves _ (try_catch _ _) =>
      apply (moves_try_catch stays_unset stays_unset_trans); [| intros ?]
  | |- moves _ (when _ _) => apply (moves_when stays_unset stays_unset_refl)
  | |- moves _ (ret _) => apply (moves_ret stays_unset stays_unset_refl)
  | |- moves _ (throw _) => apply (moves_throw stays_unset stays_unset_refl)
  | |- moves _ (gets _) => apply (moves_gets stays_unset stays_unset_refl)
  | |- moves _ Date_now => apply (moves_gets stays_unset stays_unset_refl)
  | |- moves _ (mongo_cmd _) => apply stays_unset_mongo_cmd
  | |- moves _ (log _ _) => unset_leaf
  | |- moves _ (modify_self _) => unset_leaf
  | |- moves _ fresh_uuid => unset_leaf
  | |- moves _ (if ?b then _ else _) => destruct b
  | |- moves _ (match ?x with _ => _ end) => destruct x
  end.

Lemma unset_handleConstitutionalViolation (entry : AuditEntry) :
  moves stays_unset (handleConstitutionalViolation entry).
Proof. unfold handleConstitutionalViolation. repeat unset_step. Qed.

Lemma unset_updateIntegrityChecksum (logs : list AuditEntry) :
  moves stays_unset (updateIntegrityChecksum logs).
Proof. unfold updateIntegrityChecksum. repeat unset_step. Qed.

Lemma unset_flush (arrived : list AuditEntry) :
  moves stays_unset (flushLogBuffer_during arrived).
Proof.
  unfold flushLogBuffer_during. unset_step; [unset_step |].
  destruct (Nat.eqb _ 0); [unset_step |].
  repeat first [apply unset_updateIntegrityChecksum | unset_step].
Qed.

Lemma unset_encryptData (d : value) : moves stays_unset (encryptData d).
Proof. unfold encryptData. repeat unset_step. Qed.

Lemma unset_logSecurityEvent (t : string) (d : value) (md : list (string * value)) :
  moves stays_unset (logSecurityEvent t d md).
Proof.
  unfold logSecurityEvent, checkConstitutionalCompliance.
  repeat first [ apply unset_encryptData | apply (unset_flush [])
               | apply unset_handleConstitutionalViolation | unset_step ].
Qed.

Lemma unset_verify_logs (logs : list AuditEntry) :
  forall counts, moves stays_unset (verify_logs logs counts).
Proof.
  induction logs as [| e rest IH]; intros counts; cbn [verify_logs]; [unset_step |].
  destruct (bool_decide _); [apply IH |].
  unset_step; [unset_step | apply IH].
Qed.

Lemma unset_performDailyIntegrityCheck : moves stays_unset performDailyIntegrityCheck.
Proof.
  unfold performDailyIntegrityCheck.
  repeat first [apply unset_verify_logs | unset_step].
Qed.

Lemma step_unset (c c' : C) : step c c' -> unset c -> unset c'.
Proof.
  intros [c0 t d md | c0 arrived Ha | c0 | c0 now ready up].
  - apply unset_logSecurityEvent.
  - apply unset_flush.
  - apply unset_performDailyIntegrityCheck.
  - unfold unset. tauto.
Qed.

(** X20.  The statistics of the audit logger have no counter
    [constitutional_violations] when the logger is constructed, and the
    increment of [handleConstitutionalViolation] does not make it a
    number: whatever events the logger records, however often it flushes
    and checks, the counter is not a number. *)
Theorem violation_counter_is_never_a_number (key : string) (node : option string)
    (c0 c : C) :
  self c0 = initial key node -> rtc step c0 c ->
  stat_constitutional_violations (stats (self c)) = None.
Proof.
  intros H0 Hsteps.
  assert (U0 : unset c0) by (unfold unset; rewrite H0; reflexivity).
  clear H0. induction Hsteps as [| x y z Hxy _ IH]; [exact U0 |].
  apply IH. eapply step_unset; eassumption.
Qed.

End Facts.

End CounterFacts.

Module CheckerFacts.
Import ComplianceChecker ComplianceFacts.

Lemma String_match_Some (content : string) (pattern : RegExp) :
  RegExp_test pattern content = true -> exists m, String_match content pattern = Some m.
Proof.
  unfold RegExp_test, String_match.
  destruct (RegExp_exec pattern content) as [[i m] |]; [eauto | discriminate].
Qed.

Lemma check_pattern_stays (content : string) (v : PrincipleCheck) (p : RegExp) :
  violated v = true -> violated (check_pattern content v p) = true.
Proof. intros Hv. unfold check_pattern. destruct (String_match _ _); [reflexivity | exact Hv]. Qed.

Lemma fold_check_pattern_stays (content : string) (ps : list RegExp) (v : PrincipleCheck) :
  violated v = true -> violated (fold_left (check_pattern content) ps v) = true.
Proof.
  revert v. induction ps as [| p ps IH]; intros v Hv; [exact Hv |].
  cbn [fold_left]. apply IH, check_pattern_stays, Hv.
Qed.

Lemma fold_check_pattern_hit (content : string) (ps : list RegExp) (v : PrincipleCheck) :
  forallb (fun pattern => negb (RegExp_test pattern content)) ps = false ->
  violated (fold_left (check_pattern content) ps v) = true.
Proof.
  revert v. induction ps as [| p ps IH]; intros v Hall; [discriminate |].
  cbn [forallb fold_left] in *. destruct (RegExp_test p content) eqn:Ep; cbn [negb andb] in Hall.
  - apply fold_check_pattern_stays. unfold check_pattern.
    destruct (String_match_Some _ _ Ep) as (m & ->). reflexivity.
  - apply IH. exact Hall.
Qed.

Lemma checkPrincipleViolation_violated (name : string) (config : Principle)
    (content : string) :
  violated (checkPrincipleViolation name config content)
  = violated (fold_left (check_pattern content) (patterns config)
                        (mkCheck false low 0.0 [] [])).
Proof.
  unfold checkPrincipleViolation. cbv zeta. cbn [violated].
  destruct (_ && _); reflexivity.
Qed.

(** A principle one of whose patterns matches is violated. *)
Lemma checkPrincipleViolation_hit (name : string) (config : Principle) (content : string) :
  forallb (fun pattern => negb (RegExp_test pattern content)) (patterns config) = false ->
  violated (checkPrincipleViolation name config content) = true.
Proof.
  intros Hall. rewrite checkPrincipleViolation_violated.
  apply fold_check_pattern_hit. exact Hall.
Qed.

Lemma check_principle_stays (content : string) (r : ComplianceResult)
    (entry : string * Principle) :
  compliant r = false -> compliant (check_principle content r entry) = false.
Proof.
  intros Hr. destruct entry as [name config]. unfold check_principle.
  destruct (violated _); [reflexivity | exact Hr].
Qed.

Lemma fold_check_principle_stays (content : string) (l : list (string * Principle))
    (r : ComplianceResult) :
  compliant r = false -> compliant (fold_left (check_principle content) l r) = false.
Proof.
  revert r. induction l as [| x l IH]; intros r Hr; [exact Hr |].
  cbn [fold_left]. apply IH, check_principle_stays, Hr.
Qed.

Lemma fold_check_principle_hit (content : string) (l : list (string * Principle))
    (r : ComplianceResult) :
  clean l content = false -> compliant (fold_left (check_principle content) l r) = false.
Proof.
  unfold clean. revert r. induction l as [| x l IH]; intros r Hall; [discriminate |].
  cbn [forallb fold_left] in *.
  destruct (forallb (fun pattern => negb (RegExp_test pattern content)) (patterns (snd x)))
    eqn:Ex; cbn [andb] in Hall.
  - apply IH. exact Hall.
  - apply fold_check_principle_stays. destruct x as [name config]. unfold check_principle.
    cbn [snd] in Ex. rewrite (checkPrincipleViolation_hit name config content Ex).
    reflexivity.
Qed.

(** *** The violations of a result *)

(** What holds of every violation that the loop records: its principle is
    a key of the table, its confidence is not above 1, and a violation of
    [human_dignity] or of [beneficence_non_maleficence] is critical with a
    confidence not below 0.8. *)
Definition well_formed (principles : list (string * Principle)) (v : Violation) : Prop :=
  In (principle v) (map fst principles)
  /\ PrimFloat.ltb 1 (confidence v) = false
  /\ (principle v = "human_dignity" \/ principle v = "beneficence_non_maleficence" ->
      severity v = critical /\ PrimFloat.ltb (confidence v) 0.8 = false).

Lemma checkPrincipleViolation_confidence (name : string) (config : Principle)
    (content : string) :
  let v := checkPrincipleViolation name config content in
  PrimFloat.ltb 1 (pc_confidence v) = false
  /\ (violated v = true ->
      name = "human_dignity" \/ name = "beneficence_non_maleficence" ->
      pc_severity v = critical /\ PrimFloat.ltb (pc_confidence v) 0.8 = false).
Proof.
  unfold checkPrincipleViolation. cbv zeta.
  set (v1 := fold_left (check_pattern content) (patterns config) _).
  cbn [violated pc_confidence pc_severity].
  destruct ((String.eqb name "human_dignity"
             || String.eqb name "beneficence_non_maleficence") && violated v1) eqn:Eb;
    cbn [violated pc_confidence pc_severity].
  - split.
    + apply FloatFacts.Math_max_le; [reflexivity | apply FloatFacts.Math_min_le_l].
    + intros _ _. split; [reflexivity | apply FloatFacts.Math_max_ge_l].
  - split; [apply FloatFacts.Math_min_le_l |].
    intros Hv Hn. rewrite Hv, andb_true_r in Eb.
    destruct Hn as [-> | ->]; discriminate.
Qed.

Lemma check_principle_well_formed (principles : list (string * Principle))
    (content : string) (r : ComplianceResult) (entry : string * Principle) :
  In entry principles ->
  Forall (well_formed principles) (violations r) ->
  Forall (well_formed principles) (violations (check_principle content r entry)).
Proof.
  intros Hin Hr. destruct entry as [name config]. unfold check_principle.
  destruct (violated (checkPrincipleViolation name config content)) eqn:Ev; [| exact Hr].
  cbn [violations]. apply Forall_app. split; [exact Hr |]. constructor; [| constructor].
  destruct (checkPrincipleViolation_confidence name config content) as [Hc Hd].
  unfold well_formed. cbn [principle confidence severity].
  split; [apply in_map_iff; exists (name, config); split; [reflexivity | exact Hin] |].
  split; [exact Hc |]. intros Hn. apply Hd; [exact Ev | exact Hn].
Qed.

Lemma fold_check_principle_well_formed (principles l : list (string * Principle))
    (content : string) (r : ComplianceResult) :
  (forall entry, In entry l -> In entry principles) ->
  Forall (well_formed principles) (violations r) ->
  Forall (well_formed principles) (violations (fold_left (check_principle content) l r)).
Proof.
  revert r. induction l as [| x l IH]; intros r Hsub Hr; [exact Hr |].
  cbn [fold_left]. apply IH.
  - intros entry He. apply Hsub. right. exact He.
  - apply check_principle_well_formed; [apply Hsub; left; reflexivity | exact Hr].
Qed.

Section Facts.
Context `{Host}.

(** X21.  [checkCompliance] returns a result that is compliant exactly
    when no detection pattern of any principle of the checker matches the
    content; its score is neither below 0 nor above 1. *)
Theorem checkCompliance_flags_every_match (data : value) (c : Ctx Redis Checker) :
  exists r c',
    checkCompliance data c = (Ok r, c')
    /\ compliant r = clean (constitutionalPrinciples (self c)) (content_of data)
    /\ PrimFloat.ltb (score r) 0 = false
    /\ PrimFloat.ltb 1 (score r) = false.
Proof.
  destruct (checkCompliance_returns data c) as (c' & E).
  exists (outcome (constitutionalPrinciples (self c)) data (clock c)), c'.
  split; [exact E |]. split; [| split].
  - destruct (clean (constitutionalPrinciples (self c)) (content_of data)) eqn:Ec.
    + rewrite (outcome_clean _ data (clock c) Ec). reflexivity.
    + unfold outcome. cbn [compliant]. apply fold_check_principle_hit. exact Ec.
  - unfold outcome. cbn [score]. apply FloatFacts.Math_max_ge_l.
  - unfold outcome. cbn [score].
    apply FloatFacts.Math_max_le; [reflexivity | apply FloatFacts.Math_min_le_l].
Qed.

(** X22.  Every violation in the result of [checkCompliance] names a
    principle of the table and has a confidence not above 1; a violation
    of [human_dignity] or of [beneficence_non_maleficence] is always
    critical, with a confidence not below 0.8, however weak the match. *)
Theorem violations_of_dignity_are_critical (data : value) (c : Ctx Redis Checker) :
  exists r c',
    checkCompliance data c = (Ok r, c')
    /\ Forall (fun v =>
                 In (principle v) (map fst (constitutionalPrinciples (self c)))
                 /\ PrimFloat.ltb 1 (confidence v) = false
                 /\ (principle v = "human_dignity"
                     \/ principle v = "beneficence_non_maleficence" ->
                     severity v = critical /\ PrimFloat.ltb (confidence v) 0.8 = false))
              (violations r).
Proof.
  destruct (checkCompliance_returns data c) as (c' & E).
  exists (outcome (constitutionalPrinciples (self c)) data (clock c)), c'.
  split; [exact E |]. unfold outcome. cbn [violations].
  apply (fold_check_principle_well_formed (constitutionalPrinciples (self c))).
  - auto.
  - constructor.
Qed.

End Facts.

End CheckerFacts.

Module DeliveryFacts.
Import AlertManager AlertFacts.

Section Facts.
Context `{Host}.
#[local] Abbreviation C := (Ctx Redis Manager).

(** The keys of the cooldown markers. *)
Definition is_marker (k : string) : bool := String.prefix "alert:cooldown:" k.

(** What a stretch of a send does: it logs [n] alert lines; it leaves the
    clock, the state of the connection to Redis, the cooldown markers and
    the counters of alerts sent and of failed deliveries as they are. *)
Definition sent (n : Z) (c c' : C) : Prop :=
  clock c' = clock c
  /\ r_up (store c') = r_up (store c)
  /\ (forall t k, is_marker k = true ->
                  redis_has t k (store c') = redis_has t k (store c))
  /\ alerts_sent (stats (self c')) = alerts_sent (stats (self c))
  /\ failed_deliveries (stats (self c')) = failed_deliveries (stats (self c))
  /\ dispatches c' = dispatches c + n.

Lemma sent_refl (c : C) : sent 0 c c.
Proof. unfold sent. repeat split; lia. Qed.

Lemma sent_trans (n m : Z) (c1 c2 c3 : C) :
  sent n c1 c2 -> sent m c2 c3 -> sent (n + m) c1 c3.
Proof.
  intros (A1 & A2 & A3 & A4 & A5 & A6) (B1 & B2 & B3 & B4 & B5 & B6). unfold sent.
  rewrite B1, B2, B4, B5, B6, A1, A2, A4, A5, A6. repeat split; try lia.
  intros t k Hk. rewrite B3, A3 by exact Hk. reflexivity.
Qed.

Lemma sent_log (lv : LogLevel) (msg : string) (c : C) :
  sent (if String.eqb msg "SECURITY ALERT:" then 1 else 0) c (snd (log lv msg c)).
Proof.
  unfold sent, dispatches. cbn. repeat split.
  rewrite count_alerts_snoc. unfold is_alert_line. cbn [snd]. reflexivity.
Qed.

Lemma sent_quiet (n : Z) (c c' : C) :
  quiet n c c' ->
  failed_deliveries (stats (self c')) = failed_deliveries (stats (self c)) ->
  sent n c c'.
Proof.
  intros (Q1 & Q2 & Q3 & Q4) Hf. unfold sent. rewrite Q1, Q2. repeat split; assumption.
Qed.

Lemma sent_email (d : value) (c : C) : sent 0 c (snd (sendEmailAlert d c)).
Proof.
  apply sent_quiet; [apply sendEmailAlert_quiet |].
  unfold sendEmailAlert. rewrite bind_run. cbn [gets].
  destruct (negb (mailTransporter (self c)) || _); [reflexivity |].
  destruct (negb (mail_up (self c))); reflexivity.
Qed.

Lemma sent_webhook (d : value) (c : C) : sent 0 c (snd (sendWebhookAlert d c)).
Proof.
  apply sent_quiet; [apply sendWebhookAlert_quiet |].
  unfold sendWebhookAlert. rewrite bind_run. cbn [gets].
  destruct (webhookUrl (self c)) as [url |]; [| reflexivity].
  destruct (String.eqb url ""); [reflexivity |].
  destruct (negb (webhook_up (self c))); reflexivity.
Qed.

Lemma sent_logged (d : value) (c : C) :
  sendLogAlert d c = (Ok tt, snd (sendLogAlert d c)) /\ sent 1 c (snd (sendLogAlert d c)).
Proof.
  split; [reflexivity |]. unfold sendLogAlert.
  apply (sent_log _ "SECURITY ALERT:" c).
Qed.

(** A key of the audit trail of the alerts is not a cooldown marker. *)
Lemma audit_key_not_marker (x k : string) :
  is_marker k = true -> k <> ("audit:alert:" ++ x)%string.
Proof. intros Hk ->. discriminate Hk. Qed.

Lemma redis_has_other (t : Z) (k k' : string) (e : string * option Z) (up : bool)
    (r : Redis) :
  k <> k' ->
  redis_has t k (mkRedis up (<[k' := e]> (r_str r)) (delete k' (r_list r)))
  = redis_has t k r.
Proof.
  intros Hne. unfold redis_has, redis_lookup. cbn [r_str r_list].
  rewrite lookup_insert_ne by congruence. rewrite lookup_delete_ne by congruence.
  reflexivity.
Qed.

Lemma sent_audit (d : value) (c : C) : sent 0 c (snd (sendAuditAlert d c)).
Proof.
  unfold sendAuditAlert. rewrite bind_run. cbn [Date_now gets]. cbv zeta.
  rewrite bind_run. unfold redis_setEx, redis_cmd.
  destruct (r_up (store c)) eqn:Hup; [| apply sent_refl].
  cbn [log modify snd]. unfold sent, dispatches.
  cbn [clock store self logger set_store set_logger r_up stats].
  rewrite count_alerts_snoc. cbn [is_alert_line snd].
  repeat split; try reflexivity; try lia; [symmetry; exact Hup |].
  intros t k Hk. apply redis_has_other. apply audit_key_not_marker. exact Hk.
Qed.

Definition alert_lines (ch : Channel) : Z :=
  match ch with log_channel => 1 | _ => 0 end.

(** A settled send never throws. *)
Lemma settle_sent (ch : Channel) (d : value) (c : C) :
  exists b c', settle ch d c = (Ok b, c') /\ sent (alert_lines ch) c c'.
Proof.
  unfold settle, try_catch. rewrite bind_run. destruct ch; cbn [send_on alert_lines].
  - pose proof (sent_email d c) as Hq.
    destruct (sendEmailAlert d c) as [[[] | e] c']; cbn in Hq |- *; eauto.
  - pose proof (sent_webhook d c) as Hq.
    destruct (sendWebhookAlert d c) as [[[] | e] c']; cbn in Hq |- *; eauto.
  - destruct (sent_logged d c) as [E Hq]. rewrite E. cbn. eauto.
  - pose proof (sent_audit d c) as Hq.
    destruct (sendAuditAlert d c) as [[[] | e] c']; cbn in Hq |- *; eauto.
Qed.

Fixpoint lines_of (chs : list Channel) : Z :=
  match chs with
  | [] => 0
  | ch :: rest => alert_lines ch + lines_of rest
  end.

Lemma settle_all_sent (chs : list Channel) (d : value) (c : C) :
  exists results c', settle_all chs d c = (Ok results, c') /\ sent (lines_of chs) c c'.
Proof.
  revert c. induction chs as [| ch rest IH]; intros c.
  - eexists _, _. split; [reflexivity | apply sent_refl].
  - cbn [settle_all lines_of].
    destruct (settle_sent ch d c) as (b & c1 & E1 & S1).
    destruct (IH c1) as (rs & c2 & E2 & S2).
    eexists _, _. split.
    + erewrite bind_ok by exact E1. erewrite bind_ok by exact E2. reflexivity.
    + eapply sent_trans; eassumption.
Qed.

Lemma warn_failures_sent (results : list (Channel * bool)) (c : C) :
  exists c',
    for_each results (fun result =>
      when (snd result) (log Lwarn "Alert delivery failed for channel")) c = (Ok tt, c')
    /\ sent 0 c c'.
Proof.
  revert c. induction results as [| [ch b] rest IH]; intros c.
  - exists c. split; [reflexivity | apply sent_refl].
  - cbn [for_each]. rewrite bind_run. destruct b; cbn [snd when].
    + cbn [log modify]. destruct (IH (set_logger
        (logger c ++ [(Lwarn, "Alert delivery failed for channel")]) c)) as (c' & E & Hq).
      exists c'. split; [exact E |].
      replace 0 with (0 + 0) by lia. eapply sent_trans; [| exact Hq].
      apply (sent_log Lwarn "Alert delivery failed for channel" c).
    + cbn [ret]. apply IH.
Qed.

(** [executeAlert] never throws, whatever becomes of the sends; it logs
    one alert line, on the [log] channel that every type of alert has. *)
Lemma executeAlert_sent (ty : AlertType) (d : value) (c : C) :
  exists c', executeAlert ty d c = (Ok tt, c') /\ sent 1 c c'.
Proof.
  unfold executeAlert. cbv zeta.
  destruct (settle_all_sent (channels (alertConfig ty)) d c) as (rs & c1 & E1 & S1).
  destruct (warn_failures_sent rs c1) as (c2 & E2 & S2).
  exists c2. split; [erewrite bind_ok by exact E1; exact E2 |].
  replace 1 with (lines_of (channels (alertConfig ty)) + 0)
    by (destruct ty; reflexivity).
  eapply sent_trans; eassumption.
Qed.

(** Consulting and setting a marker never throws; neither changes the
    counters or logs an alert line. *)
Lemma isInCooldown_run (ty : AlertType) (id : option value) (c : C) :
  exists b, isInCooldown ty id c = (Ok b, c)
            /\ (r_up (store c) = false -> b = false)
            /\ (r_up (store c) = true ->
                b = redis_has (clock c) (cooldown_key ty id) (store c)).
Proof.
  unfold isInCooldown, try_catch. rewrite bind_run. unfold redis_exists, redis_cmd.
  destruct (r_up (store c)) eqn:Hup.
  - destruct (redis_has _ _ _); cbn; eexists; (split; [destruct c; reflexivity |]);
      split; (discriminate || reflexivity).
  - cbn. eexists. split; [reflexivity |]. split; [reflexivity | discriminate].
Qed.

Lemma setCooldown_run (ty : AlertType) (id : option value) (c : C) :
  exists c',
    setCooldown ty id c = (Ok tt, c')
    /\ self c' = self c /\ clock c' = clock c /\ dispatches c' = dispatches c
    /\ r_up (store c') = r_up (store c)
    /\ (r_up (store c) = false -> store c' = store c)
    /\ (r_up (store c) = true ->
        store c' = with_marker (cooldown_key ty id) (cooldown (alertConfig ty))
                     (clock c) (store c)).
Proof.
  unfold setCooldown, try_catch, redis_setEx, redis_cmd, with_marker.
  assert (Httl : (if cooldown (alertConfig ty) =? 0 then 300 else cooldown (alertConfig ty))
                 = cooldown (alertConfig ty)) by (destruct ty; reflexivity).
  rewrite Httl. destruct (r_up (store c)) eqn:Hup.
  - eexists. split; [reflexivity |]. cbn [self clock store set_store logger r_up].
    unfold dispatches. cbn [logger]. repeat split; try reflexivity; try discriminate.
  - eexists. split; [reflexivity |]. unfold dispatches. cbn [log modify snd].
    cbn [self clock store logger set_logger]. rewrite count_alerts_snoc.
    change (is_alert_line (Lwarn, "Cooldown setting failed:")) with false.
    repeat split; try reflexivity; try lia; try discriminate. exact Hup.
Qed.

(** The end of a send that went out: the marker, the counter, the line. *)
Lemma send_tail (ty : AlertType) (id : option value) (set : bool) (lv : LogLevel)
    (msg : string) (c : C) :
  String.eqb msg "SECURITY ALERT:" = false ->
  exists c',
    (when set (setCooldown ty id) ;;
     let* now' := Date_now in
     modify_self (bump_sent (Some now')) ;;
     log lv msg) c = (Ok tt, c')
    /\ clock c' = clock c
    /\ r_up (store c') = r_up (store c)
    /\ alerts_sent (stats (self c')) = alerts_sent (stats (self c)) + 1
    /\ failed_deliveries (stats (self c')) = failed_deliveries (stats (self c))
    /\ dispatches c' = dispatches c
    /\ (set = false -> store c' = store c)
    /\ (set = true -> r_up (store c) = true ->
        store c' = with_marker (cooldown_key ty id) (cooldown (alertConfig ty))
                     (clock c) (store c)).
Proof.
  intros Hmsg.
  assert (Hset : exists c1,
             when set (setCooldown ty id) c = (Ok tt, c1)
             /\ self c1 = self c /\ clock c1 = clock c /\ dispatches c1 = dispatches c
             /\ r_up (store c1) = r_up (store c)
             /\ (set = false -> store c1 = store c)
             /\ (set = true -> r_up (store c) = true ->
                 store c1 = with_marker (cooldown_key ty id) (cooldown (alertConfig ty))
                              (clock c) (store c))).
  { destruct set; cbn [when].
    - destruct (setCooldown_run ty id c) as (c1 & E & S1 & S2 & S3 & S4 & _ & S6).
      exists c1. repeat split; try assumption; try discriminate. intros _. exact S6.
    - exists c. repeat split; try reflexivity; discriminate. }
  destruct Hset as (c1 & E1 & S1 & S2 & S3 & S4 & S5 & S6).
  eexists. split.
  - erewrite bind_ok by exact E1. erewrite bind_ok by reflexivity.
    erewrite bind_ok by reflexivity. reflexivity.
  - unfold dispatches in *.
    cbn [clock store self logger stats alerts_sent failed_deliveries set_self set_logger
         set_stats bump_sent].
    rewrite count_alerts_snoc. unfold is_alert_line. cbn [snd]. rewrite Hmsg.
    rewrite S1, S2, S3, S4. repeat split; try reflexivity; try lia; assumption.
Qed.

(** What a send does, as a function of whether the cooldown applies. *)
Definition outcome_of (cooling : bool) (c c' : C) : Prop :=
  clock c' = clock c
  /\ r_up (store c') = r_up (store c)
  /\ failed_deliveries (stats (self c')) = failed_deliveries (stats (self c))
  /\ dispatches c' = dispatches c + (if cooling then 0 else 1)
  /\ alerts_sent (stats (self c')) = alerts_sent (stats (self c)) + (if cooling then 0 else 1).

Lemma sendThreatAlert_run (tr : ThreatDetector.ThreatResult) (c : C) :
  exists cooling c',
    isInCooldown threat (identifier tr) c = (Ok cooling, c)
    /\ sendThreatAlert tr c = (Ok tt, c')
    /\ outcome_of cooling c c'.
Proof.
  destruct (isInCooldown_run threat (identifier tr) c) as (b & Eb & _).
  exists b. unfold sendThreatAlert. cbv zeta. fold (identifier tr).
  set (body := bind _ _).
  assert (Hbody : exists c', body c = (Ok tt, c') /\ outcome_of b c c').
  { subst body. erewrite bind_ok by exact Eb. destruct b.
    - eexists. split; [reflexivity |].
      unfold outcome_of, dispatches. cbn. rewrite count_alerts_snoc. cbn.
      repeat split; lia.
    - erewrite bind_ok by reflexivity. erewrite bind_ok by reflexivity.
      match goal with
      | |- context [executeAlert threat ?d] =>
          destruct (executeAlert_sent threat d (set_entropy (S (entropy c)) c))
            as (c1 & E1 & (Q1 & Q2 & Q3 & Q4 & Q5 & Q6))
      end.
      erewrite bind_ok by exact E1.
      destruct (send_tail threat (identifier tr) true Linfo
                  "Threat alert sent successfully:" c1 eq_refl)
        as (c2 & E2 & T1 & T2 & T3 & T4 & T5 & _).
      exists c2. split; [exact E2 |].
      unfold outcome_of. cbn [clock store self set_entropy] in Q1, Q2, Q4, Q5.
      unfold dispatches in *. cbn [logger set_entropy] in Q6.
      rewrite T1, T2, T3, T4, T5, Q1, Q2, Q4, Q5, Q6. repeat split; lia. }
  destruct Hbody as (c' & E & Ho). exists c'. split; [exact Eb |].
  split; [apply try_catch_ok; exact E | exact Ho].
Qed.

(** A result with a critical violation. *)
Definition has_critical (r : ComplianceChecker.ComplianceResult) : bool :=
  existsb (fun v => Severity_eqb (ComplianceChecker.severity v) critical)
          (ComplianceChecker.violations r).

Lemma sendComplianceAlert_run (r : ComplianceChecker.ComplianceResult) (c : C) :
  exists cooling c',
    (if has_critical r then cooling = false
     else isInCooldown compliance None c = (Ok cooling, c))
    /\ sendComplianceAlert r c = (Ok tt, c')
    /\ outcome_of cooling c c'
    /\ (has_critical r = true ->
        forall t k, is_marker k = true ->
                    redis_has t k (store c') = redis_has t k (store c)).
Proof.
  unfold sendComplianceAlert. cbv zeta. fold (has_critical r).
  assert (Hb : exists b,
             (if has_critical r then ret false else isInCooldown compliance None) c
             = (Ok b, c)
             /\ (if has_critical r then b = false
                 else isInCooldown compliance None c = (Ok b, c))).
  { destruct (has_critical r).
    - exists false. split; reflexivity.
    - destruct (isInCooldown_run compliance None c) as (b & Eb & _). exists b. auto. }
  destruct Hb as (b & Eb & Hb). exists b.
  set (body := bind _ _).
  assert (Hbody : exists c',
             body c = (Ok tt, c') /\ outcome_of b c c'
             /\ (has_critical r = true ->
                 forall t k, is_marker k = true ->
                             redis_has t k (store c') = redis_has t k (store c))).
  { subst body. erewrite bind_ok by exact Eb. destruct b.
    - eexists. split; [reflexivity |]. split.
      + unfold outcome_of, dispatches. cbn. rewrite count_alerts_snoc. cbn.
        repeat split; lia.
      + intros Hc. rewrite Hc in Hb. discriminate.
    - erewrite bind_ok by reflexivity. erewrite bind_ok by reflexivity.
      match goal with
      | |- context [executeAlert compliance ?d] =>
          destruct (executeAlert_sent compliance d (set_entropy (S (entropy c)) c))
            as (c1 & E1 & (Q1 & Q2 & Q3 & Q4 & Q5 & Q6))
      end.
      erewrite bind_ok by exact E1.
      destruct (send_tail compliance None (negb (has_critical r)) Lerror
                  "Constitutional AI compliance violation alert sent:" c1 eq_refl)
        as (c2 & E2 & T1 & T2 & T3 & T4 & T5 & T6 & _).
      exists c2. split; [exact E2 |]. split.
      + unfold outcome_of. cbn [clock store self set_entropy] in Q1, Q2, Q4, Q5.
        unfold dispatches in *. cbn [logger set_entropy] in Q6.
        rewrite T1, T2, T3, T4, T5, Q1, Q2, Q4, Q5, Q6. repeat split; lia.
      + intros Hc t k Hk. rewrite T6 by (rewrite Hc; reflexivity).
        cbn [store set_entropy] in Q3. apply Q3. exact Hk. }
  destruct Hbody as (c' & E & Ho & Hm). exists c'. split; [exact Hb |].
  split; [apply try_catch_ok; exact E |]. split; assumption.
Qed.

Lemma sendSystemAlert_run (status message : string) (c : C) :
  exists cooling c',
    isInCooldown system None c = (Ok cooling, c)
    /\ sendSystemAlert status message c = (Ok tt, c')
    /\ outcome_of cooling c c'.
Proof.
  destruct (isInCooldown_run system None c) as (b & Eb & _).
  exists b. unfold sendSystemAlert. cbv zeta.
  set (body := bind _ _).
  assert (Hbody : exists c', body c = (Ok tt, c') /\ outcome_of b c c').
  { subst body. erewrite bind_ok by exact Eb. destruct b.
    - exists c. split; [reflexivity |]. unfold outcome_of. repeat split; lia.
    - erewrite bind_ok by reflexivity. erewrite bind_ok by reflexivity.
      match goal with
      | |- context [executeAlert system ?d] =>
          destruct (executeAlert_sent system d (set_entropy (S (entropy c)) c))
            as (c1 & E1 & (Q1 & Q2 & Q3 & Q4 & Q5 & Q6))
      end.
      erewrite bind_ok by exact E1.
      destruct (setCooldown_run system None c1) as (c2 & E2 & S1 & S2 & S3 & S4 & _).
      erewrite bind_ok by exact E2. erewrite bind_ok by reflexivity.
      eexists. split; [reflexivity |].
      unfold outcome_of. cbn [clock store self set_entropy] in Q1, Q2, Q4, Q5.
      unfold dispatches in *. cbn [logger set_entropy] in Q6.
      cbn [clock store self logger stats alerts_sent failed_deliveries set_self set_logger
           set_stats bump_sent log modify snd].
      rewrite count_alerts_snoc.
      change (is_alert_line (Linfo, "System alert sent:")) with false.
      rewrite S1, S2, S3, S4, Q1, Q2, Q4, Q5, Q6. repeat split; lia. }
  destruct Hbody as (c' & E & Ho). exists c'. split; [exact Eb |].
  split; [apply try_catch_ok; exact E | exact Ho].
Qed.

(** X23.  None of the three sends of an alert ever throws, and none ever
    counts a failed delivery, whatever the state of Redis and of the
    transports: [executeAlert] settles every send and only warns of a
    rejected one, and consulting and setting the marker swallow their
    errors. *)
Theorem alert_sends_never_fail
    (tr : ThreatDetector.ThreatResult) (cr : ComplianceChecker.ComplianceResult)
    (status message : string) (c : C) :
  (exists c', sendThreatAlert tr c = (Ok tt, c')
              /\ failed_deliveries (stats (self c')) = failed_deliveries (stats (self c)))
  /\ (exists c', sendComplianceAlert cr c = (Ok tt, c')
                 /\ failed_deliveries (stats (self c')) = failed_deliveries (stats (self c)))
  /\ (exists c', sendSystemAlert status message c = (Ok tt, c')
                 /\ failed_deliveries (stats (self c')) = failed_deliveries (stats (self c))).
Proof.
  split; [| split].
  - destruct (sendThreatAlert_run tr c) as (b & c' & _ & E & (_ & _ & Hf & _)). eauto.
  - destruct (sendComplianceAlert_run cr c) as (b & c' & _ & E & (_ & _ & Hf & _) & _). eauto.
  - destruct (sendSystemAlert_run status message c) as (b & c' & _ & E & (_ & _ & Hf & _)).
    eauto.
Qed.

(** X24.  A compliance alert for a result with a critical violation goes
    out whatever the state of the cooldown: the marker is not consulted,
    the alert is dispatched and counted, and no cooldown marker is set or
    changed. *)
Theorem critical_compliance_alert_ignores_cooldown
    (r : ComplianceChecker.ComplianceResult) (c : C) :
  has_critical r = true ->
  exists c',
    sendComplianceAlert r c = (Ok tt, c')
    /\ dispatches c' = dispatches c + 1
    /\ alerts_sent (stats (self c')) = alerts_sent (stats (self c)) + 1
    /\ (forall t k, is_marker k = true ->
                    redis_has t k (store c') = redis_has t k (store c)).
Proof.
  intros Hc.
  destruct (sendComplianceAlert_run r c) as (b & c' & Hb & E & (_ & _ & _ & D & A) & Hm).
  rewrite Hc in Hb. subst b. exists c'. repeat split; try assumption. apply Hm. exact Hc.
Qed.

(** X25.  With Redis unreachable there is no cooldown: the marker can be
    neither read nor set, and every threat alert is dispatched, however
    close to the one before. *)
Theorem redis_down_disables_the_cooldown
    (tr1 tr2 : ThreatDetector.ThreatResult) (c : C) (t2 : Z) :
  r_up (store c) = false ->
  exists c1 c2,
    sendThreatAlert tr1 c = (Ok tt, c1)
    /\ sendThreatAlert tr2 (at_time t2 c1) = (Ok tt, c2)
    /\ dispatches c1 = dispatches c + 1
    /\ dispatches c2 = dispatches c + 2
    /\ alerts_sent (stats (self c2)) = alerts_sent (stats (self c)) + 2.
Proof.
  intros Hdown.
  destruct (sendThreatAlert_run tr1 c) as (b1 & c1 & Eb1 & E1 & (_ & U1 & _ & D1 & A1)).
  destruct (isInCooldown_run threat (identifier tr1) c) as (b & Eb & Hb & _).
  rewrite Eb in Eb1. injection Eb1 as <-. rewrite (Hb Hdown) in D1, A1.
  destruct (sendThreatAlert_run tr2 (at_time t2 c1))
    as (b2 & c2 & Eb2 & E2 & (_ & _ & _ & D2 & A2)).
  destruct (isInCooldown_run threat (identifier tr2) (at_time t2 c1)) as (b' & Eb' & Hb' & _).
  rewrite Eb' in Eb2. injection Eb2 as <-.
  rewrite Hb' in D2, A2 by (cbn [at_time store]; rewrite U1; exact Hdown).
  exists c1, c2. unfold dispatches in *. cbn [at_time logger self] in D2, A2.
  repeat split; try assumption; lia.
Qed.



End Facts.

End DeliveryFacts.

Module EndpointFacts.
Import App AppFacts Endpoints.

Section Facts.
Context `{Host}.











End Facts.

End EndpointFacts.

(** ** Concrete runs

    The inputs of the examples below, on the host [Demo.host]. *)

Module Scenario.
Import Demo.

(** 2025-11-03T09:00:00.000Z *)
Definition t0 : Z := 1762160400000.

Definition redis_empty : Redis := mkRedis true ∅ ∅.

(** An event from a public address with a harmless payload. *)
Definition quiet_event : value :=
  VObj [ ("id", VStr "evt-1");
         ("timestamp", VStr "2025-11-03T09:00:00.000Z");
         ("type", VStr "http_request");
         ("source", VObj [("ip", VStr "203.0.113.7")]);
         ("data", VStr "hello world") ].

(** An event from a blacklisted address that has already sent 150 requests
    in the current minute. *)
Definition flood_event : value :=
  VObj [ ("id", VStr "evt-2");
         ("timestamp", VStr "2025-11-03T09:00:00.000Z");
         ("type", VStr "http_request");
         ("source", VObj [("ip", VStr "10.0.0.1")]);
         ("data", VStr "hello world") ].

Definition redis_flood : Redis :=
  mkRedis true (<["threat:ip_requests:10.0.0.1" := ("150", None)]> ∅) ∅.

Definition checker_ctx : Ctx Redis ComplianceChecker.Checker :=
  mkCtx t0 0 [] redis_empty (ComplianceChecker.initial t0).

Definition detector_ctx (r : Redis) : Ctx Redis ThreatDetector.Detector :=
  mkCtx t0 0 [] r ThreatDetector.initial.

(** The flood event again, as another request: another id, another type,
    another time stamp, the same [source] and [data]. *)
Definition flood_event_again : value :=
  VObj [ ("id", VStr "evt-3");
         ("timestamp", VStr "2025-11-03T09:00:00.250Z");
         ("type", VStr "api_call");
         ("source", VObj [("ip", VStr "10.0.0.1")]);
         ("data", VStr "hello world") ].

(** A detector that has already analysed events and logged lines, in
    front of the same Redis at the same time. *)
Definition busy_detector_ctx (r : Redis) : Ctx Redis ThreatDetector.Detector :=
  mkCtx t0 7 [(Linfo, "ThreatDetector initialized successfully")] r
        (ThreatDetector.mkDetector ThreatDetector.defaultPatterns
           (list_to_set ThreatDetector.knownBadIPs) (ThreatDetector.mkStats 41 3 0 2)).


(** An alert manager with no mail transport and no webhook configured: its
    alerts go to the log. *)
Definition manager : AlertManager.Manager :=
  AlertManager.mkManager None None false (AlertManager.mkStats 0 0 0 0 None)
                         false false [] [].
Definition manager_ctx : Ctx Redis AlertManager.Manager :=
  mkCtx t0 0 [] redis_empty manager.

(** What [analyzeThreat] returns for the flood event. *)
Definition flood_result : ThreatDetector.ThreatResult :=
  ThreatDetector.mkResult true ["blacklisted_ip"; "rate_limit_exceeded"] medium 1.0
    [("request_count", VInt 150)] t0 true.

(** The audit logger of a process, its key fixed at construction, in front
    of a store that answers and of one that was lost with the connection
    still open. *)
Definition audit_key : string := "0f1e2d3c4b5a69788796a5b4c3d2e1f0".
Definition mongo_up : AuditLogger.Mongo := AuditLogger.mkMongo 1 true [] [] ∅.
Definition mongo_lost : AuditLogger.Mongo := AuditLogger.mkMongo 1 false [] [] ∅.
Definition logger_ctx (now : Z) (m : AuditLogger.Mongo)
    : Ctx AuditLogger.Mongo AuditLogger.Logger :=
  mkCtx now 0 [] m (AuditLogger.initial audit_key None).

(** Two events recorded while the store is lost. *)
Definition two_buffered : Ctx AuditLogger.Mongo AuditLogger.Logger :=
  snd (AuditLogger.logSecurityEvent "constitutional_violation" (VStr "second") []
         (snd (AuditLogger.logSecurityEvent "threat_detected" (VStr "first") []
                 (logger_ctx t0 mongo_lost)))).

(** 2025-11-02T09:00:00.000Z *)
Definition the_day_before : Z := t0 - 86400000.

Definition payload : value :=
  VObj [ ("user", VStr "alice"); ("attempts", VInt 3);
         ("tags", VArr [VStr "login"; VNull]) ].

(** An event recorded and flushed on 2025-11-02, and the same logger a
    day later. *)
Definition recorded : Ctx AuditLogger.Mongo AuditLogger.Logger :=
  snd (AuditLogger.flushLogBuffer
         (snd (AuditLogger.logSecurityEvent "threat_detected" payload []
                 (logger_ctx the_day_before mongo_up)))).
Definition a_day_later : Ctx AuditLogger.Mongo AuditLogger.Logger :=
  mkCtx t0 (entropy recorded) (logger recorded)
    (AuditLogger.mkMongo 1 true (AuditLogger.security_audit_logs (store recorded))
       (AuditLogger.constitutional_violations (store recorded))
       (AuditLogger.audit_integrity (store recorded)))
    (self recorded).

(** The process after [setupSecurityMonitoring], in front of a Redis. *)
Definition components : App.Components :=
  App.mkComponents (App.mkStats 0 0 t0 0 0) ThreatDetector.initial
    (ComplianceChecker.initial t0) manager (AuditLogger.initial audit_key None).
Definition world (r : Redis) : App.World :=
  mkCtx t0 0 [] (App.mkStores r mongo_up) components.

(** The collaborators of production with a threat detector whose
    analysis fails, and with a compliance checker whose check fails: each
    logs the error and throws it again, as the [catch] clauses of
    [analyzeThreat] and [checkEventCompliance] do. *)
Definition broken_detector : App.Collaborators :=
  App.mkCollaborators
    (fun _ => log Lerror "Threat analysis failed:" ;; throw "Error: The client is closed")
    (App.sendThreatAlert App.production)
    (App.checkEventCompliance App.production)
    (App.sendComplianceAlert App.production)
    (App.logSecurityEvent App.production)
    (App.updateSecurityMetrics App.production).
Definition broken_checker : App.Collaborators :=
  App.mkCollaborators
    (App.analyzeThreat App.production)
    (App.sendThreatAlert App.production)
    (fun _ => log Lerror "Event compliance check failed:" ;;
              throw "TypeError: content.match is not a function")
    (App.sendComplianceAlert App.production)
    (App.logSecurityEvent App.production)
    (App.updateSecurityMetrics App.production).


End Scenario.

Module ComplianceExamples.
Import Demo ComplianceChecker ComplianceFacts.

(** The clean case of C9 on the constructor's table: the content
    [hello world] matches no pattern of the ten principles. *)
Lemma checkCompliance_clean_witness :
  exists r c',
    checkCompliance (VStr "hello world") Scenario.checker_ctx = (Ok r, c')
    /\ compliant r = true /\ score r = 1.0%float /\ violations r = [].
Proof.
  destruct (checkCompliance_clean_and_flag (VStr "hello world") Scenario.checker_ctx)
    as (r & c' & E & _ & Hclean).
  exists r, c'. split; [exact E |]. apply Hclean. vm_compute. reflexivity.
Defined.

End ComplianceExamples.

(** ** The threat detector *)

Module ThreatExamples.
Import Demo ThreatDetector.


End ThreatExamples.

Module ScorerExamples.
Import Demo.

(** C8 on the flood event: a fresh detector and a busy one, in front of
    the same Redis at the same time, return the same result for two
    requests with the same source and data. *)
Lemma scorers_deterministic_witness :
  fst (ThreatDetector.analyzeThreat Scenario.flood_event
         (Scenario.detector_ctx Scenario.redis_flood))
  = fst (ThreatDetector.analyzeThreat Scenario.flood_event_again
           (Scenario.busy_detector_ctx Scenario.redis_flood)).
Proof.
  destruct (ThreatDetector.analyzeThreat Scenario.flood_event
              (Scenario.detector_ctx Scenario.redis_flood)) as [[r1 | e1] d1'] eqn:E1;
    [| vm_compute in E1; discriminate E1].
  destruct (ThreatDetector.analyzeThreat Scenario.flood_event_again
              (Scenario.busy_detector_ctx Scenario.redis_flood)) as [[r2 | e2] d2'] eqn:E2;
    [| vm_compute in E2; discriminate E2].
  cbn [fst]. f_equal.
  apply (proj2 ScorerFacts.scorers_deterministic
           Scenario.flood_event Scenario.flood_event_again
           (Scenario.detector_ctx Scenario.redis_flood)
           (Scenario.busy_detector_ctx Scenario.redis_flood) r1 r2 d1' d2'
           eq_refl eq_refl (conj eq_refl (conj eq_refl (conj eq_refl eq_refl))) E1 E2).
Defined.

End ScorerExamples.

Module AlertExamples.
Import Demo AlertManager AlertFacts.


End AlertExamples.

(** ** The audit logger *)

Module AuditExamples.
Import Demo Scenario AuditLogger AuditFacts.

(** C2 on two buffered entries: the flush throws, and the two entries are
    in neither the buffer nor the collection afterwards. *)
Lemma failed_flush_witness :
  List.length (logBuffer (self two_buffered)) = 2%nat
  /\ exists c',
       flushLogBuffer two_buffered = (Throw "MongoNetworkError: connection closed", c')
       /\ logBuffer (self c') = []
       /\ security_audit_logs (store c') = [].
Proof.
  split; [vm_compute; reflexivity |].
  destruct (failed_flush_loses_the_batch [] two_buffered) as (c' & E & Hb & Hs).
  - vm_compute. discriminate.
  - reflexivity.
  - reflexivity.
  - exists c'. split; [exact E |]. split; [exact Hb |]. rewrite Hs. reflexivity.
Defined.



(** The whole way: recorded, flushed and searched for, the entry comes
    back with the payload. *)
Example searchLogs_returns_the_payload :
  option_map event_data
    (match fst (searchLogs everything recorded) with
     | Ok [entry] => Some entry
     | _ => None
     end)
  = Some payload.
Proof. vm_compute. reflexivity. Qed.

End AuditExamples.

(** ** The orchestrator *)

Module AppExamples.
Import Demo Scenario App AppFacts.



(** C3 refuted on the quiet event: with a threat detector whose analysis
    throws, and with a compliance checker whose check throws, the caller
    gets status 500; after the first, nothing was recorded and no metric
    was counted. *)
Lemma scorer_exception_answers_500 :
  let r := post_security_event broken_detector quiet_event (world redis_empty) in
  let r' := post_security_event broken_checker quiet_event (world redis_empty) in
  fst (validateSecurityEvent quiet_event (world redis_empty)) = Ok true
  /\ fst r = Ok (mkResponse 500
                   (VObj [ ("error", VStr "Event processing failed");
                           ("timestamp", VStr "2025-11-03T09:00:00.000Z") ]))
  /\ logger (snd r) = [ (Lerror, "Threat analysis failed:");
                        (Lerror, "Security event processing error:");
                        (Lerror, "Security event processing failed:") ]
  /\ auditLogger (self (snd r)) = auditLogger (self (world redis_empty))
  /\ store (snd r) = store (world redis_empty)
  /\ fst r' = Ok (mkResponse 500
                    (VObj [ ("error", VStr "Event processing failed");
                            ("timestamp", VStr "2025-11-03T09:00:00.000Z") ])).
Proof. vm_compute. repeat split; reflexivity. Qed.

(** C3 as the code has it, on the detector whose analysis throws. *)
Lemma scorer_exception_is_rethrown_witness :
  fails_with broken_detector quiet_event (world redis_empty)
    "Error: The client is closed"
    (set_logger [(Lerror, "Threat analysis failed:")] (counted (world redis_empty))).
Proof.
  assert (Hv : fst (validateSecurityEvent quiet_event (world redis_empty)) = Ok true)
    by (vm_compute; reflexivity).
  apply (proj1 (scorer_exception_is_rethrown broken_detector quiet_event
                  (world redis_empty) Hv)).
  reflexivity.
Defined.



End AppExamples.

(** ** Further concrete runs *)

Module Coverage.
Import Demo.

(** An event whose payload is a script URL, and one whose payload is an
    object. *)
Definition script_event : value :=
  VObj [ ("id", VStr "evt-4");
         ("timestamp", VStr "2025-11-03T09:00:00.000Z");
         ("type", VStr "http_request");
         ("source", VObj [("ip", VStr "203.0.113.7")]);
         ("data", VStr "javascript:alert(1)") ].
Definition form_event : value :=
  VObj [ ("id", VStr "evt-5");
         ("timestamp", VStr "2025-11-03T09:00:00.000Z");
         ("type", VStr "http_request");
         ("source", VObj [("ip", VStr "203.0.113.7")]);
         ("data", VObj [("path", VStr "/index.html")]) ].

(** An event without [data], one whose [source.ip] is not an address, and
    one whose [source.ip] is a number. *)
Definition empty_event : value :=
  VObj [ ("id", VStr "evt-6");
         ("timestamp", VStr "2025-11-03T09:00:00.000Z");
         ("type", VStr "http_request");
         ("source", VObj [("ip", VStr "203.0.113.7")]) ].
Definition misaddressed_event : value :=
  VObj [ ("id", VStr "evt-8");
         ("timestamp", VStr "2025-11-03T09:00:00.000Z");
         ("type", VStr "http_request");
         ("source", VObj [("ip", VStr "not an address")]);
         ("data", VStr "hello world") ].
Definition numbered_event : value :=
  VObj [ ("id", VStr "evt-7");
         ("timestamp", VStr "2025-11-03T09:00:00.000Z");
         ("type", VStr "http_request");
         ("source", VObj [("ip", VInt 2130706433)]);
         ("data", VStr "hello world") ].

(** The logger with two entries in its buffer and the connection closed,
    and with the store answering. *)
Definition two_buffered_closed : Ctx AuditLogger.Mongo AuditLogger.Logger :=
  mkCtx Scenario.t0 (entropy Scenario.two_buffered) (logger Scenario.two_buffered)
        (AuditLogger.mkMongo 0 false [] [] ∅) (self Scenario.two_buffered).
Definition two_buffered_up : Ctx AuditLogger.Mongo AuditLogger.Logger :=
  mkCtx Scenario.t0 (entropy Scenario.two_buffered) (logger Scenario.two_buffered)
        Scenario.mongo_up (self Scenario.two_buffered).

(** A logger one entry short of the batch size. *)
Definition login : AuditLogger.AuditEntry :=
  AuditLogger.mkEntry "0" Scenario.t0 "login_success" (VStr "alice") []
    (AuditLogger.mkCompliance true [] 1.0 (Some Scenario.t0) None) low None false.
Definition nearly_full : Ctx AuditLogger.Mongo AuditLogger.Logger :=
  mkCtx Scenario.t0 0 [] Scenario.mongo_up
    (AuditLogger.mkLogger AuditLogger.auditConfig (repeat login 99) Scenario.audit_key None
       (AuditLogger.mkStats 99 0 0 None 0 None)).

(** Compliance results with a critical violation and without. *)
Definition dignity_result : ComplianceChecker.ComplianceResult :=
  ComplianceChecker.mkResult false
    [ComplianceChecker.mkViolation "human_dignity" "人間の尊厳の保護" critical 0.8 [] []]
    0.2 ["human_dignity"] Scenario.t0 [].

(** The alert manager in front of a Redis that cannot be reached, and
    inside the cooldown of the compliance alerts. *)
Definition manager_offline : Ctx Redis AlertManager.Manager :=
  mkCtx Scenario.t0 0 [] (mkRedis false ∅ ∅) Scenario.manager.
Definition manager_cooling : Ctx Redis AlertManager.Manager :=
  mkCtx Scenario.t0 0 []
    (mkRedis true (<["alert:cooldown:compliance:general" :=
                       ("1", Some (Scenario.t0 + 600000))]> ∅) ∅)
    Scenario.manager.

End Coverage.

Module DetectorExamples.
Import Demo ThreatDetector DetectorFacts.

(** X2 on a script URL sent from a public address. *)
Lemma matching_pattern_is_a_threat_witness :
  exists r c',
    analyzeThreat Coverage.script_event (Scenario.detector_ctx Scenario.redis_empty)
    = (Ok r, c')
    /\ isThreat r = true /\ In "xss_attack" (threatTypes r).
Proof.
  destruct (matching_pattern_is_a_threat Coverage.script_event
              (Scenario.detector_ctx Scenario.redis_empty) "xss_attack"
              (default [] (assoc "xss_attack" defaultPatterns))
              (re_i "javascript:" (lit "javascript:")))
    as (r & c' & E & H1 & H2 & _).
  - right. left. reflexivity.
  - right. left. reflexivity.
  - vm_compute. reflexivity.
  - exists r, c'. auto.
Defined.

(** X3 on an event whose payload is an object with a path. *)
Lemma structured_data_is_command_injection_witness :
  exists r c',
    analyzeThreat Coverage.form_event (Scenario.detector_ctx Scenario.redis_empty)
    = (Ok r, c')
    /\ isThreat r = true /\ In "command_injection" (threatTypes r).
Proof.
  apply (structured_data_is_command_injection Coverage.form_event
           (VObj [("path", VStr "/index.html")])).
  - reflexivity.
  - reflexivity.
  - left. eexists. reflexivity.
Defined.

(** X4 on the flood event, whose address is on the blacklist, with Redis
    empty. *)
Lemma blacklisted_source_is_a_threat_witness :
  exists r c',
    analyzeThreat Scenario.flood_event (Scenario.detector_ctx Scenario.redis_empty)
    = (Ok r, c')
    /\ isThreat r = true /\ In "blacklisted_ip" (threatTypes r).
Proof.
  apply (blacklisted_source_is_a_threat Scenario.flood_event "10.0.0.1").
  - reflexivity.
  - discriminate.
  - vm_compute. reflexivity.
Defined.


End DetectorExamples.

Module CooldownExamples.
Import Demo AlertManager AlertFacts.

(** X6 on the flood event and, a minute later, the script event from
    another address: one alert. *)
Lemma threat_cooldown_is_shared_by_all_sources_witness :
  exists r1 r2 c1 c2,
    fst (ThreatDetector.analyzeThreat Scenario.flood_event
           (Scenario.detector_ctx Scenario.redis_empty)) = Ok r1
    /\ fst (ThreatDetector.analyzeThreat Coverage.script_event
              (Scenario.detector_ctx Scenario.redis_empty)) = Ok r2
    /\ sendThreatAlert r1 Scenario.manager_ctx = (Ok tt, c1)
    /\ sendThreatAlert r2 (at_time (Scenario.t0 + 60000) c1) = (Ok tt, c2)
    /\ dispatches c1 = 1 /\ dispatches c2 = 1.
Proof.
  destruct (CooldownFacts.threat_cooldown_is_shared_by_all_sources
              Scenario.flood_event Coverage.script_event
              (Scenario.detector_ctx Scenario.redis_empty)
              (Scenario.detector_ctx Scenario.redis_empty)
              Scenario.manager_ctx (Scenario.t0 + 60000))
    as (r1 & r2 & d1 & d2 & c1 & c2 & E1 & E2 & _ & _ & S1 & S2 & D1 & D2).
  - unfold DetectorFacts.no_source_category. repeat (constructor; [discriminate |]).
    constructor.
  - unfold DetectorFacts.no_source_category. repeat (constructor; [discriminate |]).
    constructor.
  - reflexivity.
  - vm_compute. reflexivity.
  - vm_compute. reflexivity.
  - exists r1, r2, c1, c2. rewrite E1, E2. repeat split; assumption.
Defined.

End CooldownExamples.

Module IntakeExamples.
Import Demo App AppFacts IntakeFacts.

(** X9 on an event without [data]. *)
Lemma rejected_event_is_answered_200_witness :
  post_security_event production Coverage.empty_event (Scenario.world Scenario.redis_empty)
  = (Ok (success_response (Scenario.world Scenario.redis_empty)),
     dropped (Scenario.world Scenario.redis_empty)).
Proof.
  apply (rejected_event_is_answered_200 production Coverage.empty_event
           (Scenario.world Scenario.redis_empty)).
  vm_compute. reflexivity.
Defined.

(** X10 on the event without [data] and on an
    event whose address is not one. *)
Lemma validateSecurityEvent_rejects_witness :
  validateSecurityEvent Coverage.empty_event (Scenario.world Scenario.redis_empty)
  = (Ok false, Scenario.world Scenario.redis_empty)
  /\ validateSecurityEvent Coverage.misaddressed_event (Scenario.world Scenario.redis_empty)
     = (Ok false, Scenario.world Scenario.redis_empty).
Proof.
  split.
  - apply (proj1 (validateSecurityEvent_rejects Coverage.empty_event
                    (Scenario.world Scenario.redis_empty)) "data").
    + do 3 right. left. reflexivity.
    + reflexivity.
  - apply (proj2 (validateSecurityEvent_rejects Coverage.misaddressed_event
                    (Scenario.world Scenario.redis_empty)) "not an address").
    + reflexivity.
    + reflexivity.
    + reflexivity.
    + reflexivity.
    + discriminate.
    + vm_compute. reflexivity.
Defined.

(** X11 on an event whose [source.ip] is the number of an address. *)
Lemma non_string_ip_is_answered_500_witness :
  status (match fst (post_security_event production Coverage.numbered_event
                       (Scenario.world Scenario.redis_empty)) with
          | Ok response => response
          | Throw _ => mkResponse 0 VNull
          end) = 500.
Proof.
  destruct (non_string_ip_is_answered_500 production Coverage.numbered_event
              (VInt 2130706433) (Scenario.world Scenario.redis_empty)) as [_ E].
  - reflexivity.
  - reflexivity.
  - reflexivity.
  - reflexivity.
  - reflexivity.
  - intros s. discriminate.
  - rewrite E. reflexivity.
Defined.

(** X13: the event whose payload is an object with a path, in production. *)
Lemma structured_event_witness :
  threats_detected
    (stats (self (snd (post_security_event production Coverage.form_event
                         (Scenario.world Scenario.redis_empty))))) = 1.
Proof.
  apply (structured_event_counts_as_a_threat Coverage.form_event
           (VObj [("path", VStr "/index.html")]) (Scenario.world Scenario.redis_empty)).
  - vm_compute. reflexivity.
  - reflexivity.
  - reflexivity.
  - left. eexists. reflexivity.
Defined.

End IntakeExamples.

Module LoggerExamples.
Import Demo AuditLogger AuditFacts LoggerFacts.

(** X14 on two buffered entries and a closed connection. *)
Lemma flush_on_closed_connection_witness :
  exists c',
    flushLogBuffer Coverage.two_buffered_closed = (Ok tt, c')
    /\ logBuffer (self c') = []
    /\ security_audit_logs (store c') = [].
Proof.
  destruct (flush_on_closed_connection_drops_the_batch Coverage.two_buffered_closed)
    as (c' & E & Hb & Hs & _).
  - vm_compute. discriminate.
  - vm_compute. discriminate.
  - exists c'. rewrite Hs. auto.
Defined.

(** X15 on two buffered entries and a store that answers. *)
Lemma flush_appends_the_batch_witness :
  exists c',
    flushLogBuffer Coverage.two_buffered_up = (Ok tt, c')
    /\ logBuffer (self c') = []
    /\ List.length (security_audit_logs (store c')) = 2%nat.
Proof.
  destruct (flush_appends_the_batch Coverage.two_buffered_up)
    as (c' & E & Hb & Hs & _).
  - vm_compute. discriminate.
  - reflexivity.
  - reflexivity.
  - exists c'. rewrite Hs. split; [exact E |]. split; [exact Hb |].
    vm_compute. reflexivity.
Defined.

(** X16 on a logger with an empty buffer. *)
Lemma logSecurityEvent_buffers_witness :
  exists entry c',
    logSecurityEvent "login_success" (VStr "alice") []
      (Scenario.logger_ctx Scenario.t0 Scenario.mongo_up) = (Ok tt, c')
    /\ logBuffer (self c') = [entry]
    /\ security_audit_logs (store c') = [].
Proof.
  destruct (logSecurityEvent_buffers_below_the_batch_size "login_success" (VStr "alice") []
              (Scenario.logger_ctx Scenario.t0 Scenario.mongo_up))
    as (entry & c' & E & Hb & Hs & _).
  - vm_compute. reflexivity.
  - exists entry, c'. auto.
Defined.

(** X17 on a logger with 99 entries in its buffer. *)
Lemma logSecurityEvent_flushes_witness :
  exists c',
    logSecurityEvent "login_success" (VStr "alice") [] Coverage.nearly_full = (Ok tt, c')
    /\ logBuffer (self c') = []
    /\ List.length (security_audit_logs (store c')) = 100%nat.
Proof.
  destruct (logSecurityEvent_flushes_a_full_buffer "login_success" (VStr "alice") []
              Coverage.nearly_full) as [Hup _].
  - vm_compute. discriminate.
  - destruct (Hup eq_refl eq_refl) as (entry & c' & E & _ & _ & Hb & Hs).
    exists c'. rewrite Hs. split; [exact E |]. split; [exact Hb |]. reflexivity.
Defined.

(** X18 on the collection of one entry recorded the day before. *)
Lemma searchLogs_witness :
  exists rs c',
    searchLogs everything Scenario.a_day_later = (Ok rs, c')
    /\ List.length rs = 1%nat.
Proof.
  destruct (SearchFacts.searchLogs_newest_first_at_most_1000 everything Scenario.a_day_later)
    as (rs & c' & E & Hl & _).
  - reflexivity.
  - reflexivity.
  - exists rs, c'. split; [exact E |]. rewrite Hl. vm_compute. reflexivity.
Defined.

(** X19 on the record of the flood event. *)
Lemma threat_records_are_filed_witness :
  exists c',
    logSecurityEvent "threat_detected"
      (VObj [ ("event", Scenario.flood_event);
              ("threat", ThreatDetector.result_value Scenario.flood_result);
              ("timestamp", VDate Scenario.t0) ]) []
      (Scenario.logger_ctx Scenario.t0 Scenario.mongo_up) = (Ok tt, c')
    /\ List.length (constitutional_violations (store c')) = 1%nat.
Proof.
  destruct (ViolationFacts.threat_records_are_filed_as_violations Scenario.flood_event
              (ThreatDetector.result_value Scenario.flood_result) Scenario.t0 []
              (Scenario.logger_ctx Scenario.t0 Scenario.mongo_up))
    as (entry & c' & E & _ & _ & _ & Hv & _).
  - vm_compute. reflexivity.
  - reflexivity.
  - reflexivity.
  - exists c'. split; [exact E |]. rewrite Hv. reflexivity.
Defined.

(** X20: the counter after the record of the flood event was filed as a
    violation. *)
Lemma violation_counter_witness :
  let c := snd (logSecurityEvent "threat_detected"
                  (VObj [ ("event", Scenario.flood_event);
                          ("threat", ThreatDetector.result_value Scenario.flood_result);
                          ("timestamp", VDate Scenario.t0) ]) []
                  (Scenario.logger_ctx Scenario.t0 Scenario.mongo_up)) in
  List.length (constitutional_violations (store c)) = 1%nat
  /\ stat_constitutional_violations (stats (self c)) = None.
Proof.
  split; [vm_compute; reflexivity |].
  apply (CounterFacts.violation_counter_is_never_a_number Scenario.audit_key None
           (Scenario.logger_ctx Scenario.t0 Scenario.mongo_up)).
  - reflexivity.
  - eapply rtc_l; [apply step_log | apply rtc_refl].
Defined.

End LoggerExamples.

Module DeliveryExamples.
Import Demo AlertManager AlertFacts DeliveryFacts.

(** X24 inside the cooldown of the compliance alerts. *)
Lemma critical_compliance_alert_witness :
  redis_has Scenario.t0 "alert:cooldown:compliance:general" (store Coverage.manager_cooling)
  = true
  /\ exists c',
       sendComplianceAlert Coverage.dignity_result Coverage.manager_cooling = (Ok tt, c')
       /\ dispatches c' = 1.
Proof.
  split; [vm_compute; reflexivity |].
  destruct (critical_compliance_alert_ignores_cooldown Coverage.dignity_result
              Coverage.manager_cooling) as (c' & E & D & _).
  - reflexivity.
  - exists c'. split; [exact E | exact D].
Defined.

(** X25 on two alerts one second apart. *)
Lemma redis_down_disables_the_cooldown_witness :
  exists c1 c2,
    sendThreatAlert Scenario.flood_result Coverage.manager_offline = (Ok tt, c1)
    /\ sendThreatAlert Scenario.flood_result (at_time (Scenario.t0 + 1000) c1) = (Ok tt, c2)
    /\ dispatches c2 = 2.
Proof.
  destruct (redis_down_disables_the_cooldown Scenario.flood_result Scenario.flood_result
              Coverage.manager_offline (Scenario.t0 + 1000))
    as (c1 & c2 & E1 & E2 & _ & D2 & _).
  - reflexivity.
  - exists c1, c2. auto.
Defined.


End DeliveryExamples.
